(** * Product Manager (src/App.tsx): store reducer, persistence, list
      projection, pagination, form validation, the filter state of the URL
      and the add, edit and detail pages.

    The development follows the source top-down.  JavaScript values are
    embedded as follows.

    - A JS string is its sequence of UTF-16 code units ([jsstring]); so
      [length] is the JS [.length].
    - An identifier ([Product.id], [ProductState.nextId]) is an integer [Z].
      [Math.max] and [===] are exact on integers; the sum [id + 1] is the
      binary64 sum ([numberAdd]): exact up to 2^53 and rounded to the
      nearest integer that a JS number holds from there on.
    - Any other JS number ([gia], [soLuong], the result of [Number(text)])
      is a [number]: NaN, an infinity, or an exact decimal [m * 10^e].
      Binary64 rounding, overflow and underflow are not modelled.
    - [localStorage] is a finite map from keys to values with a quota;
      a JS exception is the [None] of an [option]. *)

From Stdlib Require Import ZArith NArith List String Ascii Bool Lia Permutation Sorted.
From stdpp Require Import base option list gmap.
Import ListNotations.
Open Scope Z_scope.

(* ================================================================= *)
(** ** JS strings *)

Module JSString.

(** A UTF-16 code unit. *)
Definition char16 := N.
Definition jsstring := list char16.

(** The code unit of an ASCII character. *)
Definition ch (a : ascii) : char16 := N_of_ascii a.

(** The JS string denoted by a UTF-8 encoded literal of this file. *)
Fixpoint utf16_of_utf8 (bs : list N) : jsstring :=
  match bs with
  | [] => []
  | b0 :: r =>
    if (b0 <? 128)%N then b0 :: utf16_of_utf8 r
    else if (b0 <? 224)%N then
      match r with
      | b1 :: r1 => ((b0 mod 32) * 64 + b1 mod 64)%N :: utf16_of_utf8 r1
      | _ => []
      end
    else if (b0 <? 240)%N then
      match r with
      | b1 :: b2 :: r2 =>
        ((b0 mod 16) * 4096 + (b1 mod 64) * 64 + b2 mod 64)%N :: utf16_of_utf8 r2
      | _ => []
      end
    else
      match r with
      | b1 :: b2 :: b3 :: r3 =>
        let cp := ((b0 mod 8) * 262144 + (b1 mod 64) * 4096
                   + (b2 mod 64) * 64 + b3 mod 64)%N in
        let v := (cp - 65536)%N in
        (55296 + v / 1024)%N :: (56320 + v mod 1024)%N :: utf16_of_utf8 r3
      | _ => []
      end
  end.

Definition str (s : string) : jsstring :=
  utf16_of_utf8 (List.map N_of_ascii (list_ascii_of_string s)).

(** WhiteSpace and LineTerminator code points (ECMAScript 12.2, 12.3):
    the characters that [trim] strips and [Number] skips. *)
Definition isWhiteSpace (c : char16) : bool :=
  ((c =? 9) || (c =? 10) || (c =? 11) || (c =? 12) || (c =? 13) || (c =? 32)
   || (c =? 160) || (c =? 5760) || ((8192 <=? c) && (c <=? 8202))
   || (c =? 8232) || (c =? 8233) || (c =? 8239) || (c =? 8287)
   || (c =? 12288) || (c =? 65279))%N.

Fixpoint trimStart (s : jsstring) : jsstring :=
  match s with
  | c :: r => if isWhiteSpace c then trimStart r else s
  | [] => []
  end.

Definition trimEnd (s : jsstring) : jsstring := rev (trimStart (rev s)).

(** [s.trim()] *)
Definition trim (s : jsstring) : jsstring := trimEnd (trimStart s).

Definition eqb (s t : jsstring) : bool := bool_decide (s = t).

(** [s.startsWith(p)] and the remainder after [p]. *)
Fixpoint strip_prefix (p s : jsstring) : option jsstring :=
  match p, s with
  | [], _ => Some s
  | a :: p', b :: s' => if (a =? b)%N then strip_prefix p' s' else None
  | _ :: _, [] => None
  end.

(** [s.includes(q)] *)
Fixpoint includes (s q : jsstring) : bool :=
  match strip_prefix q s with
  | Some _ => true
  | None => match s with
            | [] => false
            | _ :: r => includes r q
            end
  end.

(** ToBoolean of a string: the empty string is the only falsy one. *)
Definition truthy (s : jsstring) : bool :=
  match s with [] => false | _ => true end.

End JSString.
Export JSString.

(* ================================================================= *)
(** ** JS numbers *)

Module JSNumber.

Inductive number : Type :=
| NaN
| Infinity (negative : bool)
| Finite (m e : Z).            (* the value m * 10^e *)

(** Canonical form of [m * 10^e]: no factor 10 is left in the mantissa,
    and zero is [Finite 0 0]. *)
Fixpoint strip10 (fuel : nat) (m e : Z) : Z * Z :=
  match fuel with
  | O => (m, e)
  | S f => if (m mod 10 =? 0) then strip10 f (m / 10) (e + 1) else (m, e)
  end.

Definition dec (m e : Z) : number :=
  if m =? 0 then Finite 0 0
  else let '(m', e') := strip10 (Z.to_nat (Z.log2 (Z.abs m))) m e in Finite m' e'.

Definition ofZ (z : Z) : number := dec z 0.

Definition isNaN (x : number) : bool :=
  match x with NaN => true | _ => false end.

Definition isFinite (x : number) : bool :=
  match x with Finite _ _ => true | _ => false end.

(** [Number.isInteger] *)
Definition isInteger (x : number) : bool :=
  match x with
  | Finite m e => if 0 <=? e then true else m mod 10 ^ (- e) =? 0
  | _ => false
  end.

(** The representation invariant of [dec]. *)
Definition canonical (x : number) : bool :=
  match x with
  | Finite m e => if m =? 0 then e =? 0 else negb (m mod 10 =? 0)
  | _ => true
  end.

(** Order of two finite values, at their common exponent. *)
Definition compare_finite (m1 e1 m2 e2 : Z) : comparison :=
  let e := Z.min e1 e2 in
  (m1 * 10 ^ (e1 - e) ?= m2 * 10 ^ (e2 - e)).

(** The order of JS numbers; [None] when an operand is NaN. *)
Definition compare (x y : number) : option comparison :=
  match x, y with
  | NaN, _ | _, NaN => None
  | Infinity a, Infinity b =>
    Some (if a then (if b then Eq else Lt) else (if b then Gt else Eq))
  | Infinity a, Finite _ _ => Some (if a then Lt else Gt)
  | Finite _ _, Infinity b => Some (if b then Gt else Lt)
  | Finite m1 e1, Finite m2 e2 => Some (compare_finite m1 e1 m2 e2)
  end.

(** [x <= y] *)
Definition leb (x y : number) : bool :=
  match compare x y with Some Lt | Some Eq => true | _ => false end.

(** [x >= y] *)
Definition geb (x y : number) : bool :=
  match compare x y with Some Gt | Some Eq => true | _ => false end.

(** [x < y] *)
Definition ltb (x y : number) : bool :=
  match compare x y with Some Lt => true | _ => false end.

(** *** Number::add (ECMAScript 6.1.6.1.7) on integers *)

(** 2^53: up to here every integer is a JS number. *)
Definition two53 : Z := 9007199254740992.

(** The binary64 value nearest to an integer: the integer itself when its
    magnitude has at most 53 bits; otherwise the bits beyond the 53rd are
    rounded away, a tie going to the even significand. *)
Definition toBinary64 (z : Z) : Z :=
  let a := Z.abs z in
  let k := Z.log2 a - 52 in
  if k <=? 0 then z
  else
    let q := a / 2 ^ k in
    let r := a mod 2 ^ k in
    let half := 2 ^ (k - 1) in
    let q' := if r <? half then q
              else if half <? r then q + 1
              else if Z.even q then q else q + 1 in
    Z.sgn z * (q' * 2 ^ k).

(** [x + y] on two integers that JS numbers hold: the exact sum, rounded.
    With [y = 1], as the store uses it, the sum never overflows. *)
Definition numberAdd (x y : Z) : Z := toBinary64 (x + y).

(** *** StringToNumber (ECMAScript 7.1.4.1.1), the [Number(text)] call *)

Definition digit (radix : Z) (c : char16) : option Z :=
  let c := Z.of_N c in
  let v := if (48 <=? c) && (c <=? 57) then Some (c - 48)
           else if (97 <=? c) && (c <=? 122) then Some (c - 87)
           else if (65 <=? c) && (c <=? 90) then Some (c - 55)
           else None in
  match v with
  | Some d => if d <? radix then Some d else None
  | None => None
  end.

(** The longest prefix of digits, and what follows it. *)
Fixpoint span_digits (radix : Z) (s : jsstring) : list Z * jsstring :=
  match s with
  | c :: r =>
    match digit radix c with
    | Some d => let '(ds, r') := span_digits radix r in (d :: ds, r')
    | None => ([], s)
    end
  | [] => ([], [])
  end.

Definition digits_value (radix : Z) (ds : list Z) : Z :=
  fold_left (fun a d => a * radix + d) ds 0.

(** An optional sign. *)
Definition sign (s : jsstring) : bool * jsstring :=
  match s with
  | c :: r => if (c =? ch "-")%N then (true, r)
              else if (c =? ch "+")%N then (false, r)
              else (false, s)
  | [] => (false, s)
  end.

(** ExponentPart_opt running to the end of the text. *)
Definition exponentPart (s : jsstring) : option Z :=
  match s with
  | [] => Some 0
  | c :: r =>
    if ((c =? ch "e") || (c =? ch "E"))%N then
      let '(neg, r1) := sign r in
      match span_digits 10 r1 with
      | (d :: ds, []) =>
        let v := digits_value 10 (d :: ds) in Some (if neg then - v else v)
      | _ => None
      end
    else None
  end.

Definition strUnsignedDecimalLiteral (s : jsstring) : number :=
  if JSString.eqb s (str "Infinity") then Infinity false
  else
    let '(ip, r1) := span_digits 10 s in
    let '(fp, r2) :=
      match r1 with
      | c :: r => if (c =? ch ".")%N then span_digits 10 r else ([], r1)
      | [] => ([], r1)
      end in
    match ip ++ fp with
    | [] => NaN
    | ds =>
      match exponentPart r2 with
      | Some x => dec (digits_value 10 ds) (x - Z.of_nat (length fp))
      | None => NaN
      end
    end.

Definition neg (x : number) : number :=
  match x with
  | NaN => NaN
  | Infinity b => Infinity (negb b)
  | Finite m e => Finite (- m) e
  end.

Definition strDecimalLiteral (s : jsstring) : number :=
  let '(negative, r) := sign s in
  let x := strUnsignedDecimalLiteral r in
  if negative then neg x else x.

(** 0x, 0o and 0b literals: digits to the end of the text, no sign. *)
Definition nonDecimalIntegerLiteral (s : jsstring) : option number :=
  match s with
  | z :: x :: r =>
    if (z =? ch "0")%N then
      let radix := if ((x =? ch "x") || (x =? ch "X"))%N then Some 16
                   else if ((x =? ch "o") || (x =? ch "O"))%N then Some 8
                   else if ((x =? ch "b") || (x =? ch "B"))%N then Some 2
                   else None in
      match radix with
      | Some rd =>
        match span_digits rd r with
        | (d :: ds, []) => Some (ofZ (digits_value rd (d :: ds)))
        | _ => Some NaN
        end
      | None => None
      end
    else None
  | _ => None
  end.

(** [Number(text)] for a string argument. *)
Definition Number (text : jsstring) : number :=
  match trim text with
  | [] => Finite 0 0
  | s => match nonDecimalIntegerLiteral s with
         | Some x => x
         | None => strDecimalLiteral s
         end
  end.

End JSNumber.
Export JSNumber.

(* ================================================================= *)
(** ** JSON.stringify and JSON.parse *)

Module JSON.

(** The JS values that JSON text denotes.  An object is its list of
    properties in creation order. *)
#[warnings="-register-all"] Inductive json : Type :=
| JNull
| JBool (b : bool)
| JNumber (n : number)
| JString (s : jsstring)
| JArray (l : list json)
| JObject (l : list (jsstring * json)).

(** *** Number::toString (ECMAScript 6.1.6.1.20), radix 10 *)

Fixpoint digits_of (fuel : nat) (n : Z) (acc : list Z) : list Z :=
  match fuel with
  | O => n :: acc
  | S f => if n <? 10 then n :: acc else digits_of f (n / 10) (n mod 10 :: acc)
  end.

(** The decimal digits of [n >= 0], most significant first. *)
Definition to_digits (n : Z) : list Z := digits_of (Z.to_nat (Z.log2 n)) n [].

Definition digit_char (d : Z) : char16 :=
  Z.to_N (if d <? 10 then 48 + d else 87 + d).

Definition numberToString (x : number) : jsstring :=
  match x with
  | NaN => str "NaN"
  | Infinity b => (if b then str "-" else []) ++ str "Infinity"
  | Finite m0 e0 =>
    match dec m0 e0 with
    | Finite m e =>
      if m =? 0 then str "0"
      else
        let ds := List.map digit_char (to_digits (Z.abs m)) in
        let k := Z.of_nat (length ds) in
        let n := k + e in
        (if m <? 0 then str "-" else []) ++
        (if (k <=? n) && (n <=? 21) then
           ds ++ replicate (Z.to_nat (n - k)) (ch "0")
         else if (0 <? n) && (n <=? 21) then
           take (Z.to_nat n) ds ++ str "." ++ drop (Z.to_nat n) ds
         else if (-6 <? n) && (n <=? 0) then
           str "0." ++ replicate (Z.to_nat (- n)) (ch "0") ++ ds
         else
           let ex := n - 1 in
           let es := (if ex <? 0 then str "-" else str "+")
                     ++ List.map digit_char (to_digits (Z.abs ex)) in
           match ds with
           | [] => []
           | [d] => d :: str "e" ++ es
           | d :: r => d :: str "." ++ r ++ str "e" ++ es
           end)
    | _ => []
    end
  end.

(** *** QuoteJSONString (ECMAScript 25.5.2.3) *)

Definition isHighSurrogate (c : char16) : bool := ((55296 <=? c) && (c <=? 56319))%N.
Definition isLowSurrogate (c : char16) : bool := ((56320 <=? c) && (c <=? 57343))%N.

(** [\uXXXX] with lower-case hexadecimal digits. *)
Definition unicodeEscape (c : char16) : jsstring :=
  let z := Z.of_N c in
  str "\u" ++ List.map digit_char
    [z / 4096 mod 16; z / 256 mod 16; z / 16 mod 16; z mod 16].

Definition escape1 (c : char16) : jsstring :=
  if (c =? 8)%N then str "\b"
  else if (c =? 9)%N then str "\t"
  else if (c =? 10)%N then str "\n"
  else if (c =? 12)%N then str "\f"
  else if (c =? 13)%N then str "\r"
  else if (c =? 34)%N then [ch "\"; 34%N]
  else if (c =? 92)%N then str "\\"
  else if (c <? 32)%N then unicodeEscape c
  else [c].

Fixpoint quote_chars (s : jsstring) : jsstring :=
  match s with
  | [] => []
  | c :: r =>
    if isHighSurrogate c then
      match r with
      | c2 :: r2 =>
        if isLowSurrogate c2 then c :: c2 :: quote_chars r2
        else unicodeEscape c ++ quote_chars r
      | [] => unicodeEscape c
      end
    else if isLowSurrogate c then unicodeEscape c ++ quote_chars r
    else escape1 c ++ quote_chars r
  end.

Definition quote (s : jsstring) : jsstring := 34%N :: quote_chars s ++ [34%N].

(** *** SerializeJSONProperty, with no indentation *)

Fixpoint join (sep : jsstring) (l : list jsstring) : jsstring :=
  match l with
  | [] => []
  | [x] => x
  | x :: r => x ++ sep ++ join sep r
  end.

Fixpoint stringify (j : json) : jsstring :=
  match j with
  | JNull => str "null"
  | JBool b => if b then str "true" else str "false"
  | JNumber n => if isFinite n then numberToString n else str "null"
  | JString s => quote s
  | JArray l => str "[" ++ join (str ",") (List.map stringify l) ++ str "]"
  | JObject l =>
    str "{"
    ++ join (str ",")
         (List.map (fun kv => quote (fst kv) ++ str ":" ++ stringify (snd kv)) l)
    ++ str "}"
  end.

(** *** JSON.parse (ECMAScript 25.5.1, the grammar of ECMA-404) *)

Definition isJSONWhiteSpace (c : char16) : bool :=
  ((c =? 9) || (c =? 10) || (c =? 13) || (c =? 32))%N.

Fixpoint skip_ws (s : jsstring) : jsstring :=
  match s with
  | c :: r => if isJSONWhiteSpace c then skip_ws r else s
  | [] => []
  end.

(** The characters of a string literal after its opening quote, up to and
    including the closing quote. *)
Fixpoint parse_chars (s : jsstring) : option (jsstring * jsstring) :=
  match s with
  | [] => None
  | c :: r =>
    if (c =? 34)%N then Some ([], r)
    else if (c =? 92)%N then
      match r with
      | [] => None
      | x :: r1 =>
        let simple (u : char16) :=
          match parse_chars r1 with
          | Some (t, rest) => Some (u :: t, rest)
          | None => None
          end in
        if (x =? 34)%N then simple 34%N
        else if (x =? 92)%N then simple 92%N
        else if (x =? ch "/")%N then simple (ch "/")
        else if (x =? ch "b")%N then simple 8%N
        else if (x =? ch "f")%N then simple 12%N
        else if (x =? ch "n")%N then simple 10%N
        else if (x =? ch "r")%N then simple 13%N
        else if (x =? ch "t")%N then simple 9%N
        else if (x =? ch "u")%N then
          match r1 with
          | h1 :: h2 :: h3 :: h4 :: r2 =>
            match digit 16 h1, digit 16 h2, digit 16 h3, digit 16 h4 with
            | Some d1, Some d2, Some d3, Some d4 =>
              match parse_chars r2 with
              | Some (t, rest) =>
                Some (Z.to_N (((d1 * 16 + d2) * 16 + d3) * 16 + d4) :: t, rest)
              | None => None
              end
            | _, _, _, _ => None
            end
          | _ => None
          end
        else None
      end
    else if (c <? 32)%N then None
    else
      match parse_chars r with
      | Some (t, rest) => Some (c :: t, rest)
      | None => None
      end
  end.

(** A number token: [-? int frac? exp?]. *)
Definition minus_sign (s : jsstring) : bool * jsstring :=
  match s with
  | c :: r => if (c =? ch "-")%N then (true, r) else (false, s)
  | [] => (false, s)
  end.

(** The integer part is 0 or starts with a non-zero digit. *)
Definition int_ok (ip : list Z) : bool :=
  match ip with
  | [] => false
  | [_] => true
  | d :: _ => negb (d =? 0)
  end.

Definition fraction (s : jsstring) : option (list Z * jsstring) :=
  match s with
  | c :: r =>
    if (c =? ch ".")%N then
      match span_digits 10 r with
      | ([], _) => None
      | (fp, r2) => Some (fp, r2)
      end
    else Some ([], s)
  | [] => Some ([], s)
  end.

Definition exponent (s : jsstring) : option (Z * jsstring) :=
  match s with
  | c :: r =>
    if ((c =? ch "e") || (c =? ch "E"))%N then
      let '(eneg, r3) := sign r in
      match span_digits 10 r3 with
      | ([], _) => None
      | (es, r4) =>
        let v := digits_value 10 es in
        Some (if eneg then - v else v, r4)
      end
    else Some (0, s)
  | [] => Some (0, s)
  end.

Definition parse_number (s : jsstring) : option (number * jsstring) :=
  let '(negative, r0) := minus_sign s in
  let '(ip, r1) := span_digits 10 r0 in
  if negb (int_ok ip) then None
  else
    match fraction r1 with
    | None => None
    | Some (fp, r2) =>
      match exponent r2 with
      | None => None
      | Some (x, r4) =>
        let v := dec (digits_value 10 (ip ++ fp)) (x - Z.of_nat (length fp)) in
        Some (if negative then neg v else v, r4)
      end
    end.

(** CreateDataProperty on a property list: a repeated key keeps its place
    and takes the later value. *)
Fixpoint set_prop (l : list (jsstring * json)) (k : jsstring) (v : json)
  : list (jsstring * json) :=
  match l with
  | [] => [(k, v)]
  | (k', v') :: r =>
    if JSString.eqb k' k then (k', v) :: r else (k', v') :: set_prop r k v
  end.

Definition make_object (members : list (jsstring * json)) : json :=
  JObject (fold_left (fun o kv => set_prop o (fst kv) (snd kv)) members []).

(** Recursive descent; [fuel] bounds the number of values, elements and
    members visited, and the length of the text is always enough. *)
Fixpoint parse_value (fuel : nat) (s : jsstring) : option (json * jsstring) :=
  match fuel with
  | O => None
  | S f =>
    match skip_ws s with
    | [] => None
    | c :: r =>
      if (c =? ch "[")%N then
        match skip_ws r with
        | c' :: r' =>
          if (c' =? ch "]")%N then Some (JArray [], r')
          else match parse_elements f r with
               | Some (vs, rest) => Some (JArray vs, rest)
               | None => None
               end
        | [] => None
        end
      else if (c =? ch "{")%N then
        match skip_ws r with
        | c' :: r' =>
          if (c' =? ch "}")%N then Some (JObject [], r')
          else match parse_members f r with
               | Some (ms, rest) => Some (make_object ms, rest)
               | None => None
               end
        | [] => None
        end
      else if (c =? 34)%N then
        match parse_chars r with
        | Some (t, rest) => Some (JString t, rest)
        | None => None
        end
      else
        match strip_prefix (str "null") (c :: r) with
        | Some rest => Some (JNull, rest)
        | None =>
          match strip_prefix (str "true") (c :: r) with
          | Some rest => Some (JBool true, rest)
          | None =>
            match strip_prefix (str "false") (c :: r) with
            | Some rest => Some (JBool false, rest)
            | None =>
              match parse_number (c :: r) with
              | Some (n, rest) => Some (JNumber n, rest)
              | None => None
              end
            end
          end
        end
    end
  end
with parse_elements (fuel : nat) (s : jsstring) : option (list json * jsstring) :=
  match fuel with
  | O => None
  | S f =>
    match parse_value f s with
    | None => None
    | Some (v, r) =>
      match skip_ws r with
      | c :: r' =>
        if (c =? ch ",")%N then
          match parse_elements f r' with
          | Some (vs, rest) => Some (v :: vs, rest)
          | None => None
          end
        else if (c =? ch "]")%N then Some ([v], r')
        else None
      | [] => None
      end
    end
  end
with parse_members (fuel : nat) (s : jsstring)
  : option (list (jsstring * json) * jsstring) :=
  match fuel with
  | O => None
  | S f =>
    match skip_ws s with
    | q :: r0 =>
      if (q =? 34)%N then
        match parse_chars r0 with
        | None => None
        | Some (k, r1) =>
          match skip_ws r1 with
          | c :: r2 =>
            if (c =? ch ":")%N then
              match parse_value f r2 with
              | None => None
              | Some (v, r3) =>
                match skip_ws r3 with
                | c' :: r4 =>
                  if (c' =? ch ",")%N then
                    match parse_members f r4 with
                    | Some (ms, rest) => Some ((k, v) :: ms, rest)
                    | None => None
                    end
                  else if (c' =? ch "}")%N then Some ([(k, v)], r4)
                  else None
                | [] => None
                end
              end
            else None
          | [] => None
          end
        end
      else None
    | [] => None
    end
  end.

(** [JSON.parse(text)]; [None] is the SyntaxError it throws. *)
Definition parse (text : jsstring) : option json :=
  match parse_value (S (length text)) text with
  | Some (j, rest) => match skip_ws rest with [] => Some j | _ => None end
  | None => None
  end.

End JSON.
Export JSON.

(* ================================================================= *)
(** ** localStorage *)

#[global] Typeclasses Transparent char16 jsstring.

(** The blob store: string keys, string values, and the quota in code units
    beyond which [setItem] throws QuotaExceededError (a disabled store has
    quota 0). *)
Record Storage : Type := mkStorage {
  items : gmap jsstring jsstring;
  quota : N
}.

Definition usage (m : gmap jsstring jsstring) : N :=
  map_fold (fun k v n => (N.of_nat (length k) + N.of_nat (length v) + n)%N) 0%N m.

(** [localStorage.getItem(k)]; [None] is [null]. *)
Definition getItem (ls : Storage) (k : jsstring) : option jsstring :=
  items ls !! k.

(** [localStorage.setItem(k, v)]; [None] is the exception. *)
Definition setItem (ls : Storage) (k v : jsstring) : option Storage :=
  let m := <[k := v]> (items ls) in
  if (usage m <=? quota ls)%N then Some (mkStorage m (quota ls)) else None.

(* ================================================================= *)
(** ** Types and constants (App.tsx 8-37) *)

Inductive DanhMuc : Type := DienTu | QuanAo | DoAn | Sach | Khac.

#[global] Instance DanhMuc_eq_dec : EqDecision DanhMuc.
Proof. solve_decision. Defined.

(** The string that a category is at run time. *)
Definition label (c : DanhMuc) : jsstring :=
  match c with
  | DienTu => str "Điện tử"
  | QuanAo => str "Quần áo"
  | DoAn => str "Đồ ăn"
  | Sach => str "Sách"
  | Khac => str "Khác"
  end.

Definition CATEGORIES : list DanhMuc := [DienTu; QuanAo; DoAn; Sach; Khac].

Definition PAGE_SIZE : Z := 6.

Module Product.
Record t : Type := mk {
  id : Z;
  ten : jsstring;
  danhMuc : DanhMuc;
  gia : number;
  soLuong : number;
  moTa : jsstring
}.
End Product.
Abbreviation Product := Product.t.

(** [Omit<Product, "id">] *)
Module Draft.
Record t : Type := mk {
  ten : jsstring;
  danhMuc : DanhMuc;
  gia : number;
  soLuong : number;
  moTa : jsstring
}.
End Draft.
Abbreviation Draft := Draft.t.

Definition initialProducts : list Product :=
  [ Product.mk 1 (str "iPhone 15 Pro") DienTu (ofZ 25000000) (ofZ 10)
    (str "Flagship Apple, chip A17 Pro.");
    Product.mk 2 (str "Áo Thun Nam") QuanAo (ofZ 150000) (ofZ 50)
    (str "Cotton 100%, form regular fit.");
    Product.mk 3 (str "Bánh Mì Bơ Tỏi") DoAn (ofZ 35000) (ofZ 120)
    (str "Giòn thơm, làm mới mỗi ngày.");
    Product.mk 4 (str "Sách Dạy Nấu Ăn") Sach (ofZ 99000) (ofZ 40)
    (str "Tuyển tập công thức dễ làm.");
    Product.mk 5 (str "Tai Nghe Bluetooth") DienTu (ofZ 790000) (ofZ 35)
    (str "Bluetooth 5.3, chống ồn chủ động.");
    Product.mk 6 (str "Quần Jean Slim") QuanAo (ofZ 399000) (ofZ 28)
    (str "Denim co giãn, xanh đậm.");
    Product.mk 7 (str "Cơm Gà Xối Mỡ") DoAn (ofZ 45000) (ofZ 60)
    (str "Suất ăn nóng, gà giòn rụm.");
    Product.mk 8 (str "Sách Kinh Tế Học") Sach (ofZ 159000) (ofZ 22)
    (str "Nhập môn kinh tế (bản mới).");
    Product.mk 9 (str "Bình Giữ Nhiệt") Khac (ofZ 199000) (ofZ 45)
    (str "Giữ nóng/lạnh 6-8h, 500ml.");
    Product.mk 10 (str "Chuột Không Dây") DienTu (ofZ 259000) (ofZ 70)
    (str "2.4G + BT, DPI 800-1600-2400.");
    Product.mk 11 (str "Áo Khoác Hoodie") QuanAo (ofZ 499000) (ofZ 15)
    (str "Nỉ dày, có mũ, unisex.") ].

(* ================================================================= *)
(** ** Store: reducer and persistence (App.tsx 43-93) *)

Inductive Action : Type :=
| A_add (payload : Draft)
| A_update (payload : Product)
| A_delete (id : Z)
| A_hydrate (payload : list Product).

Record ProductState : Type := mkState {
  products : list Product;
  nextId : Z
}.

(** The JS object of a product, as [JSON.stringify] sees it. *)
Definition toJSON (p : Product) : json :=
  JObject [ (str "id", JNumber (ofZ (Product.id p)));
            (str "ten", JString (Product.ten p));
            (str "danhMuc", JString (label (Product.danhMuc p)));
            (str "gia", JNumber (Product.gia p));
            (str "soLuong", JNumber (Product.soLuong p));
            (str "moTa", JString (Product.moTa p)) ].

Definition LS_KEY : jsstring := str "product_app_state_v1".

(** [try { localStorage.setItem(LS_KEY, JSON.stringify(products)) } catch {}] *)
Definition persist (ls : Storage) (products : list Product) : Storage :=
  match setItem ls LS_KEY (stringify (JArray (List.map toJSON products))) with
  | Some ls' => ls'
  | None => ls
  end.

(** The value returned is whatever [JSON.parse] yields; [None] is [null]. *)
Definition loadFromStorage (ls : Storage) : option json :=
  match getItem ls LS_KEY with
  | None => None
  | Some raw => if truthy raw then parse raw else None
  end.

(** [{ id: state.nextId, ...action.payload }] *)
Definition withId (i : Z) (d : Draft) : Product :=
  Product.mk i (Draft.ten d) (Draft.danhMuc d) (Draft.gia d)
             (Draft.soLuong d) (Draft.moTa d).

Definition reducer (ls : Storage) (state : ProductState) (action : Action)
  : Storage * ProductState :=
  match action with
  | A_hydrate payload =>
    let maxId := fold_left (fun m p => Z.max m (Product.id p)) payload 0 in
    (ls, mkState payload (numberAdd maxId 1))
  | A_add payload =>
    let newProduct := withId (nextId state) payload in
    let products' := newProduct :: products state in
    (persist ls products', mkState products' (numberAdd (nextId state) 1))
  | A_update payload =>
    let products' :=
      List.map (fun p => if Product.id p =? Product.id payload then payload else p)
               (products state) in
    (persist ls products', mkState products' (nextId state))
  | A_delete id =>
    let products' :=
      List.filter (fun p => negb (Product.id p =? id)) (products state) in
    (persist ls products', mkState products' (nextId state))
  end.

(* ================================================================= *)
(** ** ProductProvider (App.tsx 106-122) *)

(** The cast [JSON.parse(raw) as Product[]] is unchecked in the source.
    [asProducts] reads a parsed value at that type; it is [None] on a value
    that is not an array of product objects, where the typed source has no
    meaning. *)
Fixpoint get (props : list (jsstring * json)) (k : jsstring) : option json :=
  match props with
  | [] => None
  | (k', v) :: r => if JSString.eqb k' k then Some v else get r k
  end.

Definition asString (j : option json) : option jsstring :=
  match j with Some (JString s) => Some s | _ => None end.

Definition asNumber (j : option json) : option number :=
  match j with Some (JNumber n) => Some n | _ => None end.

Definition asInteger (j : option json) : option Z :=
  match j with
  | Some (JNumber (Finite m e)) =>
    if 0 <=? e then Some (m * 10 ^ e)
    else if m mod 10 ^ (- e) =? 0 then Some (m / 10 ^ (- e)) else None
  | _ => None
  end.

Definition asDanhMuc (j : option json) : option DanhMuc :=
  match asString j with
  | Some s => List.find (fun c => JSString.eqb (label c) s) CATEGORIES
  | None => None
  end.

Definition asProduct (j : json) : option Product :=
  match j with
  | JObject props =>
    match asInteger (get props (str "id")), asString (get props (str "ten")),
          asDanhMuc (get props (str "danhMuc")), asNumber (get props (str "gia")),
          asNumber (get props (str "soLuong")), asString (get props (str "moTa")) with
    | Some i, Some t, Some c, Some g, Some n, Some d => Some (Product.mk i t c g n d)
    | _, _, _, _, _, _ => None
    end
  | _ => None
  end.

Fixpoint asProductList (l : list json) : option (list Product) :=
  match l with
  | [] => Some []
  | j :: r =>
    match asProduct j, asProductList r with
    | Some p, Some ps => Some (p :: ps)
    | _, _ => None
    end
  end.

Definition asProducts (j : json) : option (list Product) :=
  match j with
  | JArray l => asProductList l
  | _ => None
  end.

(** ToBoolean *)
Definition truthy_json (j : json) : bool :=
  match j with
  | JNull => false
  | JBool b => b
  | JNumber NaN => false
  | JNumber (Finite m _) => negb (m =? 0)
  | JNumber (Infinity _) => true
  | JString s => truthy s
  | JArray _ | JObject _ => true
  end.

(** ToBoolean of [v.length]. *)
Definition truthy_length (j : json) : bool :=
  match j with
  | JArray l => negb (length l =? 0)%nat
  | JString s => negb (length s =? 0)%nat
  | JObject props =>
    match get props (str "length") with Some x => truthy_json x | None => false end
  | _ => false
  end.

(** [fromLS && fromLS.length ? fromLS : initialProducts] *)
Definition hydratePayload (fromLS : option json) : option (list Product) :=
  match fromLS with
  | Some j =>
    if truthy_json j && truthy_length j then asProducts j
    else Some initialProducts
  | None => Some initialProducts
  end.

Definition initialState : ProductState := mkState [] 1.

(** The mount effect: load, choose, dispatch hydrate. *)
Definition mount (ls : Storage) : option (Storage * ProductState) :=
  match hydratePayload (loadFromStorage ls) with
  | Some payload => Some (reducer ls initialState (A_hydrate payload))
  | None => None
  end.

(* ================================================================= *)
(** ** Filter state, list projection and pagination (App.tsx 176-355) *)

Module FilterState.
Record t : Type := mk {
  q : jsstring;
  danhMuc : option DanhMuc;      (* [None] is the empty string *)
  min : jsstring;
  max : jsstring
}.
End FilterState.
Abbreviation FilterState := FilterState.t.

Section ListProjection.

(** [String.prototype.toLowerCase], the Unicode lower-casing of the host. *)
Variable toLowerCase : jsstring -> jsstring.

(** The four stages of the [filtered] memo, in source order. *)
Definition byText (f : FilterState) (lst : list Product) : list Product :=
  if truthy (trim (FilterState.q f)) then
    let q := toLowerCase (FilterState.q f) in
    List.filter (fun p => includes (toLowerCase (Product.ten p)) q) lst
  else lst.

Definition byDanhMuc (f : FilterState) (lst : list Product) : list Product :=
  match FilterState.danhMuc f with
  | Some c => List.filter (fun p => bool_decide (Product.danhMuc p = c)) lst
  | None => lst
  end.

(** [text ? Number(text) : undefined] *)
Definition bound (text : jsstring) : option number :=
  if truthy text then Some (Number text) else None.

Definition byMin (f : FilterState) (lst : list Product) : list Product :=
  match bound (FilterState.min f) with
  | Some min =>
    if negb (isNaN min) then List.filter (fun p => geb (Product.gia p) min) lst
    else lst
  | None => lst
  end.

Definition byMax (f : FilterState) (lst : list Product) : list Product :=
  match bound (FilterState.max f) with
  | Some max =>
    if negb (isNaN max) then List.filter (fun p => leb (Product.gia p) max) lst
    else lst
  | None => lst
  end.

Definition filtered (products : list Product) (f : FilterState) : list Product :=
  let lst := products in
  let lst := byText f lst in
  let lst := byDanhMuc f lst in
  let lst := byMin f lst in
  let lst := byMax f lst in
  lst.

(** The four stages as a list, and a pipeline of stages run in the order
    of a list. *)
Definition stages (f : FilterState) : list (list Product -> list Product) :=
  [byText f; byDanhMuc f; byMin f; byMax f].

Definition pipeline (sts : list (list Product -> list Product))
                    (products : list Product) : list Product :=
  fold_left (fun lst st => st lst) sts products.

End ListProjection.

(** [Array.prototype.slice(start, end)] *)
Definition slice {A} (l : list A) (start finish : Z) : list A :=
  let len := Z.of_nat (length l) in
  let k := if start <? 0 then Z.max (len + start) 0 else Z.min start len in
  let final := if finish <? 0 then Z.max (len + finish) 0 else Z.min finish len in
  take (Z.to_nat (final - k)) (drop (Z.to_nat k) l).

(** [Math.ceil(a / b)] for integers [a] and [b > 0]. *)
Definition ceil_div (a b : Z) : Z := - ((- a) / b).

(** Pagination: [totalPages] and the targets of Previous and Next. *)
Definition totalPages (total : Z) : Z := Z.max 1 (ceil_div total PAGE_SIZE).

Definition pages (total : Z) : list Z :=
  List.map (fun i => Z.of_nat i + 1) (seq 0 (Z.to_nat (totalPages total))).

Definition onPrevious (page : Z) : Z := Z.max 1 (page - 1).

Definition onNext (total page : Z) : Z := Z.min (totalPages total) (page + 1).

(** ProductListPage: the items of the current page. *)
Definition pageItems (filtered : list Product) (page : Z) : list Product :=
  let start := (page - 1) * PAGE_SIZE in
  slice filtered start (start + PAGE_SIZE).

(* ================================================================= *)
(** ** Product form (App.tsx 361-417) *)

Module FormValues.
Record t : Type := mk {
  ten : jsstring;
  danhMuc : option DanhMuc;      (* [None] is the empty string *)
  gia : jsstring;
  soLuong : jsstring;
  moTa : jsstring
}.
End FormValues.
Abbreviation FormValues := FormValues.t.

Inductive ProductFormProps : Type :=
| ModeAdd
| ModeEdit (initial : Product).

(** What [onSubmit] is called with. *)
Inductive Payload : Type :=
| NewProduct (p : Draft)
| FullProduct (p : Product).

(** [errors] is a JS object keyed by field name. *)
Definition validate (v : FormValues) : gmap jsstring jsstring :=
  let errors : gmap jsstring jsstring := ∅ in
  let errors :=
    if negb (truthy (trim (FormValues.ten v))) then
      <[str "ten" := str "Tên sản phẩm là bắt buộc"]> errors
    else if (length (trim (FormValues.ten v)) <? 3)%nat then
      <[str "ten" := str "Tên tối thiểu 3 ký tự"]> errors
    else errors in
  let errors :=
    match FormValues.danhMuc v with
    | None => <[str "danhMuc" := str "Vui lòng chọn danh mục"]> errors
    | Some _ => errors
    end in
  let gia := Number (FormValues.gia v) in
  let errors :=
    if negb (truthy (FormValues.gia v)) then
      <[str "gia" := str "Giá là bắt buộc"]> errors
    else if isNaN gia || leb gia (Finite 0 0) then
      <[str "gia" := str "Giá phải là số dương"]> errors
    else errors in
  let soLuong := Number (FormValues.soLuong v) in
  let errors :=
    if negb (truthy (FormValues.soLuong v)) then
      <[str "soLuong" := str "Số lượng là bắt buộc"]> errors
    else if negb (isInteger soLuong) || leb soLuong (Finite 0 0) then
      <[str "soLuong" := str "Số lượng phải là số nguyên dương"]> errors
    else errors in
  let errors :=
    if negb (truthy (trim (FormValues.moTa v))) then
      <[str "moTa" := str "Mô tả là bắt buộc"]> errors
    else errors in
  errors.

(** [{ ten: true, danhMuc: true, gia: true, soLuong: true, moTa: true }] *)
Definition allTouched : gmap jsstring bool :=
  <[str "ten" := true]> (<[str "danhMuc" := true]> (<[str "gia" := true]>
    (<[str "soLuong" := true]> (<[str "moTa" := true]> ∅)))).

(** The initial draft of a form. *)
Definition initialValues (props : ProductFormProps) : FormValues :=
  match props with
  | ModeEdit initial =>
    FormValues.mk (Product.ten initial) (Some (Product.danhMuc initial))
                  (numberToString (Product.gia initial))
                  (numberToString (Product.soLuong initial))
                  (Product.moTa initial)
  | ModeAdd => FormValues.mk [] None [] [] []
  end.

(** The submit handler: the new [touched] object and the payload handed to
    [onSubmit], if any. *)
Definition submit (props : ProductFormProps) (v : FormValues)
                  (touched : gmap jsstring bool)
  : gmap jsstring bool * option Payload :=
  let errs := validate v in
  if negb (size errs =? 0)%nat then (allTouched, None)
  else
    match FormValues.danhMuc v with
    | None => (touched, None)    (* excluded: [validate] reports it *)
    | Some c =>
      let d := Draft.mk (trim (FormValues.ten v)) c (Number (FormValues.gia v))
                        (Number (FormValues.soLuong v)) (trim (FormValues.moTa v)) in
      match props with
      | ModeAdd => (touched, Some (NewProduct d))
      | ModeEdit initial => (touched, Some (FullProduct (withId (Product.id initial) d)))
      end
    end.

(* ================================================================= *)
(** ** Vocabulary of the statements *)

(** The states after each action of a sequence of dispatches. *)
Fixpoint run (st : Storage * ProductState) (actions : list Action)
  : list (Storage * ProductState) :=
  match actions with
  | [] => []
  | a :: r => let st' := reducer (fst st) (snd st) a in st' :: run st' r
  end.

(** The identifiers that the [add] actions of a sequence hand out: for
    each add, the identifier of the product at the front of the list that
    the add leaves. *)
Fixpoint assigned (st : Storage * ProductState) (actions : list Action) : list Z :=
  match actions with
  | [] => []
  | a :: r =>
    let st' := reducer (fst st) (snd st) a in
    match a, products (snd st') with
    | A_add _, p :: _ => Product.id p :: assigned st' r
    | _, _ => assigned st' r
    end
  end.

Definition isHydrate (a : Action) : bool :=
  match a with A_hydrate _ => true | _ => false end.

Definition isAdd (a : Action) : bool :=
  match a with A_add _ => true | _ => false end.

(** The number of adds of a sequence. *)
Definition adds (actions : list Action) : nat := length (List.filter isAdd actions).

(** A product without its identifier. *)
Definition toDraft (p : Product) : Draft :=
  Draft.mk (Product.ten p) (Product.danhMuc p) (Product.gia p) (Product.soLuong p)
           (Product.moTa p).

(** A counter from which [+ 1] is exact. *)
Definition counts_exactly (n : Z) : Prop := - two53 <= n < two53.

Definition ids (l : list Product) : list Z := List.map Product.id l.

(** Every identifier of the list is below the counter. *)
Definition below_counter (s : ProductState) : Prop :=
  Forall (fun p => Product.id p < nextId s) (products s).

(** The store invariant of the data model. *)
Definition store_inv (s : ProductState) : Prop :=
  below_counter s /\ NoDup (ids (products s)).

(** [n] consecutive integers from [a]. *)
Definition consecutive (a : Z) (n : nat) : list Z :=
  List.map (fun k => a + Z.of_nat k) (seq 0 n).

(** The front element of each state of a trace. *)
Definition fronts (tr : list (Storage * ProductState)) : list (option Product) :=
  List.map (fun st => head (products (snd st))) tr.

(** A page request brought into [1, totalPages]. *)
Definition clamp (total requested : Z) : Z :=
  Z.max 1 (Z.min (totalPages total) requested).

(** The list page as a state machine: the length of the filtered list and
    the [page] state, moved by the events of ProductListPage. *)
Record ListPage : Type := mkListPage {
  total : Z;
  page : Z
}.

Inductive list_page_step (s : ListPage) : ListPage -> Prop :=
| click_page (p : Z) :                       (* a numbered button *)
    p ∈ pages (total s) -> list_page_step s (mkListPage (total s) p)
| click_previous :
    list_page_step s (mkListPage (total s) (onPrevious (page s)))
| click_next :
    list_page_step s (mkListPage (total s) (onNext (total s) (page s)))
| delete_shown :                             (* a product of the page shown *)
    (page s - 1) * PAGE_SIZE < total s ->
    list_page_step s (mkListPage (total s - 1) (page s))
| change_filter (total' : Z) :               (* the effect resets the page *)
    0 <= total' -> list_page_step s (mkListPage total' 1).

Definition list_page_inv (s : ListPage) : Prop :=
  0 <= total s /\ 1 <= page s <= totalPages (total s) + 1.

(** The largest identifier of a list, or 0 for the empty list. *)
Definition max_id (l : list Product) : Z :=
  match ids l with
  | [] => 0
  | i :: r => fold_left Z.max r i
  end.

(** A stage that keeps the elements satisfying a fixed test. *)
Definition is_filter (st : list Product -> list Product) : Prop :=
  exists keep, forall l, st l = List.filter keep l.

(** Lower-casing of the letters A-Z only; the sample inputs below are run
    with it in the place of the host's [toLowerCase]. *)
Definition lowerASCII (s : jsstring) : jsstring :=
  List.map (fun c => if ((65 <=? c) && (c <=? 90))%N then (c + 32)%N else c) s.

(** Sample inputs. *)
Definition sampleFilter : FilterState :=
  FilterState.mk (str "S") (Some Sach) (str "100000") (str "200000").

Definition sampleProduct (i : Z) : Product :=
  Product.mk i (str "Trà") DoAn (ofZ 9000) (ofZ 5) (str "Trà xanh").

Definition sampleDraft : Draft :=
  Draft.mk (str "Cà phê") DoAn (ofZ 15000) (ofZ 3) (str "Cà phê sữa").

Definition emptyStorage (quota : N) : Storage := mkStorage ∅ quota.

(** The validation rules of the form, as the data model words them. *)
Definition rule_name (v : FormValues) : Prop :=
  trim (FormValues.ten v) <> [] /\ (3 <= length (trim (FormValues.ten v)))%nat.

Definition rule_category (v : FormValues) : Prop :=
  exists c, FormValues.danhMuc v = Some c /\ c ∈ CATEGORIES.

Definition rule_price (v : FormValues) : Prop :=
  FormValues.gia v <> []
  /\ isNaN (Number (FormValues.gia v)) = false
  /\ ltb (Finite 0 0) (Number (FormValues.gia v)) = true.

Definition rule_quantity (v : FormValues) : Prop :=
  FormValues.soLuong v <> []
  /\ isInteger (Number (FormValues.soLuong v)) = true
  /\ ltb (Finite 0 0) (Number (FormValues.soLuong v)) = true.

Definition rule_description (v : FormValues) : Prop :=
  trim (FormValues.moTa v) <> [].

Definition rules_pass (v : FormValues) : Prop :=
  rule_name v /\ rule_category v /\ rule_price v /\ rule_quantity v
  /\ rule_description v.

(* ================================================================= *)
(** ** Vocabulary of the JSON round trip *)

Definition is_digit (d : Z) : Prop := 0 <= d < 10.

Definition chars (ds : list Z) : jsstring := List.map digit_char ds.

(** What may follow a value inside JSON text written by [stringify]. *)
Definition delimited (rest : jsstring) : Prop :=
  match rest with
  | [] => True
  | c :: _ => c = ch "," \/ c = ch "]" \/ c = ch "}"
  end.

Definition no_digit_ahead (rest : jsstring) : Prop :=
  match rest with
  | [] => True
  | c :: _ => digit 10 c = None
  end.

(** The text of a number token from its parts, and the number it denotes. *)
Definition number_text (negative : bool) (ip fp : list Z)
    (ex : option (bool * list Z)) : jsstring :=
  (if negative then [ch "-"] else []) ++ chars ip
  ++ (match fp with [] => [] | _ => ch "." :: chars fp end)
  ++ (match ex with
      | Some (eneg, es) => ch "e" :: (if eneg then ch "-" else ch "+") :: chars es
      | None => []
      end).

Definition number_value (negative : bool) (ip fp : list Z)
    (ex : option (bool * list Z)) : number :=
  let x := match ex with
           | Some (eneg, es) =>
             if eneg then - digits_value 10 es else digits_value 10 es
           | None => 0
           end in
  let v := dec (digits_value 10 (ip ++ fp)) (x - Z.of_nat (length fp)) in
  if negative then neg v else v.

Definition int_part_ok (ip : list Z) : Prop :=
  match ip with
  | [] => False
  | [_] => True
  | d :: _ => d <> 0
  end.

(** What [parse_chars] does with one more character in front. *)
Definition prepend (c : char16) (o : option (jsstring * jsstring))
  : option (jsstring * jsstring) :=
  match o with
  | Some (t, rest) => Some (c :: t, rest)
  | None => None
  end.

(** The number of values, elements and members of a JSON value: the fuel
    that [parse_value] needs for its text. *)
Fixpoint json_size (j : json) : nat :=
  match j with
  | JArray l => S (fold_right (fun x n => S (json_size x + n)) 0%nat l)
  | JObject l => S (fold_right (fun kv n => S (json_size (snd kv) + n)) 0%nat l)
  | _ => 1%nat
  end.

Definition elements_size (l : list json) : nat :=
  fold_right (fun x n => S (json_size x + n)) 0%nat l.

Definition members_size (l : list (jsstring * json)) : nat :=
  fold_right (fun kv n => S (json_size (snd kv) + n)) 0%nat l.

(** The values that [stringify] writes without loss: finite numbers in
    canonical form, and objects whose keys are pairwise distinct. *)
Fixpoint faithful (j : json) : Prop :=
  match j with
  | JNumber n => isFinite n = true /\ canonical n = true
  | JArray l => fold_right (fun x P => faithful x /\ P) True l
  | JObject l =>
    NoDup (List.map fst l) /\ fold_right (fun kv P => faithful (snd kv) /\ P) True l
  | _ => True
  end.

Definition all_faithful (l : list json) : Prop :=
  fold_right (fun x P => faithful x /\ P) True l.

Definition members_faithful (l : list (jsstring * json)) : Prop :=
  fold_right (fun kv P => faithful (snd kv) /\ P) True l.

Definition member_text (kv : jsstring * json) : jsstring :=
  quote (fst kv) ++ str ":" ++ stringify (snd kv).

(** The first character of the text of a value. *)
Definition value_start (c : char16) : Prop :=
  c = ch "n" \/ c = ch "t" \/ c = ch "f" \/ c = 34%N \/ c = ch "[" \/ c = ch "{"
  \/ c = ch "-" \/ (48 <= c <= 57)%N.

(** The values of the data model. *)
Definition positive_integer (x : number) : Prop :=
  canonical x = true /\ isInteger x = true /\ ltb (Finite 0 0) x = true.

Definition validProduct (p : Product) : Prop :=
  Product.ten p <> []
  /\ positive_integer (Product.gia p)
  /\ positive_integer (Product.soLuong p)
  /\ Product.moTa p <> [].

(* ================================================================= *)
(** ** The context value (App.tsx 114-119) *)

Module ProductContext.

Definition add (ls : Storage) (s : ProductState) (p : Draft) : Storage * ProductState :=
  reducer ls s (A_add p).

Definition update (ls : Storage) (s : ProductState) (p : Product)
  : Storage * ProductState :=
  reducer ls s (A_update p).

Definition remove (ls : Storage) (s : ProductState) (id : Z) : Storage * ProductState :=
  reducer ls s (A_delete id).

End ProductContext.

(* ================================================================= *)
(** ** The filter state in the URL (App.tsx 183-201) *)

(** [URLSearchParams]: the name-value pairs of a query string, in order. *)
Module URLSearchParams.

Definition t : Type := list (jsstring * jsstring).

(** [sp.get(name)]: the value of the first pair of that name; [None] is
    [null]. *)
Fixpoint get (sp : t) (name : jsstring) : option jsstring :=
  match sp with
  | [] => None
  | (k, v) :: r => if JSString.eqb k name then Some v else get r name
  end.

(** [sp.set(name, value)]: the first pair of that name takes the value and
    the later pairs of that name go; without such a pair, one is appended. *)
Fixpoint set (sp : t) (name value : jsstring) : t :=
  match sp with
  | [] => [(name, value)]
  | (k, v) :: r =>
    if JSString.eqb k name then
      (k, value) :: List.filter (fun kv => negb (JSString.eqb (fst kv) name)) r
    else (k, v) :: set r name value
  end.

End URLSearchParams.

(** The filter state as it is at run time: four strings.  The source casts
    the [danhMuc] parameter to ["" | DanhMuc] without a check, so the text
    may be any string. *)
Module FilterText.
Record t : Type := mk {
  q : jsstring;
  danhMuc : jsstring;
  min : jsstring;
  max : jsstring
}.
End FilterText.
Abbreviation FilterText := FilterText.t.

(** [Partial<FilterState>]: [None] is a key that the patch does not hold. *)
Module Patch.
Record t : Type := mk {
  q : option jsstring;
  danhMuc : option jsstring;
  min : option jsstring;
  max : option jsstring
}.
End Patch.
Abbreviation Patch := Patch.t.

(** [searchParams.get(name) ?? ""] *)
Definition param (searchParams : URLSearchParams.t) (name : jsstring) : jsstring :=
  default [] (URLSearchParams.get searchParams name).

(** useFilterParams: the [state] read from the parameters of the URL. *)
Definition useFilterParams_state (searchParams : URLSearchParams.t) : FilterText :=
  FilterText.mk (param searchParams (str "q")) (param searchParams (str "danhMuc"))
                (param searchParams (str "min")) (param searchParams (str "max")).

(** [{ ...state, ...patch }] *)
Definition spread (state : FilterText) (patch : Patch) : FilterText :=
  FilterText.mk (default (FilterText.q state) (Patch.q patch))
                (default (FilterText.danhMuc state) (Patch.danhMuc patch))
                (default (FilterText.min state) (Patch.min patch))
                (default (FilterText.max state) (Patch.max patch)).

(** useFilterParams: [set(patch)], as the parameters object that it builds
    and hands to [setSearchParams]. *)
Definition useFilterParams_set (state : FilterText) (patch : Patch) : URLSearchParams.t :=
  let next := spread state patch in
  let sp : URLSearchParams.t := [] in
  let sp := if truthy (FilterText.q next)
            then URLSearchParams.set sp (str "q") (FilterText.q next) else sp in
  let sp := if truthy (FilterText.danhMuc next)
            then URLSearchParams.set sp (str "danhMuc") (FilterText.danhMuc next) else sp in
  let sp := if truthy (FilterText.min next)
            then URLSearchParams.set sp (str "min") (FilterText.min next) else sp in
  let sp := if truthy (FilterText.max next)
            then URLSearchParams.set sp (str "max") (FilterText.max next) else sp in
  sp.

(** The texts of the URL at the declared type of the filter state; [None]
    when the category text is neither empty nor one of the five labels. *)
Definition asFilterState (f : FilterText) : option FilterState :=
  match FilterText.danhMuc f with
  | [] => Some (FilterState.mk (FilterText.q f) None (FilterText.min f) (FilterText.max f))
  | s =>
    match List.find (fun c => JSString.eqb (label c) s) CATEGORIES with
    | Some c =>
      Some (FilterState.mk (FilterText.q f) (Some c) (FilterText.min f) (FilterText.max f))
    | None => None
    end
  end.

(** The category stage of the [filtered] memo (App.tsx 309) on the text of
    the URL: [p.danhMuc === f.danhMuc] compares two strings. *)
Definition byDanhMucText (danhMuc : jsstring) (lst : list Product) : list Product :=
  if truthy danhMuc
  then List.filter (fun p => JSString.eqb (label (Product.danhMuc p)) danhMuc) lst
  else lst.

(* ================================================================= *)
(** ** What the list page renders (App.tsx 242-265, 297-355) *)

(** Pagination: the two arrow buttons with their [disabled] flag, and the
    numbered buttons with the flag of the highlighted one. *)
Record PaginationView : Type := mkPaginationView {
  previousDisabled : bool;
  numbered : list (Z * bool);
  nextDisabled : bool
}.

Definition Pagination (total page : Z) : PaginationView :=
  mkPaginationView (page =? 1)
                   (List.map (fun p => (p, p =? page)) (pages total))
                   (page =? totalPages total).

Inductive ListView : Type :=
| NoMatch                                        (* the card with the no-match text *)
| Grid (cards : list Product) (pager : PaginationView).

Definition ProductListPage (toLowerCase : jsstring -> jsstring)
    (products : list Product) (f : FilterState) (page : Z) : ListView :=
  let filtered := filtered toLowerCase products f in
  let total := Z.of_nat (length filtered) in
  if total =? 0 then NoMatch
  else Grid (pageItems filtered page) (Pagination total page).

(** [onDelete]: [confirm(...)] is the answer of the user. *)
Definition ProductListPage_onDelete (confirm : bool) (ls : Storage) (s : ProductState)
    (id : Z) : Storage * ProductState :=
  if confirm then ProductContext.remove ls s id else (ls, s).

(* ================================================================= *)
(** ** Add, edit and detail pages (App.tsx 285-287, 469-565) *)

(** [a === b] on two numbers: NaN equals nothing, not even itself. *)
Definition strictEquals (x y : number) : bool :=
  match compare x y with Some Eq => true | _ => false end.

(** [Number(id)] for the route parameter [id : string | undefined]. *)
Definition NumberOfParam (id : option jsstring) : number :=
  match id with
  | Some text => Number text
  | None => NaN
  end.

(** [products.find((p) => p.id === Number(id))] *)
Definition findByParam (products : list Product) (id : option jsstring) : option Product :=
  List.find (fun p => strictEquals (ofZ (Product.id p)) (NumberOfParam id)) products.

(** The paths that the buttons navigate to, [`/products/${p.id}`] and
    [`/edit/${p.id}`]. *)
Definition detailPath (id : Z) : jsstring := str "/products/" ++ numberToString (ofZ id).

Definition editPath (id : Z) : jsstring := str "/edit/" ++ numberToString (ofZ id).

Inductive EditView : Type :=
| EditNotFound (id : option jsstring)
| EditForm (props : ProductFormProps).

Definition EditPage (products : list Product) (id : option jsstring) : EditView :=
  match findByParam products id with
  | None => EditNotFound id
  | Some product => EditForm (ModeEdit product)
  end.

Inductive DetailView : Type :=
| DetailNotFound (id : option jsstring)
| Detail (p : Product).

Definition DetailPage (products : list Product) (id : option jsstring) : DetailView :=
  match findByParam products id with
  | None => DetailNotFound id
  | Some p => Detail p
  end.

(** The [onSubmit] of AddPage and of EditPage: the store after the
    dispatch, and the path navigated to. *)
Definition AddPage_onSubmit (ls : Storage) (s : ProductState) (p : Draft)
  : (Storage * ProductState) * jsstring :=
  (ProductContext.add ls s p, str "/").

Definition EditPage_onSubmit (ls : Storage) (s : ProductState) (p : Product)
  : (Storage * ProductState) * jsstring :=
  (ProductContext.update ls s p, detailPath (Product.id p)).

(** The [onDelete] of DetailPage; without the confirmation nothing
    happens. *)
Definition DetailPage_onDelete (confirm : bool) (ls : Storage) (s : ProductState)
    (p : Product) : (Storage * ProductState) * option jsstring :=
  if confirm then (ProductContext.remove ls s (Product.id p), Some (str "/"))
  else ((ls, s), None).

(* ================================================================= *)
(** ** What the form shows (App.tsx 401-421) *)

(** [touched[key] && errs[key] ? errs[key] : null] *)
Definition errMsg (touched : gmap jsstring bool) (errs : gmap jsstring jsstring)
    (key : jsstring) : option jsstring :=
  match touched !! key with
  | Some true =>
    match errs !! key with
    | Some message => if truthy message then Some message else None
    | None => None
    end
  | _ => None
  end.

(** [keyof FormValues]: the names that [errMsg] and [onBlur] are used
    with. *)
Definition fields : list jsstring :=
  [str "ten"; str "danhMuc"; str "gia"; str "soLuong"; str "moTa"].

(** [setTouched((t) => ({ ...t, [key]: true }))] *)
Definition onBlur (touched : gmap jsstring bool) (key : jsstring) : gmap jsstring bool :=
  <[key := true]> touched.

(* ================================================================= *)
(** ** Vocabulary of the statements about the form and the pages *)

(** A string without a white-space character. *)
Definition solid (s : jsstring) : Prop := Forall (fun c => isWhiteSpace c = false) s.

(** A string of decimal digits. *)
Definition digit_chars (cs : jsstring) : Prop := Forall (fun c => (48 <= c <= 57)%N) cs.

(** The first product of a list with a given identifier. *)
Definition findId (l : list Product) (i : Z) : option Product :=
  List.find (fun p => Product.id p =? i) l.

(** The filter state of a URL without a query. *)
Definition emptyFilter : FilterState := FilterState.mk [] None [] [].

(** The test that a product passes when the four criteria of a filter
    state let it through; an unset criterion lets every product through. *)
Definition passes (toLowerCase : jsstring -> jsstring) (f : FilterState) (p : Product)
  : bool :=
  (if truthy (trim (FilterState.q f))
   then includes (toLowerCase (Product.ten p)) (toLowerCase (FilterState.q f))
   else true)
  && match FilterState.danhMuc f with
     | Some c => bool_decide (Product.danhMuc p = c)
     | None => true
     end
  && match bound (FilterState.min f) with
     | Some m => if isNaN m then true else geb (Product.gia p) m
     | None => true
     end
  && match bound (FilterState.max f) with
     | Some m => if isNaN m then true else leb (Product.gia p) m
     | None => true
     end.

(** A product that [JSON.stringify] writes without loss: its price and
    its quantity are finite numbers in canonical form. *)
Definition storable (p : Product) : Prop :=
  isFinite (Product.gia p) = true /\ canonical (Product.gia p) = true
  /\ isFinite (Product.soLuong p) = true /\ canonical (Product.soLuong p) = true.

(* ================================================================= *)
(** * Properties *)

(** ** Sample evaluations of the built-ins *)

Example Number_trims_white_space : Number (str " 12.50 ") = Finite 125 (-1).
Proof. reflexivity. Qed.

Example Number_reads_exponent : Number (str "1e3") = Finite 1 3.
Proof. reflexivity. Qed.

Example Number_negative_infinity : Number (str "-Infinity") = Infinity true.
Proof. reflexivity. Qed.

Example Number_reads_hexadecimal : Number (str "0x1F") = Finite 31 0.
Proof. reflexivity. Qed.

Example Number_of_letters : Number (str "abc") = NaN.
Proof. reflexivity. Qed.

Example Number_of_empty_text : Number (str "") = Finite 0 0.
Proof. reflexivity. Qed.

Example Number_of_lone_point : Number (str ".") = NaN.
Proof. reflexivity. Qed.

Example Number_trailing_point : Number (str "5.") = Finite 5 0.
Proof. reflexivity. Qed.

Example Number_signed_hexadecimal : Number (str "-0x10") = NaN.
Proof. reflexivity. Qed.

Example Number_canonical_form : Number (str "50000") = Finite 5 4.
Proof. reflexivity. Qed.

Example Number_bare_exponent : Number (str "1e") = NaN.
Proof. reflexivity. Qed.

Example Number_of_non_ascii : Number (str "Đ") = NaN /\ str "Đ" = [272%N].
Proof. split; reflexivity. Qed.

Example stringify_parse_sample :
  let j := JArray [JObject [(str "a", JNumber (Finite 125 (-1)));
                            (str "b", JString (str "x\y"))]; JNull; JNumber (Finite (-1) 3)] in
  stringify j = str "[{" ++ [34%N] ++ str "a" ++ [34%N] ++ str ":12.5,"
                ++ [34%N] ++ str "b" ++ [34%N] ++ str ":" ++ [34%N] ++ str "x\\y" ++ [34%N]
                ++ str "},null,-1000]"
  /\ parse (stringify j) = Some j.
Proof. vm_compute. split; reflexivity. Qed.

Example validate_short_name_sample :
  validate (FormValues.mk (str "AB") (Some Sach) (str "50000") (str "10") (str "x"))
  !! str "ten" = Some (str "Tên tối thiểu 3 ký tự").
Proof. vm_compute. reflexivity. Qed.

(** ** The reducer *)

Lemma fold_max_ge (l : list Product) (m : Z) :
  m <= fold_left (fun m p => Z.max m (Product.id p)) l m.
Proof.
  revert m. induction l as [|p l IH]; intros m; simpl; [lia|].
  specialize (IH (Z.max m (Product.id p))). lia.
Qed.

Lemma fold_max_bound (l : list Product) (m : Z) :
  Forall (fun p => Product.id p <= fold_left (fun m p => Z.max m (Product.id p)) l m) l.
Proof.
  revert m. induction l as [|p l IH]; intros m; simpl; constructor.
  - pose proof (fold_max_ge l (Z.max m (Product.id p))). lia.
  - apply IH.
Qed.

Lemma fold_max_below (l : list Product) (m b : Z) :
  m < b -> Forall (fun p => Product.id p < b) l ->
  fold_left (fun m p => Z.max m (Product.id p)) l m < b.
Proof.
  intros Hm Hl. revert m Hm. induction Hl as [|p l Hp _ IH]; intros m Hm; simpl; [exact Hm|].
  apply IH. lia.
Qed.

Lemma ids_update (p : Product) (l : list Product) :
  ids (List.map (fun q => if Product.id q =? Product.id p then p else q) l) = ids l.
Proof.
  unfold ids. rewrite List.map_map. apply List.map_ext. intros q.
  destruct (Z.eqb_spec (Product.id q) (Product.id p)); congruence.
Qed.

Lemma ids_filter_sublist (f : Product -> bool) (l : list Product) :
  sublist (ids (List.filter f l)) (ids l).
Proof.
  induction l as [|q l IH]; simpl; [constructor|].
  destruct (f q); simpl; [by constructor | by apply sublist_cons].
Qed.

Lemma filter_sublist {A} (f : A -> bool) (l : list A) :
  sublist (List.filter f l) l.
Proof.
  induction l as [|q l IH]; simpl; [constructor|].
  destruct (f q); [by constructor | by apply sublist_cons].
Qed.

Lemma below_counter_ids (s : ProductState) :
  below_counter s <-> Forall (fun i => i < nextId s) (ids (products s)).
Proof. unfold below_counter, ids. by rewrite Forall_fmap. Qed.

Lemma consecutive_S (a : Z) (n : nat) :
  consecutive a (S n) = a :: consecutive (a + 1) n.
Proof.
  unfold consecutive. simpl. f_equal; [lia|].
  rewrite <- seq_shift, List.map_map. apply List.map_ext. intros k. lia.
Qed.

Lemma consecutive_ge (a : Z) (n : nat) : Forall (fun i => a <= i) (consecutive a n).
Proof.
  unfold consecutive. apply Forall_fmap, Forall_forall. intros k _. simpl. lia.
Qed.

Lemma consecutive_sorted (a : Z) (n : nat) : StronglySorted Z.lt (consecutive a n).
Proof.
  revert a. induction n as [|n IH]; intros a.
  - constructor.
  - rewrite consecutive_S. constructor; [apply IH|].
    eapply Forall_impl; [apply (consecutive_ge (a + 1) n)|]. simpl. intros; lia.
Qed.

Lemma sorted_lt_NoDup (l : list Z) : StronglySorted Z.lt l -> NoDup l.
Proof.
  induction 1 as [|a l Hs IH Hall]; constructor; [|assumption].
  intros Hin. rewrite Forall_forall in Hall. specialize (Hall a Hin). lia.
Qed.

(** ** The sum of an identifier and 1 *)

Lemma toBinary64_exact (z : Z) : - two53 <= z <= two53 -> toBinary64 z = z.
Proof.
  intros H. unfold toBinary64.
  destruct (Z.eq_dec (Z.abs z) two53) as [E|E].
  - assert (z = two53 \/ z = - two53) as [-> | ->] by lia; reflexivity.
  - assert (Hlog : Z.log2 (Z.abs z) < 53).
    { destruct (Z.eq_dec (Z.abs z) 0) as [E0|E0]; [by rewrite E0|].
      apply Z.log2_lt_pow2; [lia|]. change (2 ^ 53) with two53. lia. }
    cbv zeta. destruct (Z.leb_spec (Z.log2 (Z.abs z) - 52) 0); [reflexivity | lia].
Qed.

(** Up to 2^53 the sum with 1 is the exact sum. *)
Lemma numberAdd_exact (x : Z) : counts_exactly x -> numberAdd x 1 = x + 1.
Proof. unfold counts_exactly, numberAdd. intros H. apply toBinary64_exact. lia. Qed.

(** At 2^53 it is not: 2^53 + 1 is no JS number, and the sum is 2^53. *)
Lemma numberAdd_stuck : numberAdd two53 1 = two53.
Proof. reflexivity. Qed.

Example numberAdd_rounds :
  two53 = 2 ^ 53
  /\ numberAdd (two53 - 1) 1 = two53
  /\ numberAdd (two53 + 2) 1 = two53 + 4
  /\ numberAdd (- two53) 1 = - two53 + 1
  /\ toBinary64 (2 ^ 54 + 2) = 2 ^ 54
  /\ toBinary64 (2 ^ 54 + 6) = 2 ^ 54 + 8
  /\ toBinary64 (2 ^ 54 - 1) = 2 ^ 54.
Proof. vm_compute. repeat split. Qed.

Lemma toDraft_withId (i : Z) (d : Draft) : toDraft (withId i d) = d.
Proof. by destruct d. Qed.

(** ** Adds *)

Lemma adds_map_add (ds : list Draft) : adds (List.map A_add ds) = length ds.
Proof.
  unfold adds. induction ds as [|d ds IH]; [reflexivity|]. simpl. by rewrite IH.
Qed.

Lemma fronts_of_adds (ds : list Draft) :
  forall ls s,
  List.map (fmap toDraft) (fronts (run (ls, s) (List.map A_add ds))) = List.map Some ds
  /\ List.map (fmap Product.id) (fronts (run (ls, s) (List.map A_add ds)))
     = List.map Some (assigned (ls, s) (List.map A_add ds)).
Proof.
  induction ds as [|d ds IH]; intros ls s; [split; reflexivity|].
  destruct (IH (persist ls (withId (nextId s) d :: products s))
               (mkState (withId (nextId s) d :: products s) (numberAdd (nextId s) 1)))
    as [IH1 IH2].
  unfold fronts in *. cbn [List.map run assigned reducer fst snd products head].
  cbn [fmap option_fmap option_map]. rewrite toDraft_withId. split.
  - f_equal. exact IH1.
  - f_equal. exact IH2.
Qed.

Lemma assigned_of_adds (ds : list Draft) :
  forall ls s, - two53 <= nextId s -> nextId s + Z.of_nat (length ds) <= two53 ->
  assigned (ls, s) (List.map A_add ds) = consecutive (nextId s) (length ds).
Proof.
  induction ds as [|d ds IH]; intros ls s Hlo Hhi; [reflexivity|].
  cbn [length] in Hhi |- *. rewrite consecutive_S.
  cbn [List.map assigned reducer fst snd products withId Product.id]. f_equal.
  rewrite <- (numberAdd_exact (nextId s)) by (unfold counts_exactly; lia).
  apply (IH _ (mkState _ (numberAdd (nextId s) 1))); cbn [nextId];
    rewrite numberAdd_exact by (unfold counts_exactly; lia); lia.
Qed.

(** C2 (as amended).  After each add the front of the list is the product
    just added: it has the fields of the draft, and its identifier is the
    one handed out.  While the counter stays at most 2^53, where counting
    by one is exact, the identifiers handed out by a sequence of adds are
    [nextId, nextId + 1, ...]: strictly increasing, hence pairwise
    distinct. *)
Theorem add_ids_strictly_increasing (ls : Storage) (s : ProductState) (ds : list Draft) :
  List.map (fmap toDraft) (fronts (run (ls, s) (List.map A_add ds))) = List.map Some ds
  /\ List.map (fmap Product.id) (fronts (run (ls, s) (List.map A_add ds)))
     = List.map Some (assigned (ls, s) (List.map A_add ds))
  /\ (- two53 <= nextId s -> nextId s + Z.of_nat (length ds) <= two53 ->
      assigned (ls, s) (List.map A_add ds) = consecutive (nextId s) (length ds)
      /\ fronts (run (ls, s) (List.map A_add ds))
         = zip_with (fun i d => Some (withId i d)) (consecutive (nextId s) (length ds)) ds
      /\ StronglySorted Z.lt (assigned (ls, s) (List.map A_add ds))
      /\ NoDup (assigned (ls, s) (List.map A_add ds))).
Proof.
  destruct (fronts_of_adds ds ls s) as [H1 H2].
  split; [exact H1|]. split; [exact H2|]. intros Hlo Hhi.
  pose proof (assigned_of_adds ds ls s Hlo Hhi) as Ha. rewrite Ha.
  split; [reflexivity|]. split; [|split].
  - rewrite Ha in H2. clear Ha. revert H1 H2.
    generalize (fronts (run (ls, s) (List.map A_add ds))).
    generalize (consecutive (nextId s) (length ds)). clear.
    induction ds as [|d ds IH]; intros ks fs H1 H2.
    + destruct fs; [|discriminate]. by destruct ks.
    + destruct fs as [|[p|] fs]; try discriminate.
      destruct ks as [|i ks]; [discriminate|].
      cbn [List.map fmap option_fmap option_map] in H1, H2.
      injection H1 as Hd H1. injection H2 as Hi H2.
      cbn [zip_with]. f_equal; [|by apply IH].
      f_equal. subst. by destruct p.
  - apply consecutive_sorted.
  - apply sorted_lt_NoDup, consecutive_sorted.
Qed.

Lemma add_ids_strictly_increasing_witness :
  assigned (emptyStorage 0, mkState initialProducts 12)
           (List.map A_add [sampleDraft; sampleDraft; sampleDraft])
  = consecutive 12 3.
Proof.
  refine (proj1 (proj2 (proj2 (add_ids_strictly_increasing (emptyStorage 0)
            (mkState initialProducts 12) [sampleDraft; sampleDraft; sampleDraft])) _ _)).
  - vm_compute. discriminate.
  - vm_compute. discriminate.
Defined.

(** C2 as stated fails once the counter has reached 2^53, as it has after
    hydrating a list that holds the identifier 2^53 - 1: the sum 2^53 + 1
    is 2^53 again, and two adds hand out the same identifier. *)
Lemma add_repeats_identifier_at_2_53 :
  snd (reducer (emptyStorage 0) initialState (A_hydrate [sampleProduct (two53 - 1)]))
  = mkState [sampleProduct (two53 - 1)] two53
  /\ assigned (emptyStorage 0, mkState [sampleProduct (two53 - 1)] two53)
              (List.map A_add [sampleDraft; sampleDraft])
     = [two53; two53]
  /\ List.map (fmap Product.id)
       (fronts (run (emptyStorage 0, mkState [sampleProduct (two53 - 1)] two53)
                    (List.map A_add [sampleDraft; sampleDraft])))
     = [Some two53; Some two53]
  /\ ~ StronglySorted Z.lt
         (assigned (emptyStorage 0, mkState [sampleProduct (two53 - 1)] two53)
                   (List.map A_add [sampleDraft; sampleDraft]))
  /\ ~ NoDup (assigned (emptyStorage 0, mkState [sampleProduct (two53 - 1)] two53)
                       (List.map A_add [sampleDraft; sampleDraft])).
Proof.
  assert (E : assigned (emptyStorage 0, mkState [sampleProduct (two53 - 1)] two53)
                       (List.map A_add [sampleDraft; sampleDraft]) = [two53; two53])
    by reflexivity.
  split; [reflexivity|]. split; [exact E|]. split; [reflexivity|]. rewrite E. split.
  - intros H. apply StronglySorted_inv in H as [_ H]. apply Forall_inv in H. lia.
  - intros H. apply NoDup_cons in H as [H _]. apply H. constructor.
Qed.

(** ** The store invariant *)

Lemma hydrate_below_counter ls s (l : list Product) :
  Forall (fun p => Product.id p < two53) l ->
  below_counter (snd (reducer ls s (A_hydrate l))).
Proof.
  intros Hl. unfold below_counter. cbn [reducer snd products nextId].
  pose proof (fold_max_ge l 0) as Hge.
  pose proof (fold_max_below l 0 two53 eq_refl Hl) as Hlt.
  rewrite numberAdd_exact by (unfold counts_exactly, two53 in *; lia).
  eapply Forall_impl; [apply (fold_max_bound l 0)|]. simpl. intros; lia.
Qed.

Lemma add_store_inv ls s (d : Draft) :
  counts_exactly (nextId s) -> store_inv s -> store_inv (snd (reducer ls s (A_add d))).
Proof.
  intros Hn [Hb Hd]. apply below_counter_ids in Hb.
  unfold store_inv. rewrite below_counter_ids. cbn [reducer snd products nextId].
  rewrite numberAdd_exact by exact Hn. simpl. split.
  - constructor; [lia|]. eapply Forall_impl; [exact Hb|]. simpl; intros; lia.
  - constructor; [|exact Hd].
    intros Hin. rewrite Forall_forall in Hb. specialize (Hb _ Hin). lia.
Qed.

Lemma update_store_inv ls s (p : Product) :
  store_inv s -> store_inv (snd (reducer ls s (A_update p))).
Proof.
  intros [Hb Hd]. apply below_counter_ids in Hb.
  unfold store_inv. rewrite below_counter_ids. simpl. rewrite ids_update. auto.
Qed.

Lemma delete_store_inv ls s (i : Z) :
  store_inv s -> store_inv (snd (reducer ls s (A_delete i))).
Proof.
  intros [Hb Hd]. apply below_counter_ids in Hb.
  unfold store_inv. rewrite below_counter_ids. simpl. split.
  - rewrite Forall_forall in Hb |- *. intros x Hx. apply Hb.
    eapply elem_of_sublist; [exact Hx | apply ids_filter_sublist].
  - eapply sublist_NoDup; [exact Hd | apply ids_filter_sublist].
Qed.

Lemma step_store_inv ls s a :
  isHydrate a = false -> counts_exactly (nextId s) ->
  store_inv s -> store_inv (snd (reducer ls s a)).
Proof.
  intros Ha Hn Hs. destruct a as [d|p|i|l]; try discriminate.
  - by apply add_store_inv.
  - by apply update_store_inv.
  - by apply delete_store_inv.
Qed.

(** Along a sequence without hydrate whose adds keep the counter at most
    2^53, each step leaves the counter where it was or one higher. *)
Lemma assigned_ge (actions : list Action) :
  forall st, forallb (fun a => negb (isHydrate a)) actions = true ->
  - two53 <= nextId (snd st) ->
  nextId (snd st) + Z.of_nat (adds actions) <= two53 ->
  Forall (fun i => nextId (snd st) <= i) (assigned st actions).
Proof.
  induction actions as [|a r IH]; intros st H Hlo Hhi; [constructor|].
  simpl in H. apply andb_true_iff in H as [Ha Hr]. apply negb_true_iff in Ha.
  destruct a as [d|p|i|l]; try discriminate.
  - unfold adds in Hhi. cbn [List.filter isAdd length] in Hhi. fold (adds r) in Hhi.
    cbn [assigned reducer fst snd products withId Product.id].
    constructor; [lia|].
    eapply Forall_impl.
    + apply (IH (_, mkState _ (numberAdd (nextId (snd st)) 1)) Hr); cbn [snd nextId];
        rewrite numberAdd_exact by (unfold counts_exactly; lia); lia.
    + cbn [snd nextId]. rewrite numberAdd_exact by (unfold counts_exactly; lia).
      simpl. intros; lia.
  - change (assigned st (A_update p :: r))
      with (assigned (reducer (fst st) (snd st) (A_update p)) r).
    apply (IH (reducer (fst st) (snd st) (A_update p)) Hr); [exact Hlo | exact Hhi].
  - change (assigned st (A_delete i :: r))
      with (assigned (reducer (fst st) (snd st) (A_delete i)) r).
    apply (IH (reducer (fst st) (snd st) (A_delete i)) Hr); [exact Hlo | exact Hhi].
Qed.

Lemma assigned_sorted (actions : list Action) :
  forall st, forallb (fun a => negb (isHydrate a)) actions = true ->
  - two53 <= nextId (snd st) ->
  nextId (snd st) + Z.of_nat (adds actions) <= two53 ->
  StronglySorted Z.lt (assigned st actions).
Proof.
  induction actions as [|a r IH]; intros st H Hlo Hhi; [constructor|].
  simpl in H. apply andb_true_iff in H as [Ha Hr]. apply negb_true_iff in Ha.
  destruct a as [d|p|i|l]; try discriminate.
  - unfold adds in Hhi. cbn [List.filter isAdd length] in Hhi. fold (adds r) in Hhi.
    cbn [assigned reducer fst snd products withId Product.id].
    assert (E : numberAdd (nextId (snd st)) 1 = nextId (snd st) + 1)
      by (apply numberAdd_exact; unfold counts_exactly; lia).
    constructor.
    + apply (IH (_, mkState _ (numberAdd (nextId (snd st)) 1)) Hr); cbn [snd nextId];
        rewrite E; lia.
    + eapply Forall_impl.
      * apply (assigned_ge r (_, mkState _ (numberAdd (nextId (snd st)) 1)) Hr);
          cbn [snd nextId]; rewrite E; lia.
      * cbn [snd nextId]. rewrite E. simpl. intros; lia.
  - change (assigned st (A_update p :: r))
      with (assigned (reducer (fst st) (snd st) (A_update p)) r).
    apply (IH (reducer (fst st) (snd st) (A_update p)) Hr); [exact Hlo | exact Hhi].
  - change (assigned st (A_delete i :: r))
      with (assigned (reducer (fst st) (snd st) (A_delete i)) r).
    apply (IH (reducer (fst st) (snd st) (A_delete i)) Hr); [exact Hlo | exact Hhi].
Qed.

(** C3 (as amended).  After hydrating a list whose identifiers are below
    2^53, every identifier in it is below the counter; the identifiers are
    pairwise distinct after hydrate when they are in the hydrated list, as
    in the seed catalog.  update and remove preserve both, and so does add
    from a counter below 2^53, where counting by one is exact.  Over any
    sequence of add, update and remove that keeps the counter at most 2^53,
    the identifiers handed out are strictly increasing and at least the
    starting counter, so none is handed out twice, removed or not, and none
    is an identifier of the starting list. *)
Theorem store_invariant :
  (forall ls s l, Forall (fun p => Product.id p < two53) l ->
     below_counter (snd (reducer ls s (A_hydrate l))))
  /\ (forall ls s l, NoDup (ids l) -> Forall (fun p => Product.id p < two53) l ->
        store_inv (snd (reducer ls s (A_hydrate l))))
  /\ NoDup (ids initialProducts)
  /\ Forall (fun p => Product.id p < two53) initialProducts
  /\ (forall ls s p, store_inv s -> store_inv (snd (reducer ls s (A_update p))))
  /\ (forall ls s i, store_inv s -> store_inv (snd (reducer ls s (A_delete i))))
  /\ (forall ls s d, counts_exactly (nextId s) -> store_inv s ->
        store_inv (snd (reducer ls s (A_add d))))
  /\ (forall st actions, forallb (fun a => negb (isHydrate a)) actions = true ->
        - two53 <= nextId (snd st) ->
        nextId (snd st) + Z.of_nat (adds actions) <= two53 ->
        StronglySorted Z.lt (assigned st actions)
        /\ NoDup (assigned st actions)
        /\ Forall (fun i => nextId (snd st) <= i) (assigned st actions)
        /\ (below_counter (snd st) ->
            Forall (fun i => i ∉ ids (products (snd st))) (assigned st actions))).
Proof.
  split; [exact hydrate_below_counter|].
  split; [intros ls s l Hd Hl; split; [by apply hydrate_below_counter | exact Hd]|].
  split; [apply sorted_lt_NoDup; change (ids initialProducts) with (consecutive 1 11);
          apply consecutive_sorted|].
  split; [repeat constructor|].
  split; [exact update_store_inv|]. split; [exact delete_store_inv|].
  split; [exact add_store_inv|].
  intros st actions H Hlo Hhi. split; [|split; [|split]].
  - by apply assigned_sorted.
  - by apply sorted_lt_NoDup, assigned_sorted.
  - by apply assigned_ge.
  - intros Hb. apply below_counter_ids in Hb. rewrite Forall_forall in Hb.
    eapply Forall_impl; [by apply assigned_ge|]. simpl. intros i Hi Hin.
    specialize (Hb i Hin). lia.
Qed.

Lemma store_invariant_witness :
  store_inv (snd (reducer (emptyStorage 0) (mkState initialProducts 12) (A_delete 3)))
  /\ store_inv (snd (reducer (emptyStorage 0) (mkState initialProducts 12)
                             (A_add sampleDraft)))
  /\ StronglySorted Z.lt
       (assigned (emptyStorage 0, mkState initialProducts 12)
                 [A_add sampleDraft; A_delete 12; A_add sampleDraft]).
Proof.
  destruct store_invariant as (_ & Hh & Hseed & Hrange & _ & Hdel & Hadd & Hseq).
  assert (Hinv : store_inv (mkState initialProducts 12))
    by exact (Hh (emptyStorage 0) initialState initialProducts Hseed Hrange).
  split; [|split].
  - by apply Hdel.
  - apply Hadd; [vm_compute; split; [discriminate | reflexivity] | exact Hinv].
  - apply Hseq; [reflexivity | vm_compute; discriminate | vm_compute; discriminate].
Defined.

(** C3 as stated fails at hydrate, in two ways: a persisted list that
    holds one identifier twice is hydrated as it is; and after hydrating a
    list that holds the identifier 2^53 the counter is 2^53 too, not above
    it. *)
Lemma hydrate_breaks_invariant :
  ~ store_inv (snd (reducer (emptyStorage 0) initialState
                            (A_hydrate [sampleProduct 1; sampleProduct 1])))
  /\ ~ below_counter (snd (reducer (emptyStorage 0) initialState
                                   (A_hydrate [sampleProduct two53]))).
Proof.
  split.
  - intros [_ Hd]. cbn [reducer snd products] in Hd. unfold ids in Hd. simpl in Hd.
    apply NoDup_cons in Hd as [Hn _]. apply Hn. constructor.
  - intros Hb. unfold below_counter in Hb. apply Forall_inv in Hb.
    vm_compute in Hb. discriminate.
Qed.

(** ** Hydration *)

Lemma fold_left_max_init (r : list Z) (a b : Z) :
  fold_left Z.max r (Z.max a b) = Z.max a (fold_left Z.max r b).
Proof.
  revert a b. induction r as [|x r IH]; intros a b; simpl; [reflexivity|].
  rewrite <- IH. f_equal. lia.
Qed.

Lemma hydrate_counter (l : list Product) :
  fold_left (fun m p => Z.max m (Product.id p)) l 0 = Z.max 0 (max_id l).
Proof.
  unfold max_id, ids. destruct l as [|p l]; simpl; [reflexivity|].
  rewrite <- fold_left_max_init.
  generalize (Z.max 0 (Product.id p)). induction l as [|q l IH]; intros m; simpl;
    [reflexivity | apply IH].
Qed.

Lemma fold_left_max_upper (r : list Z) (i : Z) :
  i <= fold_left Z.max r i /\ Forall (fun x => x <= fold_left Z.max r i) r.
Proof.
  revert i. induction r as [|x r IH]; intros i; simpl; [split; [lia | constructor]|].
  destruct (IH (Z.max i x)) as [H1 H2]. split; [lia|].
  constructor; [lia | exact H2].
Qed.

Lemma max_id_nonneg (l : list Product) :
  Exists (fun p => 0 <= Product.id p) l -> 0 <= max_id l.
Proof.
  unfold max_id, ids. destruct l as [|p l]; simpl; [lia|].
  destruct (fold_left_max_upper (List.map Product.id l) (Product.id p)) as [H1 H2].
  intros H. apply Exists_cons in H as [H|H]; [lia|].
  apply Exists_exists in H as (q & Hq & Hq0).
  rewrite Forall_forall in H2.
  specialize (H2 (Product.id q) (list_elem_of_fmap_2 Product.id _ _ Hq)). lia.
Qed.

(** C5 (as amended).  Hydration replaces the whole list and sets the
    counter to max(0, largest identifier of the list) + 1, the sum being
    the sum of JS numbers: it is the integer sum while the largest
    identifier is below 2^53.  That is the largest identifier + 1 as soon
    as one identifier is not negative and 1 for the empty list.  At mount,
    the list hydrated is the loaded one when the load returns a non-empty
    product list, and the seed catalog of 11 products when the load returns
    null, an empty list, or any other value that is falsy or has a falsy
    length. *)
Theorem hydrate_counter_and_choice :
  (forall ls s l,
     reducer ls s (A_hydrate l) = (ls, mkState l (numberAdd (Z.max 0 (max_id l)) 1)))
  /\ (forall l, max_id l < two53 ->
        numberAdd (Z.max 0 (max_id l)) 1 = Z.max 0 (max_id l) + 1)
  /\ (forall ls s l, Exists (fun p => 0 <= Product.id p) l ->
        nextId (snd (reducer ls s (A_hydrate l))) = numberAdd (max_id l) 1)
  /\ (forall ls s l, Exists (fun p => 0 <= Product.id p) l -> max_id l < two53 ->
        nextId (snd (reducer ls s (A_hydrate l))) = max_id l + 1)
  /\ (forall ls s, nextId (snd (reducer ls s (A_hydrate []))) = 0 + 1)
  /\ (forall ls j p l, loadFromStorage ls = Some j -> asProducts j = Some (p :: l) ->
        mount ls = Some (reducer ls initialState (A_hydrate (p :: l))))
  /\ (forall ls j, loadFromStorage ls = Some j -> asProducts j = Some [] ->
        mount ls = Some (reducer ls initialState (A_hydrate initialProducts)))
  /\ (forall ls j, loadFromStorage ls = Some j ->
        truthy_json j && truthy_length j = false ->
        mount ls = Some (reducer ls initialState (A_hydrate initialProducts)))
  /\ (forall ls, loadFromStorage ls = None ->
        mount ls = Some (reducer ls initialState (A_hydrate initialProducts)))
  /\ length initialProducts = 11%nat.
Proof.
  assert (Hexact : forall l, max_id l < two53 ->
            numberAdd (Z.max 0 (max_id l)) 1 = Z.max 0 (max_id l) + 1).
  { intros l Hl. apply numberAdd_exact. unfold counts_exactly, two53 in *. lia. }
  split; [intros ls s l; cbn [reducer]; by rewrite hydrate_counter|].
  split; [exact Hexact|].
  split; [intros ls s l H; cbn [reducer snd nextId]; rewrite hydrate_counter;
          pose proof (max_id_nonneg l H); f_equal; lia|].
  split; [intros ls s l H Hl; cbn [reducer snd nextId]; rewrite hydrate_counter;
          pose proof (max_id_nonneg l H); rewrite (Hexact l Hl); lia|].
  split; [reflexivity|].
  split; [|split; [|split; [|split; [|reflexivity]]]].
  - intros ls j p l Hl Hj. unfold mount, hydratePayload. rewrite Hl.
    destruct j as [| | | |js|]; try discriminate. simpl in Hj.
    destruct js as [|j0 js]; [discriminate|]. simpl truthy_json. simpl truthy_length.
    simpl andb. cbv iota. unfold asProducts. by rewrite Hj.
  - intros ls j Hl Hj. unfold mount, hydratePayload. rewrite Hl.
    destruct j as [| | | |js|]; try discriminate. simpl in Hj.
    destruct js as [|j0 js]; [reflexivity|]. simpl in Hj.
    destruct (asProduct j0), (asProductList js); discriminate.
  - intros ls j Hl Hj. unfold mount, hydratePayload. by rewrite Hl, Hj.
  - intros ls Hl. unfold mount. by rewrite Hl.
Qed.

Lemma hydrate_counter_and_choice_witness :
  nextId (snd (reducer (emptyStorage 0) initialState (A_hydrate initialProducts)))
  = max_id initialProducts + 1
  /\ mount (emptyStorage 0)
     = Some (reducer (emptyStorage 0) initialState (A_hydrate initialProducts)).
Proof.
  destruct hydrate_counter_and_choice as (_ & _ & _ & Hmax & _ & _ & _ & _ & Hnone & _).
  split.
  - apply Hmax; [apply Exists_cons_hd; simpl; lia | reflexivity].
  - apply Hnone. reflexivity.
Defined.

(** C5 as stated fails on a list whose identifiers are all negative: the
    fold starts from 0, so the counter is 1 and not the largest
    identifier + 1. *)
Lemma hydrate_negative_identifiers :
  nextId (snd (reducer (emptyStorage 0) initialState (A_hydrate [sampleProduct (-5)]))) = 1
  /\ max_id [sampleProduct (-5)] + 1 = -4
  /\ nextId (snd (reducer (emptyStorage 0) initialState (A_hydrate [sampleProduct (-5)])))
     <> max_id [sampleProduct (-5)] + 1.
Proof. vm_compute. repeat split. discriminate. Qed.

(** ** update and remove *)

Lemma update_absent (p : Product) (l : list Product) :
  Product.id p ∉ ids l ->
  List.map (fun q => if Product.id q =? Product.id p then p else q) l = l.
Proof.
  induction l as [|q l IH]; intros H; simpl; [reflexivity|].
  unfold ids in H. simpl in H. apply not_elem_of_cons in H as [Hq Hl].
  destruct (Z.eqb_spec (Product.id q) (Product.id p)); [congruence|].
  f_equal. by apply IH.
Qed.

(** C8. An update whose identifier is not in the list returns the state it
    was given: the same list and the same counter; what it persists is that
    same list.  The reducer is a total function, so nothing is raised. *)
Theorem update_unknown_id_is_noop (ls : Storage) (s : ProductState) (p : Product) :
  Product.id p ∉ ids (products s) ->
  snd (reducer ls s (A_update p)) = s
  /\ products (snd (reducer ls s (A_update p))) = products s
  /\ fst (reducer ls s (A_update p)) = persist ls (products s).
Proof.
  intros H. simpl. rewrite (update_absent p (products s) H).
  by destruct s.
Qed.

Lemma update_unknown_id_is_noop_witness :
  snd (reducer (emptyStorage 0) (mkState initialProducts 12) (A_update (sampleProduct 99)))
  = mkState initialProducts 12.
Proof.
  apply (update_unknown_id_is_noop (emptyStorage 0) (mkState initialProducts 12)
                                   (sampleProduct 99)).
  apply (bool_decide_unpack _). vm_compute. exact I.
Defined.

(** C10. update and remove leave the counter alone.  update keeps the
    length of the list and every element with another identifier, at its
    index.  remove keeps exactly the elements with another identifier, in
    the order they had. *)
Theorem update_remove_frame (ls : Storage) (s : ProductState) :
  (forall p, nextId (snd (reducer ls s (A_update p))) = nextId s)
  /\ (forall i, nextId (snd (reducer ls s (A_delete i))) = nextId s)
  /\ (forall p, length (products (snd (reducer ls s (A_update p))))
               = length (products s))
  /\ (forall p (k : nat) (q : Product),
        products s !! k = Some q -> Product.id q <> Product.id p ->
        products (snd (reducer ls s (A_update p))) !! k = Some q)
  /\ (forall i, sublist (products (snd (reducer ls s (A_delete i)))) (products s))
  /\ (forall i q, q ∈ products (snd (reducer ls s (A_delete i)))
                  <-> q ∈ products s /\ Product.id q <> i).
Proof.
  repeat split.
  - intros p. simpl. apply length_map.
  - intros p k q Hk Hne. simpl.
    change (List.map ?f ?l) with (f <$> l). rewrite list_lookup_fmap, Hk. simpl.
    destruct (Z.eqb_spec (Product.id q) (Product.id p)); congruence.
  - intros i. simpl. apply filter_sublist.
  - simpl in H. apply list_elem_of_In, filter_In in H as [H _].
    by apply list_elem_of_In.
  - simpl in H. apply list_elem_of_In, filter_In in H as [_ H].
    apply negb_true_iff in H. by destruct (Z.eqb_spec (Product.id q) i).
  - intros [H1 H2]. simpl. apply list_elem_of_In, filter_In. split.
    + by apply list_elem_of_In.
    + apply negb_true_iff. by destruct (Z.eqb_spec (Product.id q) i).
Qed.

Lemma update_remove_frame_witness :
  products (snd (reducer (emptyStorage 0) (mkState initialProducts 12)
     (A_update (Product.mk 2 (str "Trà") DoAn (ofZ 9000) (ofZ 5) (str "Trà xanh")))))
  !! 0%nat
  = Some (Product.mk 1 (str "iPhone 15 Pro") DienTu (ofZ 25000000) (ofZ 10)
                     (str "Flagship Apple, chip A17 Pro.")).
Proof.
  destruct (update_remove_frame (emptyStorage 0) (mkState initialProducts 12))
    as (_ & _ & _ & H & _).
  apply H; [reflexivity | simpl; lia].
Defined.

(** ** The list projection *)

Lemma filter_true {A} (l : list A) : List.filter (fun _ => true) l = l.
Proof. induction l as [|x l IH]; simpl; congruence. Qed.

Lemma filter_comm {A} (f g : A -> bool) (l : list A) :
  List.filter f (List.filter g l) = List.filter g (List.filter f l).
Proof.
  induction l as [|x l IH]; simpl; [reflexivity|].
  destruct (f x) eqn:Hf, (g x) eqn:Hg; simpl; rewrite ?Hf, ?Hg, IH; reflexivity.
Qed.

Lemma is_filter_comm st1 st2 l :
  is_filter st1 -> is_filter st2 -> st1 (st2 l) = st2 (st1 l).
Proof.
  intros [f Hf] [g Hg]. rewrite !Hf, !Hg. apply filter_comm.
Qed.

Lemma pipeline_perm sts sts' :
  Permutation sts sts' -> Forall is_filter sts ->
  forall l, pipeline sts l = pipeline sts' l.
Proof.
  unfold pipeline.
  induction 1 as [|st sts sts' Hp IH|st1 st2 sts|sts1 sts2 sts3 H12 IH12 H23 IH23];
    intros Hall l; simpl.
  - reflexivity.
  - apply Forall_cons in Hall as [_ Hall]. by apply IH.
  - apply Forall_cons in Hall as [H2 Hall]. apply Forall_cons in Hall as [H1 _].
    by rewrite (is_filter_comm st1 st2 l).
  - rewrite IH12 by assumption. apply IH23.
    rewrite Forall_forall in Hall |- *. intros st Hst. apply Hall.
    apply list_elem_of_In. apply (Permutation_in st (Permutation_sym H12)).
    by apply list_elem_of_In.
Qed.

Lemma stages_are_filters toLowerCase f : Forall is_filter (stages toLowerCase f).
Proof.
  unfold stages. repeat constructor.
  - unfold byText. destruct (truthy _).
    + eexists. intros l. reflexivity.
    + exists (fun _ => true). intros l. by rewrite filter_true.
  - unfold byDanhMuc. destruct (FilterState.danhMuc f).
    + eexists. intros l. reflexivity.
    + exists (fun _ => true). intros l. by rewrite filter_true.
  - unfold byMin. destruct (bound _) as [m|]; [destruct (negb (isNaN m))|].
    + eexists. intros l. reflexivity.
    + exists (fun _ => true). intros l. by rewrite filter_true.
    + exists (fun _ => true). intros l. by rewrite filter_true.
  - unfold byMax. destruct (bound _) as [m|]; [destruct (negb (isNaN m))|].
    + eexists. intros l. reflexivity.
    + exists (fun _ => true). intros l. by rewrite filter_true.
    + exists (fun _ => true). intros l. by rewrite filter_true.
Qed.

(** C6. Run in any order, the four stages (text, category, minimum price,
    maximum price) give the list that [filtered] computes. *)
Theorem filters_commute (toLowerCase : jsstring -> jsstring) (f : FilterState)
    (products : list Product) (sts : list (list Product -> list Product)) :
  Permutation sts (stages toLowerCase f) ->
  pipeline sts products = filtered toLowerCase products f.
Proof.
  intros Hp. change (filtered toLowerCase products f)
    with (pipeline (stages toLowerCase f) products).
  apply pipeline_perm; [exact Hp|].
  rewrite Forall_forall. intros st Hst.
  pose proof (stages_are_filters toLowerCase f) as Hall.
  rewrite Forall_forall in Hall. apply Hall.
  apply list_elem_of_In. apply (Permutation_in st Hp). by apply list_elem_of_In.
Qed.

Lemma filters_commute_witness :
  pipeline [byDanhMuc sampleFilter; byText lowerASCII sampleFilter;
            byMax sampleFilter; byMin sampleFilter] initialProducts
  = filtered lowerASCII initialProducts sampleFilter.
Proof.
  apply filters_commute.
  eapply perm_trans; [apply perm_swap | do 2 apply perm_skip; apply perm_swap].
Defined.

Example filtered_sample :
  ids (filtered lowerASCII initialProducts sampleFilter) = [8].
Proof. vm_compute. reflexivity. Qed.

(** ** Pagination *)

Lemma ceil_div_spec (total : Z) :
  0 < total ->
  PAGE_SIZE * (ceil_div total PAGE_SIZE - 1) < total <= PAGE_SIZE * ceil_div total PAGE_SIZE.
Proof.
  unfold ceil_div, PAGE_SIZE. intros H.
  Z.to_euclidean_division_equations. lia.
Qed.

Lemma length_slice {A} (l : list A) (a b : Z) :
  0 <= a <= b ->
  length (slice l a b)
  = Z.to_nat (Z.min b (Z.of_nat (length l)) - Z.min a (Z.of_nat (length l))).
Proof.
  intros H. unfold slice.
  destruct (Z.ltb_spec a 0); [lia|]. destruct (Z.ltb_spec b 0); [lia|].
  rewrite length_take, length_drop. lia.
Qed.

Lemma slice_contiguous {A} (l : list A) (a b c : Z) :
  0 <= a <= b -> b <= c -> slice l a b ++ slice l b c = slice l a c.
Proof.
  intros H1 H2. unfold slice.
  destruct (Z.ltb_spec a 0); [lia|]. destruct (Z.ltb_spec b 0); [lia|].
  destruct (Z.ltb_spec c 0); [lia|].
  set (len := Z.of_nat (length l)).
  replace (Z.to_nat (Z.min c len - Z.min a len))
    with (Z.to_nat (Z.min b len - Z.min a len)
          + Z.to_nat (Z.min c len - Z.min b len))%nat by lia.
  rewrite <- take_take_drop, drop_drop. do 3 f_equal. lia.
Qed.

(** Every state that the list page reaches satisfies the bounds under
    which Previous and Next clamp. *)
Lemma list_page_step_inv (s s' : ListPage) :
  list_page_inv s -> list_page_step s s' -> list_page_inv s'.
Proof.
  unfold list_page_inv. intros [Ht Hp] Hstep.
  assert (H1 : 1 <= totalPages (total s)) by (unfold totalPages; lia).
  destruct Hstep as [p Hin| | |Hshown|total' Ht']; simpl.
  - split; [exact Ht|]. unfold pages in Hin.
    apply list_elem_of_In, in_map_iff in Hin as (k & <- & Hk).
    apply in_seq in Hk. lia.
  - unfold onPrevious. lia.
  - unfold onNext. lia.
  - split; [unfold PAGE_SIZE in Hshown; lia|].
    destruct (Z.eq_dec (total s) 1) as [E|E].
    + rewrite E in *. change (totalPages (1 - 1)) with 1.
      unfold PAGE_SIZE in Hshown. lia.
    + pose proof (ceil_div_spec (total s - 1)) as Hc.
      unfold totalPages, PAGE_SIZE in *. lia.
  - split; [exact Ht'|]. unfold totalPages. lia.
Qed.

(** C7. The page size is 6; the number of pages is the ceiling of
    count / 6 and never below 1.  For 13 items there are 3 pages of 6, 6
    and 1 items, which together are the list.  From a page between 0 and
    totalPages + 1, Previous and Next go to the requested page clamped to
    [1, totalPages]; Previous from page 1 stays at 1 and Next from page 3
    of 3 stays at 3. *)
Theorem pagination :
  PAGE_SIZE = 6
  /\ (forall total, 0 <= total ->
        1 <= totalPages total
        /\ (total = 0 -> totalPages total = 1)
        /\ (0 < total ->
            PAGE_SIZE * (totalPages total - 1) < total <= PAGE_SIZE * totalPages total))
  /\ totalPages 13 = 3
  /\ (forall filtered : list Product, length filtered = 13%nat ->
        length (pageItems filtered 1) = 6%nat
        /\ length (pageItems filtered 2) = 6%nat
        /\ length (pageItems filtered 3) = 1%nat
        /\ pageItems filtered 1 ++ pageItems filtered 2 ++ pageItems filtered 3 = filtered)
  /\ (forall total page, 0 <= total -> 0 <= page <= totalPages total + 1 ->
        onPrevious page = clamp total (page - 1)
        /\ onNext total page = clamp total (page + 1)
        /\ 1 <= onPrevious page <= totalPages total
        /\ 1 <= onNext total page <= totalPages total)
  /\ onPrevious 1 = 1
  /\ onNext 13 3 = 3.
Proof.
  split; [reflexivity|]. split; [|split; [reflexivity|split; [|split; [|split; reflexivity]]]].
  - intros total H. unfold totalPages. split; [lia|]. split.
    + intros ->. reflexivity.
    + intros Hpos. pose proof (ceil_div_spec total Hpos). unfold PAGE_SIZE in *. lia.
  - intros l Hlen. unfold pageItems, PAGE_SIZE.
    change ((1 - 1) * 6) with 0. change ((2 - 1) * 6) with 6.
    change ((3 - 1) * 6) with 12. change (0 + 6) with 6. change (6 + 6) with 12.
    change (12 + 6) with 18.
    rewrite !length_slice, Hlen by lia. repeat split.
    rewrite !slice_contiguous by lia.
    unfold slice. rewrite Hlen. simpl. rewrite drop_0.
    apply take_ge. lia.
  - intros total page Ht Hp. unfold onPrevious, onNext, clamp.
    assert (1 <= totalPages total) by (unfold totalPages; lia). lia.
Qed.

Lemma pagination_witness :
  length (pageItems (List.map sampleProduct (consecutive 1 13)) 3) = 1%nat
  /\ onNext 13 3 = clamp 13 (3 + 1)
  /\ 6 * (totalPages 13 - 1) < 13 <= 6 * totalPages 13.
Proof.
  destruct pagination as (_ & Htot & _ & Hpages & Hnav & _).
  split; [|split].
  - apply (Hpages (List.map sampleProduct (consecutive 1 13))). reflexivity.
  - apply (Hnav 13 3); [lia | vm_compute; split; discriminate].
  - apply (Htot 13); lia.
Defined.

(** ** The order of numbers *)

Lemma compare_antisym (x y : number) :
  compare y x = CompOpp <$> compare x y.
Proof.
  destruct x as [|a|m1 e1], y as [|b|m2 e2]; simpl; try reflexivity.
  - by destruct a, b.
  - by destruct a.
  - by destruct b.
  - unfold compare_finite. rewrite (Z.min_comm e2 e1). f_equal. apply Z.compare_antisym.
Qed.

Lemma compare_Some (x y : number) :
  isNaN x = false -> isNaN y = false -> exists c, compare x y = Some c.
Proof. destruct x, y; try discriminate; simpl; eauto. Qed.

Lemma ltb_irrefl (x : number) : ltb x x = false.
Proof.
  unfold ltb. destruct x as [|b|m e]; [reflexivity | by destruct b |].
  simpl. unfold compare_finite. by rewrite Z.compare_refl.
Qed.

Lemma geb_negb_ltb (x y : number) :
  isNaN x = false -> isNaN y = false -> geb x y = negb (ltb x y).
Proof.
  intros Hx Hy. destruct (compare_Some x y Hx Hy) as [c Hc].
  unfold geb, ltb. rewrite Hc. by destruct c.
Qed.

Lemma leb_negb_ltb (x y : number) :
  isNaN x = false -> isNaN y = false -> leb x y = negb (ltb y x).
Proof.
  intros Hx Hy. destruct (compare_Some x y Hx Hy) as [c Hc].
  unfold leb, ltb. rewrite (compare_antisym x y), Hc. by destruct c.
Qed.

(** ** The price bounds of the list projection *)

Lemma bound_active (text : jsstring) :
  text <> [] -> bound text = Some (Number text).
Proof. unfold bound. by destruct text. Qed.

(** C1 (as amended).  A bound is applied exactly when its text is not empty
    and [Number(text)] is not NaN, which includes Infinity and -Infinity.
    An applied minimum drops the products priced strictly below it and
    keeps a price equal to it; an applied maximum drops those priced
    strictly above it and keeps a price equal to it.  An empty or
    non-numeric text is no bound: every product is kept. *)
Theorem price_bounds (f : FilterState) (lst : list Product) :
  (FilterState.min f <> [] -> isNaN (Number (FilterState.min f)) = false ->
     byMin f lst
     = List.filter (fun p => geb (Product.gia p) (Number (FilterState.min f))) lst
     /\ (forall p, p ∈ lst -> isNaN (Product.gia p) = false ->
           (p ∈ byMin f lst <-> ltb (Product.gia p) (Number (FilterState.min f)) = false))
     /\ (forall p, p ∈ lst -> Product.gia p = Number (FilterState.min f) ->
           p ∈ byMin f lst))
  /\ (FilterState.min f = [] \/ isNaN (Number (FilterState.min f)) = true ->
        byMin f lst = lst)
  /\ (FilterState.max f <> [] -> isNaN (Number (FilterState.max f)) = false ->
        byMax f lst
        = List.filter (fun p => leb (Product.gia p) (Number (FilterState.max f))) lst
        /\ (forall p, p ∈ lst -> isNaN (Product.gia p) = false ->
              (p ∈ byMax f lst <-> ltb (Number (FilterState.max f)) (Product.gia p) = false))
        /\ (forall p, p ∈ lst -> Product.gia p = Number (FilterState.max f) ->
              p ∈ byMax f lst))
  /\ (FilterState.max f = [] \/ isNaN (Number (FilterState.max f)) = true ->
        byMax f lst = lst)
  /\ (forall text, isFinite (Number text) = true -> isNaN (Number text) = false)
  /\ isNaN (Number (str "Infinity")) = false
  /\ isNaN (Number (str "-Infinity")) = false.
Proof.
  split; [|split; [|split; [|split; [|split; [|split; reflexivity]]]]].
  - intros Hne Hnan.
    assert (E : byMin f lst
      = List.filter (fun p => geb (Product.gia p) (Number (FilterState.min f))) lst).
    { unfold byMin. by rewrite (bound_active _ Hne), Hnan. }
    split; [exact E|]. split.
    + intros p Hp Hg. rewrite E, list_elem_of_In, filter_In, <- list_elem_of_In.
      rewrite (geb_negb_ltb _ _ Hg Hnan), negb_true_iff. tauto.
    + intros p Hp Hg. rewrite E, list_elem_of_In, filter_In, <- list_elem_of_In.
      split; [exact Hp|]. rewrite Hg.
      rewrite (geb_negb_ltb _ _ Hnan Hnan), ltb_irrefl. reflexivity.
  - intros [He|Hnan]; unfold byMin.
    + by rewrite He.
    + unfold bound. destruct (truthy _); [by rewrite Hnan | reflexivity].
  - intros Hne Hnan.
    assert (E : byMax f lst
      = List.filter (fun p => leb (Product.gia p) (Number (FilterState.max f))) lst).
    { unfold byMax. by rewrite (bound_active _ Hne), Hnan. }
    split; [exact E|]. split.
    + intros p Hp Hg. rewrite E, list_elem_of_In, filter_In, <- list_elem_of_In.
      rewrite (leb_negb_ltb _ _ Hg Hnan), negb_true_iff. tauto.
    + intros p Hp Hg. rewrite E, list_elem_of_In, filter_In, <- list_elem_of_In.
      split; [exact Hp|]. rewrite Hg.
      rewrite (leb_negb_ltb _ _ Hnan Hnan), ltb_irrefl. reflexivity.
  - intros [He|Hnan]; unfold byMax.
    + by rewrite He.
    + unfold bound. destruct (truthy _); [by rewrite Hnan | reflexivity].
  - intros text. by destruct (Number text).
Qed.

Lemma price_bounds_witness :
  byMin sampleFilter initialProducts
  = List.filter (fun p => geb (Product.gia p) (Number (str "100000"))) initialProducts
  /\ byMax (FilterState.mk [] None [] (str "abc")) initialProducts = initialProducts.
Proof.
  split.
  - destruct (price_bounds sampleFilter initialProducts) as (H & _).
    apply H; [discriminate | reflexivity].
  - destruct (price_bounds (FilterState.mk [] None [] (str "abc")) initialProducts)
      as (_ & _ & _ & H & _).
    apply H. right. reflexivity.
Defined.

(** C1 as stated fails for the text Infinity: it does not parse to a
    finite number, yet the minimum is applied and drops every product. *)
Lemma infinite_bound_is_applied :
  isFinite (Number (str "Infinity")) = false
  /\ byMin (FilterState.mk [] None (str "Infinity") []) [sampleProduct 1] = []
  /\ byMin (FilterState.mk [] None [] []) [sampleProduct 1] = [sampleProduct 1]
  /\ filtered lowerASCII [sampleProduct 1] (FilterState.mk [] None (str "Infinity") []) = []
  /\ isFinite (Number (str "-Infinity")) = false
  /\ byMax (FilterState.mk [] None [] (str "-Infinity")) [sampleProduct 1] = [].
Proof. vm_compute. repeat split. Qed.

(** ** The product form *)

Lemma size_insert_nonzero (m : gmap jsstring jsstring) (k v : jsstring) :
  size (<[k := v]> m) <> 0%nat.
Proof.
  intros H. apply map_size_empty_iff in H. by apply insert_non_empty in H.
Qed.

Lemma stage_size (m : gmap jsstring jsstring) (c : bool) (k v : jsstring) :
  size (if c then <[k := v]> m else m) = 0%nat <-> c = false /\ size m = 0%nat.
Proof.
  destruct c; [|tauto]. split; [|intros [? _]; discriminate].
  intros H. by apply size_insert_nonzero in H.
Qed.

Lemma stage_size2 (m : gmap jsstring jsstring) (c1 c2 : bool) (k v k' v' : jsstring) :
  size (if c1 then <[k := v]> m else if c2 then <[k' := v']> m else m) = 0%nat
  <-> c1 = false /\ c2 = false /\ size m = 0%nat.
Proof.
  destruct c1; [|rewrite stage_size; tauto].
  split; [|intros [? _]; discriminate].
  intros H. by apply size_insert_nonzero in H.
Qed.

Lemma stage_size_opt {A : Type} (m : gmap jsstring jsstring) (o : option A) (k v : jsstring) :
  size (match o with None => <[k := v]> m | Some _ => m end) = 0%nat
  <-> is_Some o /\ size m = 0%nat.
Proof.
  destruct o; [split; [eauto | tauto]|].
  split; [|intros [[? ?] _]; discriminate].
  intros H. by apply size_insert_nonzero in H.
Qed.

Lemma truthy_iff (s : jsstring) : negb (truthy s) = false <-> s <> [].
Proof. destruct s; simpl; split; congruence. Qed.

Lemma positive_iff (x : number) :
  isNaN x || leb x (Finite 0 0) = false
  <-> isNaN x = false /\ ltb (Finite 0 0) x = true.
Proof.
  destruct (isNaN x) eqn:Hx; simpl; [split; [discriminate | intros []; discriminate]|].
  rewrite (leb_negb_ltb x (Finite 0 0) Hx eq_refl), negb_false_iff. tauto.
Qed.

Lemma isInteger_not_NaN (x : number) : isInteger x = true -> isNaN x = false.
Proof. by destruct x. Qed.

Lemma positive_integer_iff (x : number) :
  negb (isInteger x) || leb x (Finite 0 0) = false
  <-> isInteger x = true /\ ltb (Finite 0 0) x = true.
Proof.
  destruct (isInteger x) eqn:Hx; simpl; [|split; [discriminate | intros []; discriminate]].
  rewrite (leb_negb_ltb x (Finite 0 0) (isInteger_not_NaN x Hx) eq_refl), negb_false_iff.
  tauto.
Qed.

(** [validate] reports nothing exactly when the five rules pass. *)
Lemma validate_rules (v : FormValues) :
  size (validate v) = 0%nat <-> rules_pass v.
Proof.
  unfold validate. cbv zeta.
  rewrite stage_size, stage_size2, stage_size2, stage_size_opt, stage_size2.
  rewrite map_size_empty.
  rewrite !truthy_iff, positive_iff, positive_integer_iff, Nat.ltb_ge.
  unfold rules_pass, rule_name, rule_category, rule_price, rule_quantity,
    rule_description.
  split.
  - intros (H5 & H4a & H4b & H3a & H3b & [c Hc] & H1a & H1b & _).
    repeat split; try tauto.
    exists c. split; [exact Hc|]. apply list_elem_of_In. destruct c; simpl; tauto.
  - intros ((H1a & H1b) & (c & Hc & _) & (H3a & H3b) & (H4a & H4b) & H5).
    repeat split; try tauto. rewrite Hc. eauto.
Qed.

Lemma submit_blocked (props : ProductFormProps) (v : FormValues)
    (touched : gmap jsstring bool) :
  size (validate v) <> 0%nat -> submit props v touched = (allTouched, None).
Proof.
  intros H. unfold submit. destruct (Nat.eqb_spec (size (validate v)) 0); [done|].
  reflexivity.
Qed.

Lemma submit_emits (props : ProductFormProps) (v : FormValues)
    (touched : gmap jsstring bool) :
  rules_pass v ->
  exists c, FormValues.danhMuc v = Some c
    /\ submit props v touched
       = (touched,
          Some (let d := Draft.mk (trim (FormValues.ten v)) c
                                  (Number (FormValues.gia v))
                                  (Number (FormValues.soLuong v))
                                  (trim (FormValues.moTa v)) in
                match props with
                | ModeAdd => NewProduct d
                | ModeEdit initial => FullProduct (withId (Product.id initial) d)
                end)).
Proof.
  intros H. pose proof H as (_ & (c & Hc & _) & _).
  apply validate_rules in H. exists c. split; [exact Hc|].
  unfold submit. rewrite H, Hc. simpl. by destruct props.
Qed.

Lemma lookup_stage (m : gmap jsstring jsstring) (c : bool) (k v k0 : jsstring) :
  k <> k0 -> (if c then <[k := v]> m else m) !! k0 = m !! k0.
Proof. intros H. destruct c; [by rewrite lookup_insert_ne | reflexivity]. Qed.

Lemma lookup_stage2 (m : gmap jsstring jsstring) (c1 c2 : bool)
    (k v v' k0 : jsstring) :
  k <> k0 ->
  (if c1 then <[k := v]> m else if c2 then <[k := v']> m else m) !! k0 = m !! k0.
Proof.
  intros H. destruct c1; [by rewrite lookup_insert_ne|].
  destruct c2; [by rewrite lookup_insert_ne | reflexivity].
Qed.

Lemma lookup_stage_opt {A : Type} (m : gmap jsstring jsstring) (o : option A)
    (k v k0 : jsstring) :
  k <> k0 -> (match o with None => <[k := v]> m | Some _ => m end) !! k0 = m !! k0.
Proof. intros H. destruct o; [reflexivity | by rewrite lookup_insert_ne]. Qed.

Lemma validate_short_name (v : FormValues) :
  FormValues.ten v = str "AB" ->
  validate v !! str "ten" = Some (str "Tên tối thiểu 3 ký tự").
Proof.
  intros H. unfold validate. cbv zeta. rewrite H.
  rewrite lookup_stage by (intros E; vm_compute in E; discriminate).
  rewrite lookup_stage2 by (intros E; vm_compute in E; discriminate).
  rewrite lookup_stage2 by (intros E; vm_compute in E; discriminate).
  rewrite lookup_stage_opt by (intros E; vm_compute in E; discriminate).
  change (trim (str "AB")) with (str "AB"). simpl negb. simpl Nat.ltb. cbv iota.
  apply lookup_insert_eq.
Qed.

(** C9. Submitting hands a payload to the caller exactly when the five
    rules pass.  When a rule fails, the handler marks the five fields
    touched and hands nothing over.  A name of AB has trimmed length 2: the
    name field gets its minimum-length message and nothing is handed
    over. *)
Theorem submit_emits_iff_valid (props : ProductFormProps) (v : FormValues)
    (touched : gmap jsstring bool) :
  (rules_pass v <-> size (validate v) = 0%nat)
  /\ (~ rules_pass v -> submit props v touched = (allTouched, None))
  /\ ((exists payload, snd (submit props v touched) = Some payload) <-> rules_pass v)
  /\ (rules_pass v -> fst (submit props v touched) = touched)
  /\ (forall k, k ∈ [str "ten"; str "danhMuc"; str "gia"; str "soLuong"; str "moTa"] ->
        allTouched !! k = Some true)
  /\ (FormValues.ten v = str "AB" ->
        length (trim (FormValues.ten v)) = 2%nat
        /\ ~ rule_name v
        /\ validate v !! str "ten" = Some (str "Tên tối thiểu 3 ký tự")
        /\ submit props v touched = (allTouched, None)).
Proof.
  split; [symmetry; apply validate_rules|].
  split; [intros H; apply submit_blocked; by rewrite validate_rules|].
  split; [split|].
  - intros [payload Hp]. apply validate_rules.
    destruct (Nat.eq_dec (size (validate v)) 0%nat) as [E|E]; [exact E|].
    rewrite (submit_blocked props v touched E) in Hp. discriminate.
  - intros H. destruct (submit_emits props v touched H) as (c & _ & E).
    rewrite E. eauto.
  - split; [intros H; destruct (submit_emits props v touched H) as (c & _ & E);
            by rewrite E|].
    split.
    + intros k Hk. repeat (apply elem_of_cons in Hk as [->|Hk]; [reflexivity|]).
      by apply elem_of_nil in Hk.
    + intros H.
      assert (Hlen : length (trim (FormValues.ten v)) = 2%nat) by (by rewrite H).
      assert (Hrule : ~ rule_name v) by (unfold rule_name; lia).
      split; [exact Hlen|]. split; [exact Hrule|].
      split; [by apply validate_short_name|].
      apply submit_blocked. rewrite validate_rules. unfold rules_pass. tauto.
Qed.

Lemma submit_emits_iff_valid_witness :
  submit ModeAdd (FormValues.mk (str "AB") (Some Sach) (str "50000") (str "10") (str "x")) ∅
  = (allTouched, None)
  /\ fst (submit ModeAdd
            (FormValues.mk (str " Trà ") (Some DoAn) (str "50000") (str "10") (str "x")) ∅)
     = ∅.
Proof.
  split.
  - destruct (submit_emits_iff_valid ModeAdd
      (FormValues.mk (str "AB") (Some Sach) (str "50000") (str "10") (str "x")) ∅)
      as (_ & _ & _ & _ & _ & H).
    apply H. reflexivity.
  - destruct (submit_emits_iff_valid ModeAdd
      (FormValues.mk (str " Trà ") (Some DoAn) (str "50000") (str "10") (str "x")) ∅)
      as (_ & _ & _ & H & _).
    apply H. unfold rules_pass, rule_name, rule_category, rule_price, rule_quantity,
      rule_description. simpl.
    repeat split; try discriminate; try (vm_compute; lia).
    exists DoAn. split; [reflexivity|]. apply list_elem_of_In. simpl. tauto.
Defined.

Example submit_coerces :
  snd (submit ModeAdd
         (FormValues.mk (str " Trà ") (Some DoAn) (str "50000") (str "10") (str "x")) ∅)
  = Some (NewProduct (Draft.mk (str "Trà") DoAn (ofZ 50000) (ofZ 10) (str "x"))).
Proof. vm_compute. reflexivity. Qed.

(* ================================================================= *)
(** * JSON text: what is written is read back *)

#[local] Arguments digit : simpl never.
#[local] Arguments digit_char : simpl never.

(** Boolean tests of the context, as the propositions they decide. *)
Ltac reflect_tests :=
  repeat match goal with
         | H : _ && _ = true |- _ => apply andb_true_iff in H as [? ?]
         | H : _ || _ = false |- _ => apply orb_false_iff in H as [? ?]
         | H : (_ <=? _) = true |- _ => apply Z.leb_le in H
         | H : (_ <=? _) = false |- _ => apply Z.leb_gt in H
         | H : (_ <? _) = true |- _ => apply Z.ltb_lt in H
         | H : (_ <? _) = false |- _ => apply Z.ltb_ge in H
         | H : (_ <=? _)%N = true |- _ => apply N.leb_le in H
         | H : (_ <=? _)%N = false |- _ => apply N.leb_gt in H
         | H : (_ <? _)%N = true |- _ => apply N.ltb_lt in H
         | H : (_ <? _)%N = false |- _ => apply N.ltb_ge in H
         | H : (_ =? _)%N = true |- _ => apply N.eqb_eq in H
         | H : (_ =? _)%N = false |- _ => apply N.eqb_neq in H
         end.

(** ** Decimal digits *)

Lemma digits_value_from (ds : list Z) (a : Z) :
  fold_left (fun a d => a * 10 + d) ds a
  = a * 10 ^ Z.of_nat (length ds) + digits_value 10 ds.
Proof.
  unfold digits_value. revert a. induction ds as [|d ds IH]; intros a.
  - simpl. lia.
  - cbn [fold_left length]. rewrite IH, (IH (0 * 10 + d)).
    rewrite Nat2Z.inj_succ, Z.pow_succ_r by lia. lia.
Qed.

Lemma digits_value_app (ds1 ds2 : list Z) :
  digits_value 10 (ds1 ++ ds2)
  = digits_value 10 ds1 * 10 ^ Z.of_nat (length ds2) + digits_value 10 ds2.
Proof.
  unfold digits_value at 1. rewrite fold_left_app.
  by rewrite digits_value_from.
Qed.

Lemma digits_value_zeros (j : nat) : digits_value 10 (replicate j 0) = 0.
Proof.
  induction j as [|j IH]; [reflexivity|].
  change (replicate (S j) 0) with ([0] ++ replicate j 0).
  rewrite digits_value_app, IH. reflexivity.
Qed.

Lemma digits_of_spec (fuel : nat) :
  forall n acc, 0 <= n < 2 ^ (Z.of_nat fuel + 1) ->
  exists ds, digits_of fuel n acc = ds ++ acc
    /\ Forall is_digit ds /\ ds <> []
    /\ digits_value 10 ds = n
    /\ (0 < n -> exists d r, ds = d :: r /\ 0 < d).
Proof.
  induction fuel as [|f IH]; intros n acc Hn.
  - change (2 ^ (Z.of_nat 0 + 1)) with 2 in Hn.
    exists [n]. simpl. split; [done|]. split; [|split; [done|split]].
    + apply Forall_singleton. unfold is_digit. lia.
    + unfold digits_value. simpl. lia.
    + intros; exists n, []. split; [done | lia].
  - simpl. destruct (Z.ltb_spec n 10) as [Hlt|Hge].
    + exists [n]. split; [done|]. split; [|split; [done|split]].
      * apply Forall_singleton. unfold is_digit. lia.
      * unfold digits_value. simpl. lia.
      * intros; exists n, []. split; [done | lia].
    + destruct (IH (n / 10) (n mod 10 :: acc)) as (ds & E & Hd & Hne & Hv & Hh).
      { rewrite Nat2Z.inj_succ in Hn.
        replace (Z.succ (Z.of_nat f) + 1) with (Z.succ (Z.of_nat f + 1)) in Hn by lia.
        rewrite Z.pow_succ_r in Hn by lia.
        Z.to_euclidean_division_equations. lia. }
      exists (ds ++ [n mod 10]). rewrite E, <- app_assoc.
      split; [done|]. split; [|split; [|split]].
      * apply Forall_app. split; [exact Hd|]. apply Forall_singleton.
        unfold is_digit. Z.to_euclidean_division_equations. lia.
      * by destruct ds.
      * rewrite digits_value_app, Hv. unfold digits_value. simpl.
        Z.to_euclidean_division_equations. lia.
      * intros _. destruct Hh as (d & r & -> & Hd0).
        { Z.to_euclidean_division_equations. lia. }
        exists d, (r ++ [n mod 10]). split; [reflexivity | exact Hd0].
Qed.

Lemma to_digits_spec (n : Z) :
  0 <= n ->
  Forall is_digit (to_digits n) /\ to_digits n <> []
  /\ digits_value 10 (to_digits n) = n
  /\ (0 < n -> exists d r, to_digits n = d :: r /\ 0 < d).
Proof.
  intros Hn. unfold to_digits.
  destruct (digits_of_spec (Z.to_nat (Z.log2 n)) n []) as (ds & E & H).
  { split; [exact Hn|]. rewrite Z2Nat.id by apply Z.log2_nonneg.
    destruct (Z.eq_dec n 0) as [->|Hz]; [reflexivity|].
    apply Z.log2_spec. lia. }
  rewrite E, app_nil_r. exact H.
Qed.

Lemma is_digit_cases (d : Z) :
  is_digit d ->
  d = 0 \/ d = 1 \/ d = 2 \/ d = 3 \/ d = 4 \/ d = 5 \/ d = 6 \/ d = 7 \/ d = 8 \/ d = 9.
Proof. unfold is_digit. lia. Qed.

Lemma digit_digit_char (d : Z) : is_digit d -> digit 10 (digit_char d) = Some d.
Proof.
  intros H. apply is_digit_cases in H.
  repeat (destruct H as [->|H]; [reflexivity|]). by subst.
Qed.

Lemma digit_char_range (d : Z) : is_digit d -> (48 <= digit_char d <= 57)%N.
Proof.
  intros H. apply is_digit_cases in H.
  repeat (destruct H as [->|H]; [vm_compute; split; discriminate|]).
  subst. vm_compute; split; discriminate.
Qed.

Lemma delimited_no_digit (rest : jsstring) : delimited rest -> no_digit_ahead rest.
Proof.
  destruct rest as [|c r]; [done|]. simpl. intros [->|[->| ->]]; reflexivity.
Qed.

Lemma span_digits_chars (ds : list Z) (rest : jsstring) :
  Forall is_digit ds -> no_digit_ahead rest ->
  span_digits 10 (chars ds ++ rest) = (ds, rest).
Proof.
  intros Hd Hr. induction Hd as [|d ds Hd _ IH]; simpl.
  - destruct rest as [|c r]; [reflexivity|]. simpl in Hr |- *. by rewrite Hr.
  - rewrite (digit_digit_char d Hd). fold (chars ds). by rewrite IH.
Qed.

(** ** Canonical decimals *)

Lemma strip10_spec (fuel : nat) :
  forall m e, m <> 0 -> Z.abs m < 2 ^ (Z.of_nat fuel + 1) ->
  exists m' j, strip10 fuel m e = (m', e + j)
    /\ 0 <= j /\ m' mod 10 <> 0 /\ m = m' * 10 ^ j.
Proof.
  induction fuel as [|f IH]; intros m e Hm Hb.
  - change (2 ^ (Z.of_nat 0 + 1)) with 2 in Hb.
    exists m, 0. simpl. rewrite Z.add_0_r. split; [done|]. split; [lia|].
    split; [|lia]. assert (m = 1 \/ m = -1) as [-> | ->] by lia; done.
  - simpl. destruct (Z.eqb_spec (m mod 10) 0) as [E|E].
    + destruct (IH (m / 10) (e + 1)) as (m' & j & Hs & Hj & Hm' & Hv).
      { Z.to_euclidean_division_equations. lia. }
      { rewrite Nat2Z.inj_succ in Hb.
        replace (Z.succ (Z.of_nat f) + 1) with (Z.succ (Z.of_nat f + 1)) in Hb by lia.
        rewrite Z.pow_succ_r in Hb by lia.
        Z.to_euclidean_division_equations. lia. }
      exists m', (j + 1). rewrite Hs. split; [f_equal; lia|]. split; [lia|].
      split; [exact Hm'|]. rewrite Z.pow_add_r by lia.
      change (10 ^ 1) with 10. rewrite Z.mul_assoc, <- Hv.
      Z.to_euclidean_division_equations. lia.
    + exists m, 0. rewrite Z.add_0_r. split; [done|]. split; [lia|]. split; [done|lia].
Qed.

Lemma log2_fuel (m : Z) : m <> 0 -> Z.abs m < 2 ^ (Z.of_nat (Z.to_nat (Z.log2 (Z.abs m))) + 1).
Proof.
  intros Hm. rewrite Z2Nat.id by apply Z.log2_nonneg.
  apply Z.log2_spec. lia.
Qed.

Lemma dec_spec (m e : Z) :
  m <> 0 ->
  exists m' j, dec m e = Finite m' (e + j)
    /\ 0 <= j /\ m' mod 10 <> 0 /\ m = m' * 10 ^ j.
Proof.
  intros Hm. unfold dec. destruct (Z.eqb_spec m 0); [done|].
  destruct (strip10_spec _ m e Hm (log2_fuel m Hm)) as (m' & j & E & H).
  rewrite E. eauto.
Qed.

Lemma canonical_dec (m e : Z) : canonical (dec m e) = true.
Proof.
  destruct (Z.eq_dec m 0) as [->|Hm]; [reflexivity|].
  destruct (dec_spec m e Hm) as (m' & j & -> & _ & Hm' & _). simpl.
  destruct (Z.eqb_spec m' 0) as [->|_]; [done|].
  by destruct (Z.eqb_spec (m' mod 10) 0).
Qed.

Lemma dec_canonical (m e : Z) : canonical (Finite m e) = true -> dec m e = Finite m e.
Proof.
  simpl. unfold dec. destruct (Z.eqb_spec m 0) as [->|Hm].
  - intros H. apply Z.eqb_eq in H. by subst.
  - intros H. apply negb_true_iff, Z.eqb_neq in H.
    destruct (Z.to_nat (Z.log2 (Z.abs m))); simpl; [done|].
    by destruct (Z.eqb_spec (m mod 10) 0).
Qed.

Lemma pow10_factor (a b j k : Z) :
  0 <= j -> 0 <= k -> a mod 10 <> 0 -> b mod 10 <> 0 ->
  a * 10 ^ j = b * 10 ^ k -> a = b /\ j = k.
Proof.
  intros Hj. revert k. pattern j. apply natlike_ind; [| |exact Hj]; clear j Hj.
  - intros k Hk Ha Hb. pattern k. apply natlike_ind; [| |exact Hk]; clear k Hk.
    + simpl. lia.
    + intros k Hk _. rewrite Z.pow_succ_r by lia. rewrite Z.pow_0_r.
      intros E. exfalso. apply Ha. rewrite Z.mul_1_r in E. subst a.
      replace (b * (10 * 10 ^ k)) with ((b * 10 ^ k) * 10) by lia.
      apply Z.mod_mul. lia.
  - intros j Hj IH k Hk Ha Hb. pattern k.
    apply natlike_ind; [| |exact Hk]; clear k Hk.
    + rewrite Z.pow_succ_r by lia. rewrite Z.pow_0_r.
      intros E. exfalso. apply Hb. rewrite Z.mul_1_r in E. subst b.
      replace (a * (10 * 10 ^ j)) with ((a * 10 ^ j) * 10) by lia.
      apply Z.mod_mul. lia.
    + intros k Hk _. rewrite !Z.pow_succ_r by lia. intros E.
      destruct (IH k Hk Ha Hb) as [-> ->]; [lia | done].
Qed.

(** Trailing zeros of a mantissa move into the exponent. *)
Lemma dec_scale (m e j : Z) :
  m mod 10 <> 0 -> 0 <= j -> dec (m * 10 ^ j) e = Finite m (e + j).
Proof.
  intros Hm Hj.
  assert (Hm0 : m <> 0) by (intros ->; done).
  assert (Hp : 0 < 10 ^ j) by (apply Z.pow_pos_nonneg; lia).
  destruct (dec_spec (m * 10 ^ j) e) as (m' & k & -> & Hk & Hm' & Hv); [nia|].
  destruct (pow10_factor m m' j k Hj Hk Hm Hm' Hv) as [-> ->]. reflexivity.
Qed.

Lemma canonical_neg (x : number) : canonical (neg x) = canonical x.
Proof.
  destruct x as [| |m e]; try reflexivity. simpl.
  destruct (Z.eqb_spec m 0) as [->|Hm]; [reflexivity|].
  destruct (Z.eqb_spec (- m) 0); [lia|].
  destruct (Z.eqb_spec (m mod 10) 0), (Z.eqb_spec (- m mod 10) 0); try reflexivity;
    exfalso; Z.to_euclidean_division_equations; lia.
Qed.

(** Every number that [Number] returns is in canonical form. *)
Lemma canonical_Number (text : jsstring) : canonical (Number text) = true.
Proof.
  unfold Number. destruct (trim text) as [|c s]; [reflexivity|].
  destruct (nonDecimalIntegerLiteral (c :: s)) as [x|] eqn:E.
  - unfold nonDecimalIntegerLiteral in E.
    repeat (case_match; simplify_eq); try reflexivity; apply canonical_dec.
  - unfold strDecimalLiteral. destruct (sign (c :: s)) as [negative r].
    assert (H : canonical (strUnsignedDecimalLiteral r) = true).
    { unfold strUnsignedDecimalLiteral.
      repeat (case_match; simplify_eq); try reflexivity; apply canonical_dec. }
    destruct negative; [by rewrite canonical_neg | exact H].
Qed.

(** ** Number tokens *)

Lemma digit_char_not (d : Z) (c : N) :
  is_digit d -> (c < 48 \/ 57 < c)%N -> (digit_char d =? c)%N = false.
Proof.
  intros Hd Hc. pose proof (digit_char_range d Hd). apply N.eqb_neq. lia.
Qed.

Lemma parse_number_text (negative : bool) (ip fp : list Z)
    (ex : option (bool * list Z)) (rest : jsstring) :
  Forall is_digit ip -> Forall is_digit fp ->
  (forall eneg es, ex = Some (eneg, es) -> Forall is_digit es /\ es <> []) ->
  int_part_ok ip -> delimited rest ->
  parse_number (number_text negative ip fp ex ++ rest)
  = Some (number_value negative ip fp ex, rest).
Proof.
  intros Hip Hfp Hex Hok Hrest.
  pose proof (delimited_no_digit rest Hrest) as Hnd.
  set (etext := match ex with
                | Some (eneg, es) =>
                  ch "e" :: (if eneg then ch "-" else ch "+") :: chars es
                | None => []
                end).
  set (ftext := match fp with [] => [] | _ => ch "." :: chars fp end).
  assert (Hend : no_digit_ahead (etext ++ rest)).
  { subst etext. destruct ex as [[eneg es]|]; [reflexivity | exact Hnd]. }
  assert (Hend2 : no_digit_ahead (ftext ++ etext ++ rest)).
  { subst ftext. destruct fp; [exact Hend | reflexivity]. }
  unfold number_text. fold etext ftext. rewrite <- !app_assoc.
  unfold parse_number.
  assert (Hsign : minus_sign ((if negative then [ch "-"] else [])
                              ++ chars ip ++ ftext ++ etext ++ rest)
                  = (negative, chars ip ++ ftext ++ etext ++ rest)).
  { destruct negative; [reflexivity|].
    destruct Hip as [|d ip' Hd _]; [done|]. unfold chars, minus_sign. cbn [app List.map].
    rewrite (digit_char_not d (ch "-") Hd) by (vm_compute; left; reflexivity).
    reflexivity. }
  rewrite Hsign. clear Hsign.
  rewrite (span_digits_chars ip _ Hip Hend2).
  assert (Hint : int_ok ip = true).
  { destruct ip as [|d [|d' ip']]; [done | done |]. simpl in Hok |- *.
    by destruct (Z.eqb_spec d 0). }
  rewrite Hint. clear Hint. cbn [negb].
  assert (Hfrac : fraction (ftext ++ etext ++ rest) = Some (fp, etext ++ rest)).
  { subst ftext. unfold fraction. destruct fp as [|d fp'].
    - cbn [app]. destruct (etext ++ rest) as [|c r] eqn:E; [reflexivity|].
      assert (Hc : (c =? ch ".")%N = false).
      { subst etext. destruct ex as [[eneg es]|].
        - injection E as <- _. reflexivity.
        - simpl in E. subst rest. simpl in Hrest.
          destruct Hrest as [->|[->| ->]]; reflexivity. }
      by rewrite Hc.
    - cbn [app]. change (ch "." =? ch ".")%N with true. cbv iota.
      by rewrite (span_digits_chars (d :: fp') _ Hfp Hend). }
  rewrite Hfrac. clear Hfrac.
  assert (Hexp : exponent (etext ++ rest)
                 = Some (match ex with
                         | Some (eneg, es) =>
                           if eneg then - digits_value 10 es else digits_value 10 es
                         | None => 0
                         end, rest)).
  { subst etext. unfold exponent. destruct ex as [[eneg es]|].
    - destruct (Hex eneg es eq_refl) as [Hes Hne].
      cbn [app]. change ((ch "e" =? ch "e") || (ch "e" =? ch "E"))%N with true.
      cbv iota.
      assert (Hs : sign ((if eneg then ch "-" else ch "+") :: chars es ++ rest)
                   = (eneg, chars es ++ rest)) by (by destruct eneg).
      rewrite Hs. rewrite (span_digits_chars es rest Hes Hnd).
      destruct es; [done | reflexivity].
    - cbn [app]. destruct rest as [|c r]; [reflexivity|]. simpl in Hrest.
      destruct Hrest as [->|[->| ->]]; reflexivity. }
  rewrite Hexp. reflexivity.
Qed.

Lemma chars_app (a b : list Z) : chars (a ++ b) = chars a ++ chars b.
Proof. apply List.map_app. Qed.

Lemma chars_zeros (j : nat) : chars (replicate j 0) = replicate j (ch "0").
Proof.
  unfold chars. change (List.map digit_char (replicate j 0))
    with (digit_char <$> replicate j 0).
  by rewrite fmap_replicate.
Qed.

Lemma length_chars (ds : list Z) : length (chars ds) = length ds.
Proof. apply length_map. Qed.

Lemma abs_mod10 (m : Z) : m mod 10 <> 0 -> Z.abs m mod 10 <> 0.
Proof. intros H. Z.to_euclidean_division_equations. lia. Qed.

Lemma finite_abs (m e : Z) :
  m <> 0 -> (if m <? 0 then neg (Finite (Z.abs m) e) else Finite (Z.abs m) e) = Finite m e.
Proof.
  intros H. destruct (Z.ltb_spec m 0); simpl; f_equal; lia.
Qed.

Lemma andb_cases (a b : bool) :
  (a = true /\ b = true /\ a && b = true)
  \/ ((a = false \/ b = false) /\ a && b = false).
Proof. destruct a, b; simpl; tauto. Qed.

Lemma number_roundtrip (x : number) (rest : jsstring) :
  isFinite x = true -> canonical x = true -> delimited rest ->
  parse_number (numberToString x ++ rest) = Some (x, rest).
Proof.
  destruct x as [| |m e]; try discriminate. intros _ Hc Hrest.
  unfold numberToString. rewrite (dec_canonical m e Hc). cbv beta iota. simpl in Hc.
  destruct (Z.eqb_spec m 0) as [->|Hm].
  { apply Z.eqb_eq in Hc. subst e.
    apply (parse_number_text false [0] [] None rest); try done.
    apply Forall_singleton. unfold is_digit. lia. }
  apply negb_true_iff, Z.eqb_neq in Hc.
  pose proof (abs_mod10 m Hc) as Ha.
  destruct (to_digits_spec (Z.abs m)) as (Hds & _ & Hv & Hhd); [lia|].
  destruct Hhd as (d & r & Eds & Hd0); [lia|].
  fold (chars (to_digits (Z.abs m))). rewrite length_chars.
  set (ds := to_digits (Z.abs m)) in *.
  set (k := Z.of_nat (length ds)).
  assert (Hk : 0 < k) by (subst k; rewrite Eds; simpl; lia).
  assert (Hcan : dec (Z.abs m) e = Finite (Z.abs m) e).
  { apply dec_canonical. simpl. destruct (Z.eqb_spec (Z.abs m) 0); [lia|].
    by destruct (Z.eqb_spec (Z.abs m mod 10) 0). }
  rewrite <- (finite_abs m e Hm).
  change (str "-") with [ch "-"].
  destruct (andb_cases (k <=? k + e) (k + e <=? 21)) as [(H1 & H2 & ->)|(Hno1 & ->)].
  - (* digits and trailing zeros *)
    apply Z.leb_le in H1, H2.
    replace (k + e - k) with e by lia.
    rewrite <- chars_zeros, <- chars_app.
    replace ((if m <? 0 then [ch "-"] else []) ++ chars (ds ++ replicate (Z.to_nat e) 0))
      with (number_text (m <? 0) (ds ++ replicate (Z.to_nat e) 0) [] None)
      by (unfold number_text; by rewrite !app_nil_r).
    rewrite parse_number_text; try done.
    + unfold number_value. rewrite app_nil_r, digits_value_app, Hv, digits_value_zeros.
      rewrite length_replicate, Z2Nat.id, Z.add_0_r by lia.
      change (0 - Z.of_nat (length (@nil Z))) with 0.
      rewrite (dec_scale (Z.abs m) 0 e Ha) by lia.
      by rewrite Z.add_0_l.
    + apply Forall_app. split; [exact Hds|]. apply Forall_replicate. unfold is_digit; lia.
    + rewrite Eds. simpl. destruct (r ++ replicate (Z.to_nat e) 0); [done | lia].
  - destruct (andb_cases (0 <? k + e) (k + e <=? 21)) as [(H1 & H2 & ->)|(Hno2 & ->)].
    + (* digits around a decimal point *)
      apply Z.ltb_lt in H1. apply Z.leb_le in H2.
      assert (He : e < 0).
      { destruct (Z.leb_spec k (k + e)); [|lia]. destruct Hno1 as [?|?]; [done|].
        apply Z.leb_gt in H0. lia. }
      unfold chars. change (List.map digit_char ds) with (digit_char <$> ds).
      rewrite <- fmap_take, <- fmap_drop.
      set (n := Z.to_nat (k + e)).
      assert (Hn : (0 < n < length ds)%nat) by (subst n k; lia).
      replace ((if m <? 0 then [ch "-"] else []) ++
               (digit_char <$> take n ds) ++ str "." ++ (digit_char <$> drop n ds))
        with (number_text (m <? 0) (take n ds) (drop n ds) None).
      2:{ unfold number_text. rewrite app_nil_r.
          destruct (drop n ds) eqn:E; [|reflexivity].
          apply (f_equal length) in E. rewrite length_drop in E. simpl in E. lia. }
      rewrite parse_number_text; try done.
      * unfold number_value. rewrite take_drop, Hv, length_drop.
        replace (0 - Z.of_nat (length ds - n)) with e by (subst n k; lia).
        by rewrite Hcan.
      * by apply Forall_take.
      * by apply Forall_drop.
      * rewrite Eds. destruct n as [|n']; [lia|]. simpl.
        destruct (take n' r); [done | lia].
    + destruct (andb_cases (-6 <? k + e) (k + e <=? 0)) as [(H1 & H2 & ->)|(Hno3 & ->)].
      * (* 0.000digits *)
        apply Z.ltb_lt in H1. apply Z.leb_le in H2.
        rewrite <- chars_zeros, <- chars_app.
        replace ((if m <? 0 then [ch "-"] else []) ++
                 str "0." ++ chars (replicate (Z.to_nat (- (k + e))) 0 ++ ds))
          with (number_text (m <? 0) [0] (replicate (Z.to_nat (- (k + e))) 0 ++ ds) None).
        2:{ unfold number_text. rewrite app_nil_r.
            destruct (replicate (Z.to_nat (- (k + e))) 0 ++ ds) eqn:E; [|reflexivity].
            apply (f_equal length) in E. rewrite length_app in E. simpl in E. lia. }
        rewrite parse_number_text; try done.
        -- unfold number_value.
           change ([0] ++ ?l) with (0 :: l).
           change (0 :: ?l) with (replicate 1 0 ++ l).
           rewrite !digits_value_app, !digits_value_zeros, Hv.
           rewrite length_app, length_replicate, !Z.mul_0_l, !Z.add_0_l.
           replace (0 - Z.of_nat (Z.to_nat (- (k + e)) + length ds)) with e by (subst k; lia).
           by rewrite Hcan.
        -- apply Forall_singleton. unfold is_digit; lia.
        -- apply Forall_app. split; [|exact Hds]. apply Forall_replicate.
           unfold is_digit; lia.
      * (* exponent notation *)
        set (x := k + e - 1).
        assert (Hx : x <> 0).
        { subst x. intros E. destruct Hno1 as [H|H]; apply Z.leb_gt in H;
            destruct Hno2 as [H'|H']; try apply Z.ltb_ge in H'; try apply Z.leb_gt in H';
            lia. }
        destruct (to_digits_spec (Z.abs x)) as (Hxs & Hxne & Hxv & _); [lia|].
        fold (chars (to_digits (Z.abs x))).
        assert (Etext :
          match chars ds with
          | [] => []
          | [d0] => d0 :: str "e" ++ (if x <? 0 then [ch "-"] else str "+")
                                  ++ chars (to_digits (Z.abs x))
          | d0 :: (_ :: _) as r0 =>
            d0 :: str "." ++ r0 ++ str "e" ++ (if x <? 0 then [ch "-"] else str "+")
                                 ++ chars (to_digits (Z.abs x))
          end = chars [d] ++ (match r with [] => [] | _ => ch "." :: chars r end)
                ++ ch "e" :: (if x <? 0 then ch "-" else ch "+")
                   :: chars (to_digits (Z.abs x))).
        { rewrite Eds. destruct r as [|d' r']; simpl.
          - by destruct (x <? 0).
          - by destruct (x <? 0). }
        rewrite Etext. clear Etext.
        change ((if m <? 0 then [ch "-"] else []) ++ chars [d]
                ++ (match r with [] => [] | _ => ch "." :: chars r end)
                ++ ch "e" :: (if x <? 0 then ch "-" else ch "+")
                   :: chars (to_digits (Z.abs x)))
          with (number_text (m <? 0) [d] r (Some (x <? 0, to_digits (Z.abs x)))).
        rewrite parse_number_text; try done.
        -- unfold number_value. change ([d] ++ r) with (d :: r).
           rewrite <- Eds, Hv, Hxv.
           replace ((if x <? 0 then - Z.abs x else Z.abs x) - Z.of_nat (length r)) with e.
           { by rewrite Hcan. }
           assert (length ds = S (length r)) by (by rewrite Eds).
           subst x k. destruct (Z.ltb_spec (Z.of_nat (length ds) + e - 1) 0); lia.
        -- rewrite Eds in Hds. apply Forall_cons in Hds as [Hd _].
           by apply Forall_singleton.
        -- rewrite Eds in Hds. by apply Forall_cons in Hds as [_ Hr].
        -- intros eneg es [= <- <-]. by split.
Qed.

(** ** String literals *)

Lemma parse_chars_literal (c : char16) (t : jsstring) :
  (c =? 34)%N = false -> (c =? 92)%N = false -> (c <? 32)%N = false ->
  parse_chars (c :: t) = prepend c (parse_chars t).
Proof. intros H1 H2 H3. simpl. by rewrite H1, H2, H3. Qed.

Lemma hex_digit_cases (d : Z) :
  0 <= d < 16 ->
  d = 0 \/ d = 1 \/ d = 2 \/ d = 3 \/ d = 4 \/ d = 5 \/ d = 6 \/ d = 7 \/ d = 8
  \/ d = 9 \/ d = 10 \/ d = 11 \/ d = 12 \/ d = 13 \/ d = 14 \/ d = 15.
Proof. lia. Qed.

Lemma hex_digit_char (d : Z) : 0 <= d < 16 -> digit 16 (digit_char d) = Some d.
Proof.
  intros H. apply hex_digit_cases in H.
  repeat (destruct H as [->|H]; [reflexivity|]). by subst.
Qed.

Lemma parse_chars_unicodeEscape (c : char16) (t : jsstring) :
  (c < 65536)%N ->
  parse_chars (unicodeEscape c ++ t) = prepend c (parse_chars t).
Proof.
  intros Hc. unfold unicodeEscape.
  set (z := Z.of_N c).
  assert (Hz : 0 <= z < 65536) by (subst z; lia).
  change (str "\u" ++ List.map digit_char
            [z / 4096 mod 16; z / 256 mod 16; z / 16 mod 16; z mod 16])
    with (92%N :: 117%N :: digit_char (z / 4096 mod 16) :: digit_char (z / 256 mod 16)
          :: digit_char (z / 16 mod 16) :: [digit_char (z mod 16)]).
  cbn [app]. cbn [parse_chars].
  change (92 =? 34)%N with false. change (92 =? 92)%N with true.
  change (117 =? 34)%N with false. change (117 =? 92)%N with false.
  change (117 =? ch "/")%N with false. change (117 =? ch "b")%N with false.
  change (117 =? ch "f")%N with false. change (117 =? ch "n")%N with false.
  change (117 =? ch "r")%N with false. change (117 =? ch "t")%N with false.
  change (117 =? ch "u")%N with true. cbv iota.
  rewrite !hex_digit_char by (Z.to_euclidean_division_equations; lia).
  replace (Z.to_N (((z / 4096 mod 16 * 16 + z / 256 mod 16) * 16 + z / 16 mod 16) * 16
                   + z mod 16)) with c; [reflexivity|].
  replace (((z / 4096 mod 16 * 16 + z / 256 mod 16) * 16 + z / 16 mod 16) * 16 + z mod 16)
    with z by (Z.to_euclidean_division_equations; lia).
  subst z. by rewrite N2Z.id.
Qed.

Lemma surrogate_literal (c : char16) :
  isHighSurrogate c || isLowSurrogate c = true ->
  (c =? 34)%N = false /\ (c =? 92)%N = false /\ (c <? 32)%N = false /\ (c < 65536)%N.
Proof.
  unfold isHighSurrogate, isLowSurrogate. intros H.
  rewrite N.eqb_neq, N.eqb_neq, N.ltb_ge. 
  apply orb_true_iff in H as [H|H]; apply andb_true_iff in H as [H1 H2];
    apply N.leb_le in H1, H2; lia.
Qed.

Lemma parse_chars_escape1 (c : char16) (t : jsstring) :
  isHighSurrogate c = false -> isLowSurrogate c = false ->
  parse_chars (escape1 c ++ t) = prepend c (parse_chars t).
Proof.
  intros Hh Hl. unfold escape1.
  destruct (N.eqb_spec c 8) as [->|H8]; [reflexivity|].
  destruct (N.eqb_spec c 9) as [->|H9]; [reflexivity|].
  destruct (N.eqb_spec c 10) as [->|H10]; [reflexivity|].
  destruct (N.eqb_spec c 12) as [->|H12]; [reflexivity|].
  destruct (N.eqb_spec c 13) as [->|H13]; [reflexivity|].
  destruct (N.eqb_spec c 34) as [->|H34]; [reflexivity|].
  destruct (N.eqb_spec c 92) as [->|H92]; [reflexivity|].
  destruct (N.ltb_spec c 32) as [Hlt|Hge].
  - apply parse_chars_unicodeEscape. lia.
  - apply parse_chars_literal; [by apply N.eqb_neq | by apply N.eqb_neq | by apply N.ltb_ge].
Qed.

Lemma parse_chars_quote_chars (n : nat) :
  forall s rest, (length s <= n)%nat ->
  parse_chars (quote_chars s ++ 34%N :: rest) = Some (s, rest).
Proof.
  induction n as [|n IH]; intros s rest Hlen.
  - destruct s; [reflexivity | simpl in Hlen; lia].
  - destruct s as [|c r]; [reflexivity|]. simpl in Hlen.
    cbn [quote_chars].
    destruct (isHighSurrogate c) eqn:Hh.
    + destruct (surrogate_literal c) as (H1 & H2 & H3 & H4); [by rewrite Hh|].
      destruct r as [|c2 r2].
      * rewrite parse_chars_unicodeEscape by exact H4. reflexivity.
      * destruct (isLowSurrogate c2) eqn:Hl2.
        -- destruct (surrogate_literal c2) as (H1' & H2' & H3' & _);
             [by rewrite Hl2, orb_true_r|].
           cbn [app]. rewrite parse_chars_literal by assumption.
           rewrite parse_chars_literal by assumption.
           rewrite IH by (simpl in Hlen; lia). reflexivity.
        -- rewrite <- app_assoc, parse_chars_unicodeEscape by exact H4.
           rewrite IH by lia. reflexivity.
    + destruct (isLowSurrogate c) eqn:Hl.
      * destruct (surrogate_literal c) as (_ & _ & _ & H4); [by rewrite Hl, orb_true_r|].
        rewrite <- app_assoc, parse_chars_unicodeEscape by exact H4.
        rewrite IH by lia. reflexivity.
      * rewrite <- app_assoc, parse_chars_escape1 by assumption.
        rewrite IH by lia. reflexivity.
Qed.

Lemma parse_chars_quote (s rest : jsstring) :
  parse_chars (quote_chars s ++ 34%N :: rest) = Some (s, rest).
Proof. by apply (parse_chars_quote_chars (length s)). Qed.

(** ** Values *)

Lemma digit_10_range (c : char16) (d : Z) : digit 10 c = Some d -> (48 <= c <= 57)%N.
Proof.
  unfold digit. intros H.
  destruct ((48 <=? Z.of_N c) && (Z.of_N c <=? 57)) eqn:E1; [reflect_tests; lia|].
  destruct ((97 <=? Z.of_N c) && (Z.of_N c <=? 122)) eqn:E2;
    [|destruct ((65 <=? Z.of_N c) && (Z.of_N c <=? 90)) eqn:E3; [|discriminate]];
    destruct (_ <? 10) eqn:E4; try discriminate; reflect_tests; lia.
Qed.

Lemma parse_number_start (s : jsstring) (r : number * jsstring) :
  parse_number s = Some r ->
  exists c t, s = c :: t /\ (c = ch "-" \/ (48 <= c <= 57)%N).
Proof.
  unfold parse_number, minus_sign. destruct s as [|c t]; [discriminate|].
  intros H. exists c, t. split; [reflexivity|].
  destruct (N.eqb_spec c (ch "-")) as [E|E]; [by left | right].
  cbn [span_digits] in H. destruct (digit 10 c) as [d|] eqn:Hd.
  - by apply (digit_10_range c d).
  - discriminate.
Qed.

Lemma stringify_start (j : json) :
  faithful j -> exists c t, stringify j = c :: t /\ value_start c.
Proof.
  unfold value_start. destruct j as [|b|n|s|l|l]; intros Hj.
  - exists (ch "n"), (str "ull"). split; [reflexivity | tauto].
  - destruct b.
    + exists (ch "t"), (str "rue"). split; [reflexivity | tauto].
    + exists (ch "f"), (str "alse"). split; [reflexivity | tauto].
  - destruct Hj as [Hf Hc]. simpl. rewrite Hf.
    pose proof (number_roundtrip n [] Hf Hc I) as H. rewrite app_nil_r in H.
    destruct (parse_number_start _ _ H) as (c & t & -> & Hs).
    exists c, t. split; [reflexivity | tauto].
  - exists 34%N, (quote_chars s ++ [34%N]). split; [reflexivity | tauto].
  - eexists (ch "["), _. split; [reflexivity | tauto].
  - eexists (ch "{"), _. split; [reflexivity | tauto].
Qed.

Lemma value_start_not_ws (c : char16) : value_start c -> isJSONWhiteSpace c = false.
Proof.
  unfold value_start, isJSONWhiteSpace.
  intros [->|[->|[->|[->|[->|[->|[->|H]]]]]]]; try reflexivity.
  repeat (apply orb_false_iff; split); apply N.eqb_neq; lia.
Qed.

Lemma skip_ws_start (c : char16) (t : jsstring) :
  isJSONWhiteSpace c = false -> skip_ws (c :: t) = c :: t.
Proof. intros H. simpl. by rewrite H. Qed.

Lemma delimited_skip_ws (rest : jsstring) : delimited rest -> skip_ws rest = rest.
Proof.
  destruct rest as [|c t]; [reflexivity|]. simpl.
  intros [->|[->| ->]]; reflexivity.
Qed.

(** Distinct keys are added one after the other. *)
Lemma set_prop_fresh (o : list (jsstring * json)) (k : jsstring) (v : json) :
  k ∉ List.map fst o -> set_prop o k v = o ++ [(k, v)].
Proof.
  induction o as [|[k' v'] o IH]; intros H; [reflexivity|].
  simpl in H. apply not_elem_of_cons in H as [Hk Ho]. simpl.
  unfold JSString.eqb. rewrite bool_decide_false by congruence.
  by rewrite IH.
Qed.

Lemma make_object_distinct (ms : list (jsstring * json)) :
  NoDup (List.map fst ms) -> make_object ms = JObject ms.
Proof.
  unfold make_object. intros H. f_equal.
  assert (G : forall acc, NoDup (List.map fst (acc ++ ms)) ->
              fold_left (fun o kv => set_prop o (fst kv) (snd kv)) ms acc = acc ++ ms).
  { clear H. induction ms as [|[k v] ms IH]; intros acc H; simpl.
    - by rewrite app_nil_r.
    - rewrite set_prop_fresh.
      + rewrite IH; rewrite <- app_assoc; [reflexivity | exact H].
      + rewrite List.map_app in H. simpl in H.
        apply NoDup_app in H as (_ & H & _). intros Hin.
        apply (H k Hin). left. }
  apply (G []). exact H.
Qed.

Lemma size_pos (j : json) : (1 <= json_size j)%nat.
Proof. destruct j; simpl; lia. Qed.

Lemma parse_value_at (f : nat) (c : char16) (t : jsstring) :
  value_start c ->
  parse_value (S f) (c :: t)
  = if (c =? ch "[")%N then
      match skip_ws t with
      | c' :: r' =>
        if (c' =? ch "]")%N then Some (JArray [], r')
        else match parse_elements f t with
             | Some (vs, rest) => Some (JArray vs, rest)
             | None => None
             end
      | [] => None
      end
    else if (c =? ch "{")%N then
      match skip_ws t with
      | c' :: r' =>
        if (c' =? ch "}")%N then Some (JObject [], r')
        else match parse_members f t with
             | Some (ms, rest) => Some (make_object ms, rest)
             | None => None
             end
      | [] => None
      end
    else if (c =? 34)%N then
      match parse_chars t with
      | Some (s, rest) => Some (JString s, rest)
      | None => None
      end
    else
      match strip_prefix (str "null") (c :: t) with
      | Some rest => Some (JNull, rest)
      | None =>
        match strip_prefix (str "true") (c :: t) with
        | Some rest => Some (JBool true, rest)
        | None =>
          match strip_prefix (str "false") (c :: t) with
          | Some rest => Some (JBool false, rest)
          | None =>
            match parse_number (c :: t) with
            | Some (n, rest) => Some (JNumber n, rest)
            | None => None
            end
          end
        end
      end.
Proof.
  intros Hc. cbn [parse_value].
  by rewrite (skip_ws_start c t (value_start_not_ws c Hc)).
Qed.

(** The first character of a number token is no other token's. *)
Lemma number_start_other (c x : char16) :
  c = ch "-" \/ (48 <= c <= 57)%N ->
  (x =? ch "-")%N = false -> (x <? 48)%N || (57 <? x)%N = true ->
  (c =? x)%N = false /\ (x =? c)%N = false.
Proof.
  intros Hc Hx Hr. rewrite !N.eqb_neq. apply N.eqb_neq in Hx.
  apply orb_true_iff in Hr as [Hr|Hr]; reflect_tests;
    destruct Hc as [->|Hc]; split; congruence || lia.
Qed.

Lemma parse_value_number (f : nat) (n : number) (rest : jsstring) :
  isFinite n = true -> canonical n = true -> delimited rest ->
  parse_value (S f) (numberToString n ++ rest) = Some (JNumber n, rest).
Proof.
  intros Hf Hc Hrest.
  pose proof (number_roundtrip n rest Hf Hc Hrest) as Hrt.
  destruct (parse_number_start _ _ Hrt) as (c & t & E & Hs).
  rewrite E in Hrt |- *.
  rewrite parse_value_at by (unfold value_start; tauto).
  pose proof (fun x => number_start_other c x Hs) as Hne.
  rewrite (proj1 (Hne (ch "[") eq_refl eq_refl)).
  rewrite (proj1 (Hne (ch "{") eq_refl eq_refl)).
  rewrite (proj1 (Hne 34%N eq_refl eq_refl)).
  change (str "null") with (ch "n" :: str "ull").
  change (str "true") with (ch "t" :: str "rue").
  change (str "false") with (ch "f" :: str "alse").
  cbn [strip_prefix].
  rewrite (proj2 (Hne (ch "n") eq_refl eq_refl)).
  rewrite (proj2 (Hne (ch "t") eq_refl eq_refl)).
  rewrite (proj2 (Hne (ch "f") eq_refl eq_refl)).
  by rewrite Hrt.
Qed.

Lemma join_cons (sep x : jsstring) (l : list jsstring) :
  join sep (x :: l) = match l with [] => x | _ => x ++ sep ++ join sep l end.
Proof. by destruct l. Qed.

Lemma parse_value_array (f : nat) (s : jsstring) (c : char16) (t : jsstring) :
  skip_ws s = c :: t -> (c =? ch "]")%N = false ->
  parse_value (S f) (ch "[" :: s)
  = match parse_elements f s with
    | Some (vs, rest) => Some (JArray vs, rest)
    | None => None
    end.
Proof.
  intros Hs Hc. rewrite parse_value_at by (unfold value_start; tauto).
  change (ch "[" =? ch "[")%N with true. cbv iota. by rewrite Hs, Hc.
Qed.

Lemma parse_value_object (f : nat) (s : jsstring) (c : char16) (t : jsstring) :
  skip_ws s = c :: t -> (c =? ch "}")%N = false ->
  parse_value (S f) (ch "{" :: s)
  = match parse_members f s with
    | Some (ms, rest) => Some (make_object ms, rest)
    | None => None
    end.
Proof.
  intros Hs Hc. rewrite parse_value_at by (unfold value_start; tauto).
  change (ch "{" =? ch "[")%N with false. change (ch "{" =? ch "{")%N with true.
  cbv iota. by rewrite Hs, Hc.
Qed.

Lemma join_cons_cons (sep x y : jsstring) (l : list jsstring) :
  join sep (x :: y :: l) = x ++ sep ++ join sep (y :: l).
Proof. reflexivity. Qed.

Lemma member_text_start (kv : jsstring * json) :
  exists t, member_text kv = 34%N :: t.
Proof. unfold member_text, quote. cbn [app]. eauto. Qed.

Lemma parse_roundtrip_fuel (fuel : nat) :
  (forall j rest, faithful j -> (json_size j <= fuel)%nat -> delimited rest ->
     parse_value fuel (stringify j ++ rest) = Some (j, rest))
  /\ (forall l rest, l <> [] -> all_faithful l -> (elements_size l <= fuel)%nat ->
        parse_elements fuel (join (str ",") (List.map stringify l) ++ ch "]" :: rest)
        = Some (l, rest))
  /\ (forall ms rest, ms <> [] -> members_faithful ms -> (members_size ms <= fuel)%nat ->
        parse_members fuel (join (str ",") (List.map member_text ms) ++ ch "}" :: rest)
        = Some (ms, rest)).
Proof.
  induction fuel as [|f (IHv & IHe & IHm)].
  { split; [|split].
    - intros j rest _ H. pose proof (size_pos j). lia.
    - intros [|v l] rest Hne _ H; [done|]. simpl in H. lia.
    - intros [|m ms] rest Hne _ H; [done|]. simpl in H. lia. }
  split; [|split].
  - (* a value *)
    intros j rest Hj Hsize Hrest. destruct j as [|b|n|s|l|ms].
    + reflexivity.
    + by destruct b.
    + destruct Hj as [Hf Hc]. cbn [stringify]. rewrite Hf.
      by apply parse_value_number.
    + cbn [stringify]. unfold quote. cbn [app].
      rewrite parse_value_at by (unfold value_start; tauto).
      change (34 =? ch "[")%N with false. change (34 =? ch "{")%N with false.
      change (34 =? 34)%N with true. cbv iota.
      rewrite <- app_assoc. cbn [app]. by rewrite parse_chars_quote.
    + cbn [stringify]. change (str "[") with [ch "["]. change (str "]") with [ch "]"].
      cbn [app]. rewrite <- app_assoc. cbn [app].
      destruct l as [|v l]; [reflexivity|].
      cbn [faithful] in Hj. destruct Hj as [Hv Hl].
      destruct (stringify_start v Hv) as (c & t & E & Hc).
      assert (Hskip : exists t',
        skip_ws (join (str ",") (List.map stringify (v :: l)) ++ ch "]" :: rest) = c :: t').
      { cbn [List.map]. rewrite join_cons, E.
        destruct (List.map stringify l); cbn [app]; eexists;
          apply skip_ws_start, value_start_not_ws, Hc. }
      destruct Hskip as [t' Hskip].
      assert (Hcb : (c =? ch "]")%N = false).
      { apply N.eqb_neq. intros ->. unfold value_start in Hc.
        vm_compute in Hc. intuition congruence. }
      rewrite (parse_value_array f _ c t' Hskip Hcb).
      rewrite IHe; [reflexivity | done | by split |].
      simpl in Hsize. unfold elements_size. simpl. lia.
    + change (stringify (JObject ms))
        with ([ch "{"] ++ join (str ",") (List.map member_text ms) ++ [ch "}"]).
      cbn [app]. rewrite <- app_assoc. cbn [app].
      destruct ms as [|[k v] ms]; [reflexivity|].
      cbn [faithful] in Hj. destruct Hj as [Hnd Hms].
      assert (Hskip : exists t',
        skip_ws (join (str ",") (List.map member_text ((k, v) :: ms)) ++ ch "}" :: rest)
        = 34%N :: t').
      { cbn [List.map]. rewrite join_cons.
        destruct (member_text_start (k, v)) as [t0 ->].
        destruct (List.map member_text ms); cbn [app]; eexists; reflexivity. }
      destruct Hskip as [t' Hskip].
      rewrite (parse_value_object f _ 34%N t' Hskip eq_refl).
      rewrite IHm; [by rewrite make_object_distinct | done | exact Hms |].
      simpl in Hsize. unfold members_size. simpl. lia.
  - (* the elements of an array *)
    intros l rest Hne Hl Hsize. destruct l as [|v l]; [done|]. destruct Hl as [Hv Hl].
    unfold elements_size in Hsize. cbn [fold_right] in Hsize. fold (elements_size l) in Hsize.
    cbn [parse_elements]. destruct l as [|v' l'].
    + cbn [List.map join].
      rewrite IHv; [|exact Hv | lia | simpl; tauto].
      reflexivity.
    + cbn [List.map]. rewrite join_cons_cons.
      change (stringify v' :: List.map stringify l') with (List.map stringify (v' :: l')).
      rewrite <- !app_assoc. change (str ",") with [ch ","] at 1. cbn [app].
      rewrite IHv; [|exact Hv | lia | simpl; tauto].
      cbn [skip_ws]. change (isJSONWhiteSpace (ch ",")) with false. cbv iota.
      change (ch "," =? ch ",")%N with true. cbv iota.
      rewrite IHe; [reflexivity | done | exact Hl | lia].
  - (* the members of an object *)
    intros ms rest Hne Hms Hsize. destruct ms as [|[k v] ms]; [done|].
    destruct Hms as [Hv Hms]. cbn [snd] in Hv.
    unfold members_size in Hsize. cbn [fold_right snd] in Hsize.
    fold (members_size ms) in Hsize.
    cbn [parse_members].
    assert (Hmember : forall tail, delimited tail ->
      match skip_ws (member_text (k, v) ++ tail) with
      | [] => None
      | q :: r0 =>
        if (q =? 34)%N then
          match parse_chars r0 with
          | None => None
          | Some (k0, r1) =>
            match skip_ws r1 with
            | [] => None
            | c :: r2 =>
              if (c =? ch ":")%N then
                match parse_value f r2 with
                | None => None
                | Some (v0, r3) =>
                  match skip_ws r3 with
                  | [] => None
                  | c' :: r4 =>
                    if (c' =? ch ",")%N then
                      match parse_members f r4 with
                      | Some (ms0, rest0) => Some ((k0, v0) :: ms0, rest0)
                      | None => None
                      end
                    else if (c' =? ch "}")%N then Some ([(k0, v0)], r4)
                    else None
                  end
                end
              else None
            end
          end
        else None
      end
      = match tail with
        | [] => None
        | c' :: r4 =>
          if (c' =? ch ",")%N then
            match parse_members f r4 with
            | Some (ms0, rest0) => Some ((k, v) :: ms0, rest0)
            | None => None
            end
          else if (c' =? ch "}")%N then Some ([(k, v)], r4)
          else None
        end).
    { intros tail Htail. unfold member_text, quote. cbn [fst snd].
      rewrite <- !app_assoc. cbn [app skip_ws].
      change (isJSONWhiteSpace 34%N) with false. cbv iota.
      change (34 =? 34)%N with true. cbv iota.
      rewrite <- !app_assoc. cbn [app]. rewrite parse_chars_quote.
      change (str ":") with [ch ":"]. cbn [app skip_ws].
      change (isJSONWhiteSpace (ch ":")) with false. cbv iota.
      change (ch ":" =? ch ":")%N with true. cbv iota.
      rewrite IHv; [|exact Hv | lia | exact Htail].
      by rewrite (delimited_skip_ws tail Htail). }
    destruct ms as [|m' ms'].
    + cbn [List.map join]. rewrite Hmember by (simpl; tauto). reflexivity.
    + cbn [List.map]. rewrite join_cons_cons.
      change (member_text m' :: List.map member_text ms')
        with (List.map member_text (m' :: ms')).
      rewrite <- !app_assoc. change (str ",") with [ch ","] at 1. cbn [app].
      rewrite Hmember by (simpl; tauto).
      change (ch "," =? ch ",")%N with true. cbv iota.
      rewrite IHm; [reflexivity | done | exact Hms | lia].
Qed.

Lemma join_length_bound (sep : jsstring) (xs : list jsstring) (sizes : list nat) :
  (1 <= length sep)%nat ->
  Forall2 (fun x n => (n <= length x)%nat) xs sizes ->
  (fold_right (fun n acc => S (n + acc)) 0 sizes <= length (join sep xs) + 1)%nat.
Proof.
  intros Hsep. induction 1 as [|x n xs sizes Hx Hall IH]; [simpl; lia|].
  destruct Hall as [|y m xs' sizes' Hy Hall].
  - cbn [join fold_right]. lia.
  - rewrite join_cons_cons, !length_app. cbn [fold_right] in IH |- *.
    unfold jsstring, char16 in *. lia.
Qed.

Lemma size_le_text (n : nat) :
  forall j, (json_size j <= n)%nat -> faithful j ->
  (json_size j <= length (stringify j))%nat.
Proof.
  induction n as [|n IH]; intros j Hn Hj.
  { pose proof (size_pos j). lia. }
  assert (Hscalar : (1 <= length (stringify j))%nat).
  { destruct (stringify_start j Hj) as (c & t & -> & _). simpl. lia. }
  destruct j as [|b|x|s|l|ms]; try exact Hscalar.
  - cbn [stringify json_size]. rewrite !length_app.
    change (length (str "[")) with 1%nat. change (length (str "]")) with 1%nat.
    cbn [faithful] in Hj. cbn [json_size] in Hn.
    assert (H : (fold_right (fun x n => S (json_size x + n)) 0 l
                 <= length (join (str ",") (List.map stringify l)) + 1)%nat).
    { replace (fold_right (fun x n => S (json_size x + n)) 0%nat l)
        with (fold_right (fun n acc => S (n + acc)) 0%nat (List.map json_size l))
        by (clear; induction l; simpl; congruence).
      apply join_length_bound; [done|].
      clear Hscalar. induction l as [|v l IHl]; simpl; constructor.
      - apply IH; [simpl in Hn; lia | apply Hj].
      - apply IHl; [simpl in Hn; lia | apply Hj]. }
    lia.
  - change (stringify (JObject ms))
      with (str "{" ++ join (str ",") (List.map member_text ms) ++ str "}").
    cbn [json_size]. rewrite !length_app.
    change (length (str "{")) with 1%nat. change (length (str "}")) with 1%nat.
    cbn [faithful] in Hj. destruct Hj as [_ Hj]. cbn [json_size] in Hn.
    assert (H : (fold_right (fun kv n => S (json_size (snd kv) + n)) 0 ms
                 <= length (join (str ",") (List.map member_text ms)) + 1)%nat).
    { replace (fold_right (fun kv n => S (json_size (snd kv) + n)) 0%nat ms)
        with (fold_right (fun n acc => S (n + acc)) 0%nat
                         (List.map (fun kv => json_size (snd kv)) ms))
        by (clear; induction ms; simpl; congruence).
      apply join_length_bound; [done|].
      clear Hscalar. induction ms as [|[k v] ms IHl]; simpl; constructor.
      - unfold member_text. rewrite !length_app. cbn [snd].
        assert (json_size v <= length (stringify v))%nat
          by (apply IH; [simpl in Hn; lia | apply Hj]).
        lia.
      - apply IHl; [simpl in Hn; lia | apply Hj]. }
    lia.
Qed.

(** [JSON.parse(JSON.stringify(j))] is [j] for a faithful value. *)
Lemma parse_stringify (j : json) : faithful j -> parse (stringify j) = Some j.
Proof.
  intros Hj. unfold parse.
  destruct (parse_roundtrip_fuel (S (length (stringify j)))) as [H _].
  specialize (H j [] Hj).
  rewrite app_nil_r in H. rewrite H; [reflexivity| |exact I].
  pose proof (size_le_text (json_size j) j (le_n _) Hj). lia.
Qed.

(** ** Products as JSON *)

Lemma isInteger_isFinite (x : number) : isInteger x = true -> isFinite x = true.
Proof. by destruct x. Qed.

Lemma asInteger_ofZ (i : Z) : asInteger (Some (JNumber (ofZ i))) = Some i.
Proof.
  unfold ofZ. destruct (Z.eq_dec i 0) as [->|Hi]; [reflexivity|].
  destruct (dec_spec i 0 Hi) as (m & j & E & Hj & _ & Hv).
  rewrite E, Z.add_0_l. unfold asInteger.
  destruct (Z.leb_spec 0 j); [|lia]. by rewrite Hv.
Qed.

Lemma asDanhMuc_label (c : DanhMuc) : asDanhMuc (Some (JString (label c))) = Some c.
Proof. by destruct c. Qed.

Lemma asProduct_toJSON (p : Product) : asProduct (toJSON p) = Some p.
Proof.
  destruct p as [i t c g n d]. unfold toJSON, asProduct. cbn [Product.id Product.ten
    Product.danhMuc Product.gia Product.soLuong Product.moTa].
  change (get _ (str "id")) with (Some (JNumber (ofZ i))).
  change (get _ (str "ten")) with (Some (JString t)).
  change (get _ (str "danhMuc")) with (Some (JString (label c))).
  change (get _ (str "gia")) with (Some (JNumber g)).
  change (get _ (str "soLuong")) with (Some (JNumber n)).
  change (get _ (str "moTa")) with (Some (JString d)).
  by rewrite asInteger_ofZ, asDanhMuc_label.
Qed.

Lemma asProducts_toJSON (l : list Product) :
  asProducts (JArray (List.map toJSON l)) = Some l.
Proof.
  simpl. induction l as [|p l IH]; [reflexivity|].
  cbn [List.map asProductList]. by rewrite asProduct_toJSON, IH.
Qed.

Lemma toJSON_faithful (p : Product) : validProduct p -> faithful (toJSON p).
Proof.
  intros (_ & (Hg1 & Hg2 & _) & (Hn1 & Hn2 & _) & _).
  unfold toJSON. cbn [faithful List.map fst fold_right snd]. split.
  - apply (bool_decide_unpack _). vm_compute. exact I.
  - pose proof (canonical_dec (Product.id p) 0) as Hc.
    assert (Hf : isFinite (ofZ (Product.id p)) = true).
    { unfold ofZ, dec. destruct (Product.id p =? 0); [reflexivity|].
      by destruct (strip10 _ _ _). }
    repeat split; auto using isInteger_isFinite.
Qed.

Lemma products_faithful (l : list Product) :
  Forall validProduct l -> faithful (JArray (List.map toJSON l)).
Proof.
  induction 1 as [|p l Hp _ IH]; simpl; [exact I|].
  split; [by apply toJSON_faithful | exact IH].
Qed.

(** ** Save and load *)

Lemma setItem_room (ls : Storage) (k v : jsstring) :
  (usage (<[k := v]> (items ls)) <= quota ls)%N ->
  setItem ls k v = Some (mkStorage (<[k := v]> (items ls)) (quota ls)).
Proof. intros H. unfold setItem. apply N.leb_le in H. by rewrite H. Qed.

Lemma setItem_full (ls : Storage) (k v : jsstring) :
  (quota ls < usage (<[k := v]> (items ls)))%N -> setItem ls k v = None.
Proof. intros H. unfold setItem. apply N.leb_gt in H. by rewrite H. Qed.

Lemma stringify_array_truthy (l : list json) : truthy (stringify (JArray l)) = true.
Proof. reflexivity. Qed.

(** C4 (as amended).  When the blob store has room for the text, saving a
    list of valid products and loading it back returns the saved list,
    field for field.  When it has not, the save is dropped in silence and
    the load returns what the store held before. *)
Theorem save_load_roundtrip (ls : Storage) (l : list Product) :
  l <> [] -> Forall validProduct l ->
  ((usage (<[LS_KEY := stringify (JArray (List.map toJSON l))]> (items ls))
    <= quota ls)%N ->
   loadFromStorage (persist ls l) = Some (JArray (List.map toJSON l))
   /\ asProducts (JArray (List.map toJSON l)) = Some l
   /\ hydratePayload (loadFromStorage (persist ls l)) = Some l)
  /\ ((quota ls
       < usage (<[LS_KEY := stringify (JArray (List.map toJSON l))]> (items ls)))%N ->
      persist ls l = ls
      /\ loadFromStorage (persist ls l) = loadFromStorage ls).
Proof.
  intros Hne Hvalid. split.
  - intros Hroom.
    assert (Hload : loadFromStorage (persist ls l) = Some (JArray (List.map toJSON l))).
    { unfold persist. rewrite (setItem_room ls _ _ Hroom).
      unfold loadFromStorage, getItem. cbn [items]. rewrite lookup_insert_eq.
      rewrite stringify_array_truthy.
      apply parse_stringify, products_faithful, Hvalid. }
    split; [exact Hload|]. split; [apply asProducts_toJSON|].
    rewrite Hload. unfold hydratePayload.
    destruct l as [|p l]; [done|]. simpl truthy_json. simpl truthy_length.
    cbn [andb]. apply asProducts_toJSON.
  - intros Hfull. unfold persist. rewrite (setItem_full ls _ _ Hfull). done.
Qed.

Lemma save_load_roundtrip_witness :
  loadFromStorage (persist (emptyStorage 5242880) initialProducts)
  = Some (JArray (List.map toJSON initialProducts))
  /\ persist (emptyStorage 10) initialProducts = emptyStorage 10.
Proof.
  split.
  - destruct (save_load_roundtrip (emptyStorage 5242880) initialProducts) as [H _].
    + discriminate.
    + repeat constructor; vm_compute; intuition discriminate.
    + apply H. vm_compute. discriminate.
  - destruct (save_load_roundtrip (emptyStorage 10) initialProducts) as [_ H].
    + discriminate.
    + repeat constructor; vm_compute; intuition discriminate.
    + apply H. vm_compute. reflexivity.
Defined.

(** C4 as stated fails on a store without room: the save is dropped, and
    the load returns null although the list saved was valid and not
    empty. *)
Lemma save_dropped_when_store_full :
  initialProducts <> []
  /\ Forall validProduct initialProducts
  /\ loadFromStorage (persist (emptyStorage 10) initialProducts) = None.
Proof.
  split; [discriminate|]. split.
  - repeat constructor; vm_compute; intuition discriminate.
  - vm_compute. reflexivity.
Qed.

(* ================================================================= *)
(** * The form and the pages *)

(** ** White space *)

Lemma trimStart_solid (s : jsstring) : solid s -> trimStart s = s.
Proof. destruct 1 as [|c s Hc _]; simpl; [reflexivity | by rewrite Hc]. Qed.

Lemma trim_solid (s : jsstring) : solid s -> trim s = s.
Proof.
  intros H. unfold trim, trimEnd. rewrite (trimStart_solid s H).
  rewrite trimStart_solid by (by apply Forall_rev). apply rev_involutive.
Qed.

(** ** A JSON number token read by [Number] *)

Lemma digit_10_char (c : char16) (d : Z) :
  digit 10 c = Some d -> (48 <= c <= 57)%N.
Proof.
  unfold digit. intros H. repeat (case_match; simplify_eq); reflect_tests; lia.
Qed.

Lemma span_digits_inv (s : jsstring) :
  forall ds r, span_digits 10 s = (ds, r) ->
  exists cs, s = cs ++ r /\ digit_chars cs /\ length cs = length ds.
Proof.
  induction s as [|c s IH]; intros ds r; simpl.
  - intros [= <- <-]. exists []. split; [done|]. split; [constructor | done].
  - destruct (digit 10 c) as [d|] eqn:Hd.
    + destruct (span_digits 10 s) as [ds' r'] eqn:E. intros [= <- <-].
      destruct (IH ds' r' eq_refl) as (cs & -> & Hcs & Hlen).
      exists (c :: cs). split; [reflexivity|]. split.
      * constructor; [by eapply digit_10_char | exact Hcs].
      * simpl. by rewrite Hlen.
    + intros [= <- <-]. exists []. split; [done|]. split; [constructor | done].
Qed.

Lemma digit_chars_solid (cs : jsstring) : digit_chars cs -> solid cs.
Proof.
  intros H. eapply Forall_impl; [exact H|]. intros c Hc. cbn beta in Hc.
  unfold isWhiteSpace.
  repeat (apply orb_false_iff; split); try (apply N.eqb_neq; lia).
  apply andb_false_iff. left. apply N.leb_gt. lia.
Qed.

Lemma exponentPart_exponent (s : jsstring) (x : Z) :
  exponent s = Some (x, []) -> exponentPart s = Some x.
Proof.
  unfold exponent, exponentPart. destruct s as [|c r]; [by intros [= <-]|].
  destruct ((c =? ch "e") || (c =? ch "E"))%N; [|discriminate].
  destruct (sign r) as [eneg r1]. destruct (span_digits 10 r1) as [[|d es] r2];
    [discriminate|]. by intros [= <- ->].
Qed.

Lemma exponent_solid (s : jsstring) (x : Z) : exponent s = Some (x, []) -> solid s.
Proof.
  unfold exponent. destruct s as [|c r]; [constructor|].
  destruct ((c =? ch "e") || (c =? ch "E"))%N eqn:Hc; [|discriminate].
  destruct (sign r) as [eneg r1] eqn:Hs.
  destruct (span_digits 10 r1) as [[|d es] r2] eqn:Hd; [discriminate|].
  intros [= _ ->]. apply span_digits_inv in Hd as (cs & -> & Hcs & _).
  rewrite app_nil_r in Hs. apply digit_chars_solid in Hcs.
  constructor.
  { apply orb_true_iff in Hc as [E|E]; apply N.eqb_eq in E; by subst c. }
  unfold sign in Hs. destruct r as [|c' r']; [constructor|].
  destruct (c' =? ch "-")%N eqn:E1; [apply N.eqb_eq in E1; subst c'|].
  { injection Hs as _ ->. by constructor. }
  destruct (c' =? ch "+")%N eqn:E2; [apply N.eqb_eq in E2; subst c'|].
  { injection Hs as _ ->. by constructor. }
  injection Hs as _ <-. exact Hcs.
Qed.

Lemma fraction_literal (s : jsstring) (fp : list Z) (r : jsstring) :
  fraction s = Some (fp, r) ->
  match s with
  | c :: r0 => if (c =? ch ".")%N then span_digits 10 r0 else ([], s)
  | [] => ([], s)
  end = (fp, r).
Proof.
  unfold fraction. destruct s as [|c r0]; [by intros [= <- <-]|].
  destruct (c =? ch ".")%N; [|by intros [= <- <-]].
  destruct (span_digits 10 r0) as [[|d fp'] r2]; [discriminate|]. by intros [= <- <-].
Qed.

Lemma fraction_solid (s : jsstring) (fp : list Z) (r : jsstring) :
  fraction s = Some (fp, r) -> exists t, s = t ++ r /\ solid t.
Proof.
  unfold fraction. destruct s as [|c r0].
  { intros [= <- <-]. exists []. split; [done | constructor]. }
  destruct (c =? ch ".")%N eqn:Hc.
  - destruct (span_digits 10 r0) as [[|d fp'] r2] eqn:Hd; [discriminate|].
    intros [= <- <-]. apply span_digits_inv in Hd as (cs & -> & Hcs & _).
    exists (c :: cs). split; [reflexivity|].
    apply N.eqb_eq in Hc. subst c. constructor; [reflexivity|].
    by apply digit_chars_solid.
  - intros [= <- <-]. exists []. split; [done | constructor].
Qed.

(** The text of a JSON number is a numeric literal for [Number], which
    reads the same value from it. *)
Lemma Number_of_token (s : jsstring) (x : number) :
  parse_number s = Some (x, []) -> Number s = x.
Proof.
  intros H.
  assert (Hnd : nonDecimalIntegerLiteral s = None).
  { unfold nonDecimalIntegerLiteral. destruct s as [|z [|c r]]; try reflexivity.
    destruct (z =? ch "0")%N eqn:Hz; [|reflexivity]. apply N.eqb_eq in Hz. subst z.
    destruct ((c =? ch "x") || (c =? ch "X"))%N eqn:H1.
    { exfalso. apply orb_true_iff in H1 as [E|E]; apply N.eqb_eq in E; subst c;
        vm_compute in H; discriminate. }
    destruct ((c =? ch "o") || (c =? ch "O"))%N eqn:H2.
    { exfalso. apply orb_true_iff in H2 as [E|E]; apply N.eqb_eq in E; subst c;
        vm_compute in H; discriminate. }
    destruct ((c =? ch "b") || (c =? ch "B"))%N eqn:H3.
    { exfalso. apply orb_true_iff in H3 as [E|E]; apply N.eqb_eq in E; subst c;
        vm_compute in H; discriminate. }
    reflexivity. }
  unfold parse_number in H.
  destruct (minus_sign s) as [negative r0] eqn:Hs.
  destruct (span_digits 10 r0) as [ip r1] eqn:Hip.
  destruct (int_ok ip) eqn:Hok; [|discriminate]. cbn [negb] in H.
  destruct (fraction r1) as [[fp r2]|] eqn:Hf; [|discriminate].
  destruct (exponent r2) as [[ex r4]|] eqn:He; [|discriminate].
  injection H as <- ->.
  pose proof (span_digits_inv _ _ _ Hip) as (cs & -> & Hcs & Hlen).
  destruct cs as [|c0 cs]; [by destruct ip|].
  pose proof (Forall_inv Hcs) as Hc0. cbn beta in Hc0.
  assert (Hsign : sign s = (negative, (c0 :: cs) ++ r1)
                  /\ s = (if negative then [ch "-"] else []) ++ (c0 :: cs) ++ r1).
  { unfold minus_sign in Hs. unfold sign. destruct s as [|c r]; [simpl in Hs; discriminate|].
    destruct (c =? ch "-")%N eqn:E.
    - apply N.eqb_eq in E. subst c. injection Hs as <- ->. split; reflexivity.
    - injection Hs as <- -> ->.
      assert (E2 : (c0 =? ch "+")%N = false).
      { apply N.eqb_neq. intros ->. vm_compute in Hc0. destruct Hc0 as [Hc0 _].
        by apply Hc0. }
      by rewrite E2. }
  destruct Hsign as [Hsign Hshape].
  destruct (fraction_solid _ _ _ Hf) as (ft & -> & Hft).
  assert (Hsolid : solid s).
  { rewrite Hshape. apply Forall_app. split; [destruct negative; by repeat constructor|].
    apply Forall_app. split; [by apply digit_chars_solid|].
    apply Forall_app. split; [exact Hft | by eapply exponent_solid]. }
  unfold Number. rewrite (trim_solid s Hsolid).
  destruct s as [|c s']; [by destruct negative|].
  rewrite Hnd. unfold strDecimalLiteral. rewrite Hsign.
  unfold strUnsignedDecimalLiteral.
  assert (Hinf : JSString.eqb ((c0 :: cs) ++ ft ++ r2) (str "Infinity") = false).
  { unfold JSString.eqb. apply bool_decide_eq_false. intros E.
    injection E as -> _. vm_compute in Hc0. destruct Hc0 as [_ Hc0]. by apply Hc0. }
  rewrite Hinf, Hip, (fraction_literal _ _ _ Hf).
  destruct (ip ++ fp) as [|d ds] eqn:Eds; [by destruct ip|].
  rewrite <- Eds. by rewrite (exponentPart_exponent _ _ He).
Qed.

(** [Number(String(x))] is [x]. *)
Lemma Number_numberToString (x : number) :
  canonical x = true -> Number (numberToString x) = x.
Proof.
  intros Hc. destruct x as [|b|m e]; [reflexivity | by destruct b |].
  apply Number_of_token.
  rewrite <- (app_nil_r (numberToString (Finite m e))).
  by apply number_roundtrip.
Qed.

Lemma numberToString_truthy (x : number) :
  canonical x = true -> x <> Finite 0 0 -> truthy (numberToString x) = true.
Proof.
  intros Hc Hx. destruct (numberToString x) eqn:E; [|reflexivity].
  exfalso. apply Hx. rewrite <- (Number_numberToString x Hc), E. reflexivity.
Qed.

(** ** Identifiers as numbers *)

Lemma compare_eq_canonical (x y : number) :
  canonical x = true -> canonical y = true -> compare x y = Some Eq -> x = y.
Proof.
  destruct x as [|a|m1 e1], y as [|b|m2 e2]; try discriminate.
  - intros _ _. by destruct a, b.
  - intros _ _. by destruct a.
  - intros _ _. by destruct b.
  - simpl. unfold compare_finite. intros H1 H2 [= E]. apply Z.compare_eq in E.
    assert (Hp1 : 0 < 10 ^ (e1 - Z.min e1 e2)) by (apply Z.pow_pos_nonneg; lia).
    assert (Hp2 : 0 < 10 ^ (e2 - Z.min e1 e2)) by (apply Z.pow_pos_nonneg; lia).
    destruct (Z.eqb_spec m1 0) as [->|Hm1].
    + apply Z.eqb_eq in H1. subst e1.
      assert (m2 = 0) by nia. subst m2. apply Z.eqb_eq in H2. by subst e2.
    + destruct (Z.eqb_spec m2 0) as [->|Hm2]; [nia|].
      apply negb_true_iff, Z.eqb_neq in H1, H2.
      destruct (pow10_factor m1 m2 (e1 - Z.min e1 e2) (e2 - Z.min e1 e2))
        as [-> He]; try lia; try assumption.
      f_equal. lia.
Qed.

Lemma compare_refl (x : number) : isNaN x = false -> compare x x = Some Eq.
Proof.
  destruct x as [|b|m e]; [discriminate | by destruct b |]. intros _. simpl.
  unfold compare_finite. by rewrite Z.compare_refl.
Qed.

Lemma ofZ_finite (i : Z) : isNaN (ofZ i) = false.
Proof.
  unfold ofZ, dec. destruct (i =? 0); [reflexivity|]. by destruct (strip10 _ _ _).
Qed.

Lemma ofZ_inj (i j : Z) : ofZ i = ofZ j -> i = j.
Proof.
  intros E. apply (f_equal (fun x => asInteger (Some (JNumber x)))) in E.
  rewrite !asInteger_ofZ in E. congruence.
Qed.

Lemma strictEquals_ofZ (i : Z) (y : number) :
  canonical y = true -> strictEquals (ofZ i) y = true <-> y = ofZ i.
Proof.
  intros Hy. unfold strictEquals. split.
  - destruct (compare (ofZ i) y) as [[]|] eqn:E; try discriminate. intros _.
    symmetry. apply compare_eq_canonical; [apply canonical_dec | exact Hy | exact E].
  - intros ->. by rewrite compare_refl by apply ofZ_finite.
Qed.

Lemma strictEquals_ids (i j : Z) : strictEquals (ofZ i) (ofZ j) = (i =? j).
Proof.
  destruct (Z.eqb_spec i j) as [->|Hne].
  - apply strictEquals_ofZ; [apply canonical_dec | reflexivity].
  - apply not_true_is_false. intros H.
    apply strictEquals_ofZ in H; [|apply canonical_dec]. by apply ofZ_inj in H.
Qed.

Lemma findByParam_integer (l : list Product) (text : jsstring) (i : Z) :
  Number text = ofZ i -> findByParam l (Some text) = findId l i.
Proof.
  intros E. unfold findByParam, findId, NumberOfParam. rewrite E.
  induction l as [|p l IH]; simpl; [reflexivity|].
  by rewrite strictEquals_ids, IH.
Qed.

Lemma findByParam_other (l : list Product) (text : jsstring) :
  (forall i, Number text <> ofZ i) -> findByParam l (Some text) = None.
Proof.
  intros H. unfold findByParam, NumberOfParam.
  induction l as [|p l IH]; simpl; [reflexivity|].
  destruct (strictEquals (ofZ (Product.id p)) (Number text)) eqn:E; [|exact IH].
  apply strictEquals_ofZ in E; [|apply canonical_Number]. by apply H in E.
Qed.

Lemma findByParam_link (l : list Product) (i : Z) :
  findByParam l (Some (numberToString (ofZ i))) = findId l i.
Proof. apply findByParam_integer, Number_numberToString, canonical_dec. Qed.

(** ** The list of the store as a map from identifiers *)

Lemma findId_Some (l : list Product) (i : Z) (p : Product) :
  findId l i = Some p -> p ∈ l /\ Product.id p = i.
Proof.
  unfold findId. intros H. apply find_some in H as [H1 H2].
  split; [by apply list_elem_of_In | by apply Z.eqb_eq].
Qed.

Lemma findId_None (l : list Product) (i : Z) :
  findId l i = None <-> i ∉ ids l.
Proof.
  unfold findId, ids. induction l as [|p l IH]; simpl.
  - split; [intros _; apply not_elem_of_nil | done].
  - rewrite not_elem_of_cons. destruct (Z.eqb_spec (Product.id p) i) as [E|E].
    + split; [discriminate | intros [H _]; congruence].
    + rewrite IH. split; [intros H; split; [congruence | exact H] | tauto].
Qed.

Lemma findId_unique (l : list Product) (p : Product) :
  NoDup (ids l) -> p ∈ l -> findId l (Product.id p) = Some p.
Proof.
  unfold findId, ids. induction l as [|q l IH]; simpl; intros Hd Hp.
  - by apply elem_of_nil in Hp.
  - apply NoDup_cons in Hd as [Hq Hd]. apply elem_of_cons in Hp as [->|Hp].
    + by rewrite Z.eqb_refl.
    + destruct (Z.eqb_spec (Product.id q) (Product.id p)) as [E|E]; [|by apply IH].
      exfalso. apply Hq. rewrite E. by apply list_elem_of_fmap_2.
Qed.

Lemma findId_update_same (p : Product) (l : list Product) :
  Product.id p ∈ ids l ->
  findId (List.map (fun q => if Product.id q =? Product.id p then p else q) l)
         (Product.id p) = Some p.
Proof.
  unfold findId, ids. induction l as [|q l IH]; simpl; intros H.
  - by apply elem_of_nil in H.
  - destruct (Z.eqb_spec (Product.id q) (Product.id p)) as [E|E].
    + by rewrite Z.eqb_refl.
    + apply elem_of_cons in H as [H|H]; [congruence|].
      destruct (Z.eqb_spec (Product.id q) (Product.id p)); [done|]. by apply IH.
Qed.

Lemma findId_update_other (p : Product) (l : list Product) (i : Z) :
  i <> Product.id p ->
  findId (List.map (fun q => if Product.id q =? Product.id p then p else q) l) i
  = findId l i.
Proof.
  unfold findId. intros Hi. induction l as [|q l IH]; simpl; [reflexivity|].
  destruct (Z.eqb_spec (Product.id q) (Product.id p)) as [E|E].
  - destruct (Z.eqb_spec (Product.id p) i); [congruence|].
    destruct (Z.eqb_spec (Product.id q) i); [congruence | exact IH].
  - by rewrite IH.
Qed.

Lemma findId_delete_same (l : list Product) (i : Z) :
  findId (List.filter (fun p => negb (Product.id p =? i)) l) i = None.
Proof.
  unfold findId. induction l as [|q l IH]; simpl; [reflexivity|].
  destruct (Z.eqb_spec (Product.id q) i) as [E|E]; simpl; [exact IH|].
  destruct (Z.eqb_spec (Product.id q) i); [done | exact IH].
Qed.

Lemma findId_delete_other (l : list Product) (i j : Z) :
  j <> i -> findId (List.filter (fun p => negb (Product.id p =? i)) l) j = findId l j.
Proof.
  unfold findId. intros Hj. induction l as [|q l IH]; simpl; [reflexivity|].
  destruct (Z.eqb_spec (Product.id q) i) as [E|E]; simpl.
  - destruct (Z.eqb_spec (Product.id q) j); [congruence | exact IH].
  - by rewrite IH.
Qed.

(** ** The list projection as one test *)

Lemma strip_prefix_spec (q s r : jsstring) : strip_prefix q s = Some r <-> s = q ++ r.
Proof.
  revert s. induction q as [|a q IH]; intros s; simpl.
  - split; [by intros [= ->] | by intros ->].
  - destruct s as [|b s]; [split; discriminate|].
    destruct (N.eqb_spec a b) as [->|Hne].
    + rewrite IH. split; [by intros -> | by intros [= ->]].
    + split; [discriminate | intros [= E _]; congruence].
Qed.

(** [s.includes(q)] holds exactly when [q] is a run of code units of [s]. *)
Lemma includes_spec (s q : jsstring) :
  includes s q = true <-> exists a b, s = a ++ q ++ b.
Proof.
  split.
  - induction s as [|c s IH]; simpl.
    + destruct (strip_prefix q []) as [r|] eqn:E; [|discriminate].
      intros _. apply strip_prefix_spec in E. by exists [], r.
    + destruct (strip_prefix q (c :: s)) as [r|] eqn:E.
      * intros _. apply strip_prefix_spec in E. by exists [], r.
      * intros H. destruct (IH H) as (a & b & ->). by exists (c :: a), b.
  - intros (a & b & ->). induction a as [|c a IH].
    + assert (E : strip_prefix q (q ++ b) = Some b) by (by apply strip_prefix_spec).
      simpl. destruct (q ++ b) eqn:Eq; simpl; by rewrite E.
    + simpl. destruct (strip_prefix q (c :: a ++ q ++ b)); [reflexivity | exact IH].
Qed.

Lemma filter_and {A : Type} (f g : A -> bool) (l : list A) :
  List.filter g (List.filter f l) = List.filter (fun x => f x && g x) l.
Proof.
  induction l as [|x l IH]; simpl; [reflexivity|].
  destruct (f x); simpl; [destruct (g x)|]; by rewrite IH.
Qed.

Lemma filtered_passes (toLowerCase : jsstring -> jsstring) (l : list Product)
    (f : FilterState) :
  filtered toLowerCase l f = List.filter (passes toLowerCase f) l.
Proof.
  unfold filtered. cbv zeta.
  assert (H1 : byText toLowerCase f l
    = List.filter (fun p =>
        if truthy (trim (FilterState.q f))
        then includes (toLowerCase (Product.ten p)) (toLowerCase (FilterState.q f))
        else true) l).
  { unfold byText. destruct (truthy _); [reflexivity | by rewrite filter_true]. }
  assert (H2 : forall l, byDanhMuc f l
    = List.filter (fun p =>
        match FilterState.danhMuc f with
        | Some c => bool_decide (Product.danhMuc p = c)
        | None => true
        end) l).
  { intros l0. unfold byDanhMuc. destruct (FilterState.danhMuc f);
      [reflexivity | by rewrite filter_true]. }
  assert (H3 : forall l, byMin f l
    = List.filter (fun p =>
        match bound (FilterState.min f) with
        | Some m => if isNaN m then true else geb (Product.gia p) m
        | None => true
        end) l).
  { intros l0. unfold byMin. destruct (bound (FilterState.min f)) as [m|];
      [|by rewrite filter_true].
    destruct (isNaN m); simpl; [by rewrite filter_true | reflexivity]. }
  assert (H4 : forall l, byMax f l
    = List.filter (fun p =>
        match bound (FilterState.max f) with
        | Some m => if isNaN m then true else leb (Product.gia p) m
        | None => true
        end) l).
  { intros l0. unfold byMax. destruct (bound (FilterState.max f)) as [m|];
      [|by rewrite filter_true].
    destruct (isNaN m); simpl; [by rewrite filter_true | reflexivity]. }
  rewrite H4, H3, H2, H1, !filter_and. apply List.filter_ext.
  intros p. unfold passes. by rewrite !andb_assoc.
Qed.

Lemma passes_spec (toLowerCase : jsstring -> jsstring) (f : FilterState) (p : Product) :
  passes toLowerCase f p = true
  <-> (trim (FilterState.q f) <> [] ->
       exists a b, toLowerCase (Product.ten p) = a ++ toLowerCase (FilterState.q f) ++ b)
      /\ (forall c, FilterState.danhMuc f = Some c -> Product.danhMuc p = c)
      /\ (FilterState.min f <> [] -> isNaN (Number (FilterState.min f)) = false ->
          geb (Product.gia p) (Number (FilterState.min f)) = true)
      /\ (FilterState.max f <> [] -> isNaN (Number (FilterState.max f)) = false ->
          leb (Product.gia p) (Number (FilterState.max f)) = true).
Proof.
  unfold passes, bound. rewrite !andb_true_iff.
  assert (Ht : forall s : jsstring, truthy s = true <-> s <> [])
    by (intros [|? ?]; simpl; split; congruence).
  assert (A1 : (if truthy (trim (FilterState.q f))
                then includes (toLowerCase (Product.ten p)) (toLowerCase (FilterState.q f))
                else true) = true
               <-> (trim (FilterState.q f) <> [] ->
                    exists a b, toLowerCase (Product.ten p)
                                = a ++ toLowerCase (FilterState.q f) ++ b)).
  { rewrite <- includes_spec, <- Ht. destruct (truthy _); [tauto|].
    split; [discriminate | reflexivity]. }
  assert (A2 : match FilterState.danhMuc f with
               | Some c => bool_decide (Product.danhMuc p = c)
               | None => true
               end = true
               <-> forall c, FilterState.danhMuc f = Some c -> Product.danhMuc p = c).
  { destruct (FilterState.danhMuc f) as [c|].
    - rewrite bool_decide_eq_true. split; [by intros -> c' [= <-] | eauto].
    - split; [discriminate | reflexivity]. }
  assert (A3 : forall text (cmp : number -> number -> bool),
    match (if truthy text then Some (Number text) else None) with
    | Some m => if isNaN m then true else cmp (Product.gia p) m
    | None => true
    end = true
    <-> (text <> [] -> isNaN (Number text) = false -> cmp (Product.gia p) (Number text) = true)).
  { intros text cmp. rewrite <- Ht.
    destruct (truthy text); [|split; [intros _ ?; discriminate | reflexivity]].
    destruct (isNaN (Number text)); [split; [intros _ _ ?; discriminate | reflexivity]|].
    split; [intros H _ _; exact H | intros H; by apply H]. }
  rewrite A1, A2, (A3 _ geb), (A3 _ leb). tauto.
Qed.

(** ** Pages of a list *)

Lemma pageItems_take_drop (l : list Product) (page : Z) :
  1 <= page ->
  pageItems l page = take 6 (drop (6 * Z.to_nat (page - 1)) l).
Proof.
  intros Hp. unfold pageItems, slice, PAGE_SIZE.
  destruct (Z.ltb_spec ((page - 1) * 6) 0); [lia|].
  destruct (Z.ltb_spec ((page - 1) * 6 + 6) 0); [lia|].
  set (len := Z.of_nat (length l)).
  destruct (Z.le_gt_cases len ((page - 1) * 6)) as [Hout|Hin].
  - rewrite !drop_ge by lia. by rewrite !take_nil.
  - replace (Z.to_nat (Z.min ((page - 1) * 6) len)) with (6 * Z.to_nat (page - 1))%nat
      by lia.
    destruct (Z.le_gt_cases ((page - 1) * 6 + 6) len) as [Hfull|Hpart].
    + f_equal. lia.
    + rewrite !take_ge; [reflexivity | |]; rewrite length_drop; lia.
Qed.

Lemma concat_pages (l : list Product) (n : nat) :
  concat (List.map (fun i => take 6 (drop (6 * i) l)) (seq 0 n)) = take (6 * n) l.
Proof.
  induction n as [|n IH]; [reflexivity|].
  rewrite seq_S, List.map_app, concat_app, IH. cbn [List.map concat].
  rewrite app_nil_r, Nat.add_0_l.
  replace (6 * S n)%nat with (6 * n + 6)%nat by lia.
  apply take_take_drop.
Qed.

Lemma totalPages_covers (total : Z) : 0 <= total -> total <= 6 * totalPages total.
Proof.
  intros H. unfold totalPages. destruct (Z.eq_dec total 0) as [->|Hz]; [done|].
  pose proof (ceil_div_spec total). unfold PAGE_SIZE in *. lia.
Qed.

Lemma totalPages_tight (total : Z) :
  0 < total -> 6 * (totalPages total - 1) < total.
Proof.
  intros H. unfold totalPages. pose proof (ceil_div_spec total H).
  unfold PAGE_SIZE in *. lia.
Qed.

Lemma pages_consecutive (total : Z) :
  pages total = consecutive 1 (Z.to_nat (totalPages total)).
Proof.
  unfold pages, consecutive. apply List.map_ext. intros k. lia.
Qed.

Lemma concat_pageItems (l : list Product) :
  concat (List.map (pageItems l) (pages (Z.of_nat (length l)))) = l.
Proof.
  unfold pages. rewrite List.map_map.
  rewrite (List.map_ext_in _ (fun i => take 6 (drop (6 * i) l))).
  - rewrite concat_pages. apply take_ge.
    pose proof (totalPages_covers (Z.of_nat (length l))). lia.
  - intros i _. rewrite pageItems_take_drop by lia. do 3 f_equal. lia.
Qed.

Lemma length_pageItems (l : list Product) (page : Z) :
  1 <= page ->
  Z.of_nat (length (pageItems l page))
  = Z.max 0 (Z.min 6 (Z.of_nat (length l) - 6 * (page - 1))).
Proof.
  intros Hp. rewrite pageItems_take_drop by exact Hp.
  rewrite length_take, length_drop. lia.
Qed.

Lemma lookup_pageItems (l : list Product) (page : Z) (k : nat) :
  1 <= page -> (k < 6)%nat ->
  pageItems l page !! k = l !! (6 * Z.to_nat (page - 1) + k)%nat.
Proof.
  intros Hp Hk. rewrite pageItems_take_drop by exact Hp.
  rewrite lookup_take_lt by exact Hk. by rewrite lookup_drop.
Qed.

(** ** From the pages to the store and back *)

Lemma filtered_emptyFilter (toLowerCase : jsstring -> jsstring) (l : list Product) :
  filtered toLowerCase l emptyFilter = l.
Proof. reflexivity. Qed.

Lemma strip_prefix_app (a b : jsstring) : strip_prefix a (a ++ b) = Some b.
Proof. by apply strip_prefix_spec. Qed.

(** X1.  The route parameter is read with [Number]: a missing parameter and a
    text that denotes no integer find nothing; a text that denotes the
    integer [i], in whatever spelling, finds the first product of the list
    whose identifier is [i]. *)
Theorem route_parameter_lookup (l : list Product) :
  findByParam l None = None
  /\ (forall text i, Number text = ofZ i -> findByParam l (Some text) = findId l i)
  /\ (forall text, (forall i, Number text <> ofZ i) -> findByParam l (Some text) = None)
  /\ (forall text p, findByParam l (Some text) = Some p ->
        p ∈ l /\ Number text = ofZ (Product.id p))
  /\ (forall text, findByParam l (Some text) = None ->
        forall p, p ∈ l -> Number text <> ofZ (Product.id p))
  /\ (forall id, EditPage l id = EditNotFound id <-> findByParam l id = None)
  /\ (forall id, DetailPage l id = DetailNotFound id <-> findByParam l id = None).
Proof.
  split; [|split; [|split; [|split; [|split; [|split]]]]].
  - unfold findByParam, NumberOfParam. induction l as [|p l IH]; [reflexivity|].
    simpl. unfold strictEquals at 1. by destruct (ofZ (Product.id p)).
  - intros text i. apply findByParam_integer.
  - intros text. apply findByParam_other.
  - intros text p H. unfold findByParam in H. apply find_some in H as [H1 H2].
    split; [by apply list_elem_of_In|].
    by apply strictEquals_ofZ in H2; [|apply canonical_Number].
  - intros text H p Hp E. unfold findByParam in H.
    apply list_elem_of_In in Hp. apply (find_none _ _ H) in Hp.
    simpl in Hp. rewrite E in Hp.
    by rewrite strictEquals_ids, Z.eqb_refl in Hp.
  - intros id. unfold EditPage. destruct (findByParam l id); split; congruence.
  - intros id. unfold DetailPage. destruct (findByParam l id); split; congruence.
Qed.

Lemma route_parameter_lookup_witness :
  findByParam initialProducts (Some (str " 0x3 ")) = findId initialProducts 3.
Proof.
  destruct (route_parameter_lookup initialProducts) as (_ & H & _).
  apply H. reflexivity.
Defined.

(** X2.  The buttons of a product card lead to the pages of that product: in a
    list with pairwise distinct identifiers, the text after the prefix of
    the edit path and of the detail path is a route parameter under which
    EditPage opens the form on that product and DetailPage shows it. *)
Theorem links_open_their_product (l : list Product) (p : Product) :
  NoDup (ids l) -> p ∈ l ->
  EditPage l (strip_prefix (str "/edit/") (editPath (Product.id p)))
  = EditForm (ModeEdit p)
  /\ DetailPage l (strip_prefix (str "/products/") (detailPath (Product.id p)))
     = Detail p
  /\ initialValues (ModeEdit p)
     = FormValues.mk (Product.ten p) (Some (Product.danhMuc p))
                     (numberToString (Product.gia p))
                     (numberToString (Product.soLuong p)) (Product.moTa p).
Proof.
  intros Hd Hp. unfold editPath, detailPath, EditPage, DetailPage.
  rewrite !strip_prefix_app, findByParam_link, (findId_unique l p Hd Hp). done.
Qed.

Lemma links_open_their_product_witness :
  EditPage initialProducts (strip_prefix (str "/edit/") (editPath 2))
  = EditForm (ModeEdit (Product.mk 2 (str "Áo Thun Nam") QuanAo (ofZ 150000) (ofZ 50)
                                   (str "Cotton 100%, form regular fit."))).
Proof.
  refine (proj1 (links_open_their_product initialProducts
    (Product.mk 2 (str "Áo Thun Nam") QuanAo (ofZ 150000) (ofZ 50)
                (str "Cotton 100%, form regular fit.")) _ _)).
  - apply (bool_decide_unpack _). vm_compute. exact I.
  - apply list_elem_of_In. simpl. right. left. reflexivity.
Defined.

(** X3.  After the add page hands a draft to the store it navigates to
    the list path.  There, with no query in the URL and on page 1, the new
    product is the first card, followed by the first five products of the
    list before.  The new product has the fields of the draft and the
    counter as its identifier; the detail page of that identifier shows
    it, and the lookup of every other identifier is as before. *)
Theorem added_product_is_listed_first (toLowerCase : jsstring -> jsstring)
    (ls : Storage) (s : ProductState) (d : Draft) :
  snd (AddPage_onSubmit ls s d) = str "/"
  /\ asFilterState (useFilterParams_state []) = Some emptyFilter
  /\ ProductListPage toLowerCase (products (snd (fst (AddPage_onSubmit ls s d))))
                     emptyFilter 1
     = Grid (withId (nextId s) d :: take 5 (products s))
            (Pagination (Z.of_nat (length (products s)) + 1) 1)
  /\ Product.id (withId (nextId s) d) = nextId s
  /\ toDraft (withId (nextId s) d) = d
  /\ DetailPage (products (snd (fst (AddPage_onSubmit ls s d))))
                (strip_prefix (str "/products/") (detailPath (nextId s)))
     = Detail (withId (nextId s) d)
  /\ (forall i, i <> nextId s ->
        findId (products (snd (fst (AddPage_onSubmit ls s d)))) i
        = findId (products s) i).
Proof.
  split; [reflexivity|]. split; [reflexivity|].
  split; [|split; [reflexivity|split; [apply toDraft_withId|split]]].
  - unfold ProductListPage. rewrite filtered_emptyFilter. cbv zeta.
    cbn [AddPage_onSubmit ProductContext.add reducer fst snd products].
    rewrite pageItems_take_drop by lia.
    cbn [length]. rewrite Nat2Z.inj_succ.
    destruct (Z.eqb_spec (Z.succ (Z.of_nat (length (products s)))) 0); [lia|].
    reflexivity.
  - unfold detailPath, DetailPage. rewrite strip_prefix_app, findByParam_link.
    cbn [AddPage_onSubmit ProductContext.add reducer fst snd products].
    unfold findId. cbn [find withId Product.id]. by rewrite Z.eqb_refl.
  - intros i Hi. cbn [AddPage_onSubmit ProductContext.add reducer fst snd products].
    unfold findId. cbn [find withId Product.id].
    by destruct (Z.eqb_spec (nextId s) i); [congruence|].
Qed.

Lemma added_product_is_listed_first_witness :
  findId (products (snd (fst (AddPage_onSubmit (emptyStorage 0)
                                               (mkState initialProducts 12) sampleDraft)))) 3
  = findId initialProducts 3.
Proof.
  destruct (added_product_is_listed_first lowerASCII (emptyStorage 0)
              (mkState initialProducts 12) sampleDraft) as (_ & _ & _ & _ & _ & _ & H).
  apply H. simpl. lia.
Defined.

Lemma submit_edit_payload (initial : Product) (v : FormValues)
    (touched : gmap jsstring bool) (p : Product) :
  snd (submit (ModeEdit initial) v touched) = Some (FullProduct p) ->
  Product.id p = Product.id initial.
Proof.
  unfold submit. destruct (negb (size (validate v) =? 0)%nat); [discriminate|].
  destruct (FormValues.danhMuc v); [|discriminate]. simpl. by intros [= <-].
Qed.

(** X4.  The edit page opened on a product of the list, once its form hands
    over a product, replaces the stored product by it and navigates to its
    detail path; the detail page there shows the product as submitted.
    The identifier, the counter and the lookup of every other identifier
    are as before. *)
Theorem saved_edit_is_shown (ls : Storage) (s : ProductState) (id : option jsstring)
    (initial : Product) (v : FormValues) (touched : gmap jsstring bool) (p : Product) :
  findByParam (products s) id = Some initial ->
  snd (submit (ModeEdit initial) v touched) = Some (FullProduct p) ->
  EditPage (products s) id = EditForm (ModeEdit initial)
  /\ Product.id p = Product.id initial
  /\ snd (EditPage_onSubmit ls s p) = detailPath (Product.id initial)
  /\ DetailPage (products (snd (fst (EditPage_onSubmit ls s p))))
                (strip_prefix (str "/products/") (snd (EditPage_onSubmit ls s p)))
     = Detail p
  /\ nextId (snd (fst (EditPage_onSubmit ls s p))) = nextId s
  /\ (forall i, i <> Product.id initial ->
        findId (products (snd (fst (EditPage_onSubmit ls s p)))) i
        = findId (products s) i).
Proof.
  intros Hfind Hsubmit.
  pose proof (submit_edit_payload initial v touched p Hsubmit) as Hid.
  split; [unfold EditPage; by rewrite Hfind|]. split; [exact Hid|].
  split; [unfold EditPage_onSubmit; simpl; by rewrite Hid|].
  assert (Hin : Product.id p ∈ ids (products s)).
  { unfold findByParam in Hfind. apply find_some in Hfind as [Hin _].
    rewrite Hid. unfold ids. apply list_elem_of_fmap_2. by apply list_elem_of_In. }
  split; [|split; [reflexivity|]].
  - unfold DetailPage, EditPage_onSubmit, detailPath. cbn [fst snd].
    rewrite strip_prefix_app, findByParam_link.
    cbn [ProductContext.update reducer snd products].
    by rewrite (findId_update_same p (products s) Hin).
  - intros i Hi. cbn [EditPage_onSubmit ProductContext.update reducer fst snd products].
    apply findId_update_other. congruence.
Qed.

Lemma saved_edit_is_shown_witness :
  DetailPage (products (snd (fst (EditPage_onSubmit (emptyStorage 0)
                (mkState initialProducts 12)
                (Product.mk 4 (str "Trà") DoAn (ofZ 9000) (ofZ 5) (str "Trà xanh"))))))
             (strip_prefix (str "/products/")
                (snd (EditPage_onSubmit (emptyStorage 0) (mkState initialProducts 12)
                        (Product.mk 4 (str "Trà") DoAn (ofZ 9000) (ofZ 5) (str "Trà xanh")))))
  = Detail (Product.mk 4 (str "Trà") DoAn (ofZ 9000) (ofZ 5) (str "Trà xanh")).
Proof.
  refine (proj1 (proj2 (proj2 (proj2
    (saved_edit_is_shown (emptyStorage 0) (mkState initialProducts 12) (Some (str "4"))
       (Product.mk 4 (str "Sách Dạy Nấu Ăn") Sach (ofZ 99000) (ofZ 40)
                   (str "Tuyển tập công thức dễ làm."))
       (FormValues.mk (str "Trà") (Some DoAn) (str "9000") (str "5") (str "Trà xanh"))
       ∅ (Product.mk 4 (str "Trà") DoAn (ofZ 9000) (ofZ 5) (str "Trà xanh")) _ _))))).
  - vm_compute. reflexivity.
  - vm_compute. reflexivity.
Defined.

(** X5.  A confirmed delete on the detail page removes every product with that
    identifier and navigates to the list path: the detail and edit pages
    of the identifier then find nothing, no filter shows a product with
    it, and the lookup of every other identifier is as before.  Without
    the confirmation nothing changes, on the detail page and on the list
    page alike. *)
Theorem deleted_product_is_gone (toLowerCase : jsstring -> jsstring)
    (ls : Storage) (s : ProductState) (p : Product) :
  snd (DetailPage_onDelete true ls s p) = Some (str "/")
  /\ (forall text, Number text = ofZ (Product.id p) ->
        DetailPage (products (snd (fst (DetailPage_onDelete true ls s p)))) (Some text)
        = DetailNotFound (Some text)
        /\ EditPage (products (snd (fst (DetailPage_onDelete true ls s p)))) (Some text)
           = EditNotFound (Some text))
  /\ (forall f, Forall (fun q => Product.id q <> Product.id p)
        (filtered toLowerCase (products (snd (fst (DetailPage_onDelete true ls s p)))) f))
  /\ (forall i, i <> Product.id p ->
        findId (products (snd (fst (DetailPage_onDelete true ls s p)))) i
        = findId (products s) i)
  /\ DetailPage_onDelete false ls s p = ((ls, s), None)
  /\ ProductListPage_onDelete false ls s (Product.id p) = (ls, s)
  /\ ProductListPage_onDelete true ls s (Product.id p)
     = fst (DetailPage_onDelete true ls s p).
Proof.
  split; [reflexivity|].
  cbn [DetailPage_onDelete ProductContext.remove reducer fst snd products].
  split; [|split; [|split; [|by repeat split]]].
  - intros text E. unfold DetailPage, EditPage.
    by rewrite (findByParam_integer _ text _ E), findId_delete_same.
  - intros f. rewrite filtered_passes. apply Forall_forall. intros q Hq.
    apply list_elem_of_In, filter_In in Hq as [Hq _].
    apply filter_In in Hq as [_ Hq]. apply negb_true_iff in Hq.
    by destruct (Z.eqb_spec (Product.id q) (Product.id p)).
  - intros i Hi. by apply findId_delete_other.
Qed.

Lemma deleted_product_is_gone_witness :
  DetailPage (products (snd (fst (DetailPage_onDelete true (emptyStorage 0)
                (mkState initialProducts 12) (sampleProduct 3))))) (Some (str "3.0"))
  = DetailNotFound (Some (str "3.0")).
Proof.
  destruct (deleted_product_is_gone lowerASCII (emptyStorage 0)
              (mkState initialProducts 12) (sampleProduct 3)) as (_ & H & _).
  apply H. reflexivity.
Defined.

Lemma filter_all {A : Type} (f : A -> bool) (l : list A) :
  Forall (fun x => f x = true) l -> List.filter f l = l.
Proof. induction 1 as [|x l Hx _ IH]; simpl; [reflexivity|]. by rewrite Hx, IH. Qed.

(** X6.  Removing the product just added gives back the list as it was, when
    every identifier of the list was below the counter; the counter is not
    set back. *)
Theorem remove_undoes_add (ls : Storage) (s : ProductState) (d : Draft) :
  below_counter s ->
  products (snd (ProductContext.remove (fst (ProductContext.add ls s d))
                                       (snd (ProductContext.add ls s d)) (nextId s)))
  = products s
  /\ nextId (snd (ProductContext.remove (fst (ProductContext.add ls s d))
                                        (snd (ProductContext.add ls s d)) (nextId s)))
     = numberAdd (nextId s) 1
  /\ fst (ProductContext.remove (fst (ProductContext.add ls s d))
                                (snd (ProductContext.add ls s d)) (nextId s))
     = persist (persist ls (withId (nextId s) d :: products s)) (products s).
Proof.
  intros Hb.
  assert (E : List.filter (fun p => negb (Product.id p =? nextId s))
                          (withId (nextId s) d :: products s) = products s).
  { simpl. rewrite Z.eqb_refl. simpl. apply filter_all.
    eapply Forall_impl; [exact Hb|]. simpl. intros p Hp.
    apply negb_true_iff, Z.eqb_neq. lia. }
  unfold ProductContext.remove, ProductContext.add.
  cbn [reducer fst snd products nextId]. by rewrite E.
Qed.

Lemma remove_undoes_add_witness :
  products (snd (ProductContext.remove
     (fst (ProductContext.add (emptyStorage 0) (mkState initialProducts 12) sampleDraft))
     (snd (ProductContext.add (emptyStorage 0) (mkState initialProducts 12) sampleDraft))
     12))
  = initialProducts.
Proof.
  refine (proj1 (remove_undoes_add (emptyStorage 0) (mkState initialProducts 12)
                                   sampleDraft _)).
  unfold below_counter. simpl. repeat constructor; simpl; lia.
Defined.

(** ** A session and its reload *)

Lemma toJSON_storable (p : Product) : storable p -> faithful (toJSON p).
Proof.
  intros (Hg1 & Hg2 & Hn1 & Hn2).
  unfold toJSON. cbn [faithful List.map fst fold_right snd]. split.
  - apply (bool_decide_unpack _). vm_compute. exact I.
  - pose proof (canonical_dec (Product.id p) 0) as Hc.
    assert (Hf : isFinite (ofZ (Product.id p)) = true).
    { unfold ofZ, dec. destruct (Product.id p =? 0); [reflexivity|].
      by destruct (strip10 _ _ _). }
    repeat split; auto.
Qed.

Lemma products_storable (l : list Product) :
  Forall storable l -> faithful (JArray (List.map toJSON l)).
Proof.
  induction 1 as [|p l Hp _ IH]; simpl; [exact I|].
  split; [by apply toJSON_storable | exact IH].
Qed.

Lemma reducer_persists (ls : Storage) (s : ProductState) (a : Action) :
  isHydrate a = false ->
  fst (reducer ls s a) = persist ls (products (snd (reducer ls s a))).
Proof. by destruct a. Qed.

Lemma load_persisted (ls : Storage) (l : list Product) :
  Forall storable l ->
  (usage (<[LS_KEY := stringify (JArray (List.map toJSON l))]> (items ls)) <= quota ls)%N ->
  loadFromStorage (persist ls l) = Some (JArray (List.map toJSON l)).
Proof.
  intros Hl Hroom. unfold persist. rewrite (setItem_room ls _ _ Hroom).
  unfold loadFromStorage, getItem. cbn [items]. rewrite lookup_insert_eq.
  rewrite stringify_array_truthy. by apply parse_stringify, products_storable.
Qed.

Lemma mount_persisted (ls : Storage) (l : list Product) :
  l <> [] -> Forall storable l ->
  (usage (<[LS_KEY := stringify (JArray (List.map toJSON l))]> (items ls)) <= quota ls)%N ->
  mount (persist ls l) = Some (persist ls l, mkState l (numberAdd (Z.max 0 (max_id l)) 1)).
Proof.
  intros Hne Hl Hroom. unfold mount. rewrite (load_persisted ls l Hl Hroom).
  unfold hydratePayload. destruct l as [|p l]; [done|].
  simpl truthy_json. simpl truthy_length. cbn [andb].
  rewrite asProducts_toJSON. cbn [reducer]. by rewrite hydrate_counter.
Qed.

Lemma max_id_below (l : list Product) (n : Z) :
  l <> [] -> Forall (fun p => Product.id p < n) l -> max_id l < n.
Proof.
  unfold max_id, ids. destruct l as [|p l]; [done|]. intros _ H.
  apply Forall_cons in H as [Hp Hl]. simpl.
  revert Hp. generalize (Product.id p). induction Hl as [|q l Hq _ IH]; intros i Hi.
  - exact Hi.
  - simpl. apply IH. lia.
Qed.

(** X7.  What a session leaves in the store is what the next session starts
    from: after an add, an update or a remove that the store has room for,
    a mount on that store hydrates the list of the state, when the list is
    not empty and its numbers are storable.  The counter is then one above
    the largest identifier left; with every identifier below a counter of
    at most 2^53, that is never above the counter of the session that
    wrote. *)
Theorem reload_restores_session (ls : Storage) (s : ProductState) (a : Action) :
  isHydrate a = false ->
  products (snd (reducer ls s a)) <> [] ->
  Forall storable (products (snd (reducer ls s a))) ->
  (usage (<[LS_KEY := stringify (JArray (List.map toJSON (products (snd (reducer ls s a)))))]>
            (items ls)) <= quota ls)%N ->
  mount (fst (reducer ls s a))
  = Some (fst (reducer ls s a),
          mkState (products (snd (reducer ls s a)))
                  (numberAdd (Z.max 0 (max_id (products (snd (reducer ls s a))))) 1))
  /\ (below_counter (snd (reducer ls s a)) ->
      1 <= nextId (snd (reducer ls s a)) <= two53 ->
      numberAdd (Z.max 0 (max_id (products (snd (reducer ls s a))))) 1
      <= nextId (snd (reducer ls s a))).
Proof.
  intros Ha Hne Hl Hroom. split.
  - rewrite (reducer_persists ls s a Ha). by apply mount_persisted.
  - intros Hb H1. pose proof (max_id_below _ _ Hne Hb) as Hm.
    rewrite numberAdd_exact by (unfold counts_exactly, two53 in *; lia). lia.
Qed.

Lemma reload_restores_session_witness :
  mount (fst (reducer (emptyStorage 5242880) (mkState initialProducts 12) (A_delete 11)))
  = Some (fst (reducer (emptyStorage 5242880) (mkState initialProducts 12) (A_delete 11)),
          mkState (products (snd (reducer (emptyStorage 5242880)
                                          (mkState initialProducts 12) (A_delete 11))))
                  (numberAdd (Z.max 0 (max_id (products (snd (reducer (emptyStorage 5242880)
                                          (mkState initialProducts 12) (A_delete 11)))))) 1)).
Proof.
  refine (proj1 (reload_restores_session (emptyStorage 5242880)
                   (mkState initialProducts 12) (A_delete 11) _ _ _ _)).
  - reflexivity.
  - discriminate.
  - repeat constructor.
  - vm_compute. discriminate.
Defined.

(** The counter falls back on reload: with product 11 removed, the
    session that follows hands out 11 again. *)
Example reload_reuses_identifier :
  nextId (mkState initialProducts 12) = 12
  /\ (snd <$> mount (fst (reducer (emptyStorage 5242880) (mkState initialProducts 12)
                                  (A_delete 11))))
     = Some (mkState (take 10 initialProducts) 11).
Proof. vm_compute. split; reflexivity. Qed.

(** X8.  When the last product is removed the store holds the text of the empty
    array, and the next mount hydrates the seed catalog of 11 products and
    the counter 12. *)
Theorem emptied_catalog_is_reseeded (ls : Storage) (s : ProductState) (a : Action) :
  isHydrate a = false ->
  products (snd (reducer ls s a)) = [] ->
  (usage (<[LS_KEY := str "[]"]> (items ls)) <= quota ls)%N ->
  getItem (fst (reducer ls s a)) LS_KEY = Some (str "[]")
  /\ loadFromStorage (fst (reducer ls s a)) = Some (JArray [])
  /\ mount (fst (reducer ls s a))
     = Some (fst (reducer ls s a), mkState initialProducts 12).
Proof.
  intros Ha He Hroom. rewrite (reducer_persists ls s a Ha), He.
  unfold persist. change (stringify (JArray (List.map toJSON []))) with (str "[]").
  rewrite (setItem_room ls _ _ Hroom).
  assert (Hget : getItem (mkStorage (<[LS_KEY := str "[]"]> (items ls)) (quota ls)) LS_KEY
                 = Some (str "[]")).
  { unfold getItem. cbn [items]. apply lookup_insert_eq. }
  assert (Hload : loadFromStorage (mkStorage (<[LS_KEY := str "[]"]> (items ls)) (quota ls))
                  = Some (JArray [])).
  { unfold loadFromStorage. rewrite Hget. reflexivity. }
  split; [exact Hget|]. split; [exact Hload|].
  unfold mount. rewrite Hload. reflexivity.
Qed.

Lemma emptied_catalog_is_reseeded_witness :
  mount (fst (reducer (emptyStorage 100) (mkState [sampleProduct 7] 8) (A_delete 7)))
  = Some (fst (reducer (emptyStorage 100) (mkState [sampleProduct 7] 8) (A_delete 7)),
          mkState initialProducts 12).
Proof.
  refine (proj2 (proj2 (emptied_catalog_is_reseeded (emptyStorage 100)
                          (mkState [sampleProduct 7] 8) (A_delete 7) _ _ _))).
  - reflexivity.
  - reflexivity.
  - vm_compute. discriminate.
Defined.

(** ** Trimmed texts *)

Lemma trimStart_head (s : jsstring) :
  match trimStart s with
  | [] => True
  | c :: _ => isWhiteSpace c = false
  end.
Proof.
  induction s as [|c s IH]; simpl; [exact I|].
  destruct (isWhiteSpace c) eqn:E; [exact IH | exact E].
Qed.

Lemma trimStart_fixed (s : jsstring) :
  match s with
  | [] => True
  | c :: _ => isWhiteSpace c = false
  end -> trimStart s = s.
Proof. destruct s as [|c s]; simpl; [done|]. by intros ->. Qed.

Lemma trimStart_suffix (s : jsstring) : exists ws, s = ws ++ trimStart s.
Proof.
  induction s as [|c s [ws IH]]; simpl; [by exists []|].
  destruct (isWhiteSpace c); [|by exists []].
  exists (c :: ws). simpl. by rewrite <- IH.
Qed.

Lemma trim_trim (s : jsstring) : trim (trim s) = trim s.
Proof.
  unfold trim, trimEnd.
  set (t := trimStart s).
  set (u := trimStart (rev t)).
  assert (Hu : trimStart u = u) by (apply trimStart_fixed, trimStart_head).
  assert (Hr : trimStart (rev u) = rev u).
  { apply trimStart_fixed. destruct (rev u) as [|c r] eqn:E; [exact I|].
    destruct (trimStart_suffix (rev t)) as [ws Hws]. fold u in Hws.
    apply (f_equal (@rev _)) in Hws. rewrite rev_involutive, rev_app_distr, E in Hws.
    pose proof (trimStart_head s) as Hh. fold t in Hh. by rewrite Hws in Hh. }
  by rewrite Hr, rev_involutive, Hu.
Qed.

(** ** The form *)

Lemma ltb_zero_finite (x : number) : ltb (Finite 0 0) x = true -> isNaN x = false.
Proof. by destruct x. Qed.

Lemma update_same (p : Product) (l : list Product) :
  NoDup (ids l) -> p ∈ l ->
  List.map (fun q => if Product.id q =? Product.id p then p else q) l = l.
Proof.
  unfold ids. induction l as [|q l IH]; simpl; intros Hd Hp; [reflexivity|].
  apply NoDup_cons in Hd as [Hq Hd]. apply elem_of_cons in Hp as [->|Hp].
  - rewrite Z.eqb_refl. f_equal. apply update_absent. exact Hq.
  - destruct (Z.eqb_spec (Product.id q) (Product.id p)) as [E|E].
    + exfalso. apply Hq. rewrite E. by apply list_elem_of_fmap_2.
    + f_equal. by apply IH.
Qed.

(** X9.  The edit form of a product, submitted as it was filled in, hands the
    product back: [Number] reads from the price and quantity fields the
    numbers that [String] wrote into them, and only the white space around
    the name and the description goes.  So saving without a change leaves
    a list with distinct identifiers as it was. *)
Theorem unchanged_edit_form_resubmits (p : Product) (touched : gmap jsstring bool) :
  (3 <= length (trim (Product.ten p)))%nat ->
  trim (Product.moTa p) <> [] ->
  canonical (Product.gia p) = true -> ltb (Finite 0 0) (Product.gia p) = true ->
  positive_integer (Product.soLuong p) ->
  Number (FormValues.gia (initialValues (ModeEdit p))) = Product.gia p
  /\ Number (FormValues.soLuong (initialValues (ModeEdit p))) = Product.soLuong p
  /\ submit (ModeEdit p) (initialValues (ModeEdit p)) touched
     = (touched,
        Some (FullProduct (Product.mk (Product.id p) (trim (Product.ten p))
                 (Product.danhMuc p) (Product.gia p) (Product.soLuong p)
                 (trim (Product.moTa p)))))
  /\ (forall ls s, trim (Product.ten p) = Product.ten p ->
        trim (Product.moTa p) = Product.moTa p ->
        NoDup (ids (products s)) -> p ∈ products s ->
        snd (submit (ModeEdit p) (initialValues (ModeEdit p)) touched)
        = Some (FullProduct p)
        /\ snd (reducer ls s (A_update p)) = s).
Proof.
  intros Hten Hmota Hgc Hgp (Hnc & Hni & Hnp).
  assert (Hg : Number (numberToString (Product.gia p)) = Product.gia p)
    by (by apply Number_numberToString).
  assert (Hn : Number (numberToString (Product.soLuong p)) = Product.soLuong p)
    by (by apply Number_numberToString).
  assert (Hsubmit : submit (ModeEdit p) (initialValues (ModeEdit p)) touched
     = (touched,
        Some (FullProduct (Product.mk (Product.id p) (trim (Product.ten p))
                 (Product.danhMuc p) (Product.gia p) (Product.soLuong p)
                 (trim (Product.moTa p)))))).
  { destruct (submit_emits (ModeEdit p) (initialValues (ModeEdit p)) touched)
      as (c & Hc & E).
    - unfold rules_pass, rule_name, rule_category, rule_price, rule_quantity,
        rule_description. cbn [initialValues FormValues.ten FormValues.danhMuc
        FormValues.gia FormValues.soLuong FormValues.moTa].
      rewrite Hg, Hn. repeat split; try assumption.
      + intros E. rewrite E in Hten. simpl in Hten. lia.
      + exists (Product.danhMuc p). split; [reflexivity|].
        apply list_elem_of_In. destruct (Product.danhMuc p); simpl; tauto.
      + intros E. apply (f_equal truthy) in E.
        rewrite numberToString_truthy in E; [discriminate | exact Hgc |].
        intros E0. by rewrite E0 in Hgp.
      + by apply ltb_zero_finite.
      + intros E. apply (f_equal truthy) in E.
        rewrite numberToString_truthy in E; [discriminate | exact Hnc |].
        intros E0. by rewrite E0 in Hnp.
    - rewrite E. cbn [initialValues FormValues.ten FormValues.danhMuc FormValues.gia
        FormValues.soLuong FormValues.moTa] in Hc |- *.
      injection Hc as <-. by rewrite Hg, Hn. }
  split; [exact Hg|]. split; [exact Hn|]. split; [exact Hsubmit|].
  intros ls s Et Em Hd Hp. rewrite Hsubmit, Et, Em. split; [by destruct p|].
  simpl. rewrite (update_same p (products s) Hd Hp). by destruct s.
Qed.

Lemma unchanged_edit_form_resubmits_witness :
  submit (ModeEdit (Product.mk 9 (str " Trà ") DoAn (Finite 125 (-1)) (ofZ 40) (str "Trà xanh")))
         (initialValues
            (ModeEdit (Product.mk 9 (str " Trà ") DoAn (Finite 125 (-1)) (ofZ 40)
                                  (str "Trà xanh")))) ∅
  = (∅, Some (FullProduct (Product.mk 9 (str "Trà") DoAn (Finite 125 (-1)) (ofZ 40)
                                      (str "Trà xanh")))).
Proof.
  refine (proj1 (proj2 (proj2 (unchanged_edit_form_resubmits
    (Product.mk 9 (str " Trà ") DoAn (Finite 125 (-1)) (ofZ 40) (str "Trà xanh")) ∅
    _ _ _ _ _)))).
  - vm_compute. lia.
  - discriminate.
  - reflexivity.
  - reflexivity.
  - repeat split.
Defined.

(** X10.  What the form hands over is clean: the name and the description carry
    no white space at either end, the name has at least three code units
    and the description one, the category is the one chosen, the price is a
    number above zero and the quantity a whole number above zero; in edit
    mode the identifier is the one of the product being edited.  With a
    finite price the product is storable. *)
Theorem submitted_payload_is_clean (props : ProductFormProps) (v : FormValues)
    (touched : gmap jsstring bool) (payload : Payload) :
  snd (submit props v touched) = Some payload ->
  exists d : Draft,
    match props with
    | ModeAdd => payload = NewProduct d
    | ModeEdit initial => payload = FullProduct (withId (Product.id initial) d)
    end
    /\ trim (Draft.ten d) = Draft.ten d /\ (3 <= length (Draft.ten d))%nat
    /\ trim (Draft.moTa d) = Draft.moTa d /\ Draft.moTa d <> []
    /\ FormValues.danhMuc v = Some (Draft.danhMuc d)
    /\ canonical (Draft.gia d) = true /\ ltb (Finite 0 0) (Draft.gia d) = true
    /\ positive_integer (Draft.soLuong d)
    /\ (isFinite (Draft.gia d) = true -> forall i, storable (withId i d)).
Proof.
  intros H.
  assert (Hrules : rules_pass v).
  { apply validate_rules.
    destruct (Nat.eq_dec (size (validate v)) 0%nat) as [E|E]; [exact E|].
    rewrite (submit_blocked props v touched E) in H. discriminate. }
  destruct (submit_emits props v touched Hrules) as (c & Hc & E).
  rewrite E in H. cbn [snd] in H. injection H as <-.
  destruct Hrules as ((_ & Hlen) & _ & (_ & _ & Hgp) & (_ & Hni & Hnp) & Hm).
  exists (Draft.mk (trim (FormValues.ten v)) c (Number (FormValues.gia v))
                   (Number (FormValues.soLuong v)) (trim (FormValues.moTa v))).
  cbn [Draft.ten Draft.moTa Draft.gia Draft.soLuong Draft.danhMuc].
  split; [by destruct props|].
  split; [apply trim_trim|]. split; [exact Hlen|].
  split; [apply trim_trim|]. split; [exact Hm|]. split; [exact Hc|].
  split; [apply canonical_Number|]. split; [exact Hgp|].
  split; [by repeat split; try apply canonical_Number|].
  intros Hfin i. unfold storable. cbn [withId Product.gia Product.soLuong Draft.gia
    Draft.soLuong].
  repeat split; try apply canonical_Number; [exact Hfin|].
  by apply isInteger_isFinite.
Qed.

Lemma submitted_payload_is_clean_witness :
  exists d : Draft,
    NewProduct (Draft.mk (str "Trà") DoAn (ofZ 50000) (ofZ 10) (str "x")) = NewProduct d
    /\ trim (Draft.ten d) = Draft.ten d /\ (3 <= length (Draft.ten d))%nat
    /\ trim (Draft.moTa d) = Draft.moTa d /\ Draft.moTa d <> []
    /\ FormValues.danhMuc
         (FormValues.mk (str " Trà ") (Some DoAn) (str "50000") (str "10") (str "x"))
       = Some (Draft.danhMuc d)
    /\ canonical (Draft.gia d) = true /\ ltb (Finite 0 0) (Draft.gia d) = true
    /\ positive_integer (Draft.soLuong d)
    /\ (isFinite (Draft.gia d) = true -> forall i, storable (withId i d)).
Proof.
  apply (submitted_payload_is_clean ModeAdd
    (FormValues.mk (str " Trà ") (Some DoAn) (str "50000") (str "10") (str "x")) ∅).
  vm_compute. reflexivity.
Defined.

(** ** The messages of the form *)

Lemma insert_shown (m : gmap jsstring jsstring) (k0 v0 : jsstring) :
  allTouched !! k0 = Some true -> truthy v0 = true ->
  (forall k msg, m !! k = Some msg -> allTouched !! k = Some true /\ truthy msg = true) ->
  forall k msg, <[k0 := v0]> m !! k = Some msg ->
                allTouched !! k = Some true /\ truthy msg = true.
Proof.
  intros Hk Hv Hm k msg H. apply lookup_insert_Some in H as [[<- <-]|[_ H]]; [done|].
  by apply Hm.
Qed.

Lemma validate_shown (v : FormValues) (k msg : jsstring) :
  validate v !! k = Some msg -> allTouched !! k = Some true /\ truthy msg = true.
Proof.
  revert k msg. unfold validate. cbv zeta.
  repeat match goal with
         | |- forall k msg, (if ?c then _ else _) !! k = Some msg -> _ => destruct c
         | |- forall k msg, (match ?o with Some _ => _ | None => _ end) !! k = Some msg -> _ =>
           destruct o
         | |- forall k msg, <[_ := _]> _ !! k = Some msg -> _ =>
           apply insert_shown; [reflexivity | reflexivity |]
         end;
    intros k msg H; by rewrite lookup_empty in H.
Qed.

Lemma allTouched_keys (k : jsstring) (b : bool) :
  allTouched !! k = Some b ->
  k ∈ fields.
Proof.
  unfold allTouched, fields. intros H.
  repeat (apply lookup_insert_Some in H as [[<- _]|[_ H]];
          [apply list_elem_of_In; simpl; tauto|]).
  by rewrite lookup_empty in H.
Qed.

(** X11.  A message is shown for a field only once the field is touched.  After
    a rejected submit, the fields that show a message are exactly the
    fields that [validate] reports, each with its message; before any
    touch nothing is shown; after leaving one field only that field can
    show its message. *)
Theorem messages_after_rejected_submit (props : ProductFormProps) (v : FormValues)
    (touched : gmap jsstring bool) :
  size (validate v) <> 0%nat ->
  fst (submit props v touched) = allTouched
  /\ (forall key, key ∈ fields ->
        errMsg (fst (submit props v touched)) (validate v) key = validate v !! key)
  /\ (exists key message, key ∈ fields
        /\ errMsg (fst (submit props v touched)) (validate v) key = Some message)
  /\ (forall key, key ∈ fields -> errMsg ∅ (validate v) key = None)
  /\ (forall field key, field ∈ fields -> key ∈ fields -> key <> field ->
        errMsg (onBlur ∅ field) (validate v) key = None)
  /\ (forall field, field ∈ fields ->
        errMsg (onBlur ∅ field) (validate v) field = validate v !! field).
Proof.
  intros Hne. rewrite (submit_blocked props v touched Hne). cbn [fst].
  assert (Hall : forall key, errMsg allTouched (validate v) key = validate v !! key).
  { intros key. unfold errMsg. destruct (validate v !! key) as [msg|] eqn:E.
    - destruct (validate_shown v key msg E) as [-> ->]. reflexivity.
    - by destruct (allTouched !! key) as [[]|]. }
  split; [reflexivity|]. split; [intros key _; apply Hall|]. split; [|split; [|split]].
  - destruct (map_choose (validate v)) as (key & message & E).
    { intros E. apply Hne. rewrite E. apply map_size_empty. }
    exists key, message. split; [|by rewrite Hall].
    destruct (validate_shown v key message E) as [Hk _]. by apply allTouched_keys in Hk.
  - intros key _. unfold errMsg. by rewrite lookup_empty.
  - intros field key _ _ Hk. unfold errMsg, onBlur.
    by rewrite lookup_insert_ne, lookup_empty.
  - intros field _. unfold errMsg, onBlur. rewrite lookup_insert_eq.
    destruct (validate v !! field) as [msg|] eqn:E; [|reflexivity].
    by destruct (validate_shown v field msg E) as [_ ->].
Qed.

Lemma messages_after_rejected_submit_witness :
  errMsg (fst (submit ModeAdd
                 (FormValues.mk (str "AB") (Some Sach) (str "50000") (str "10") (str "x")) ∅))
         (validate (FormValues.mk (str "AB") (Some Sach) (str "50000") (str "10") (str "x")))
         (str "ten")
  = validate (FormValues.mk (str "AB") (Some Sach) (str "50000") (str "10") (str "x"))
    !! str "ten".
Proof.
  destruct (messages_after_rejected_submit ModeAdd
    (FormValues.mk (str "AB") (Some Sach) (str "50000") (str "10") (str "x")) ∅)
    as (_ & H & _).
  - vm_compute. discriminate.
  - apply H. apply list_elem_of_In. simpl. left. reflexivity.
Defined.

(** ** The filter state in the URL *)


(** X13.  The parameters that [set] writes hold only the four names of the
    filter, each at most once and in a fixed order, and never an empty
    value: a parameter of another name, a repeated one and an emptied
    field all leave the URL.  Writing again what is read from them changes
    nothing. *)
Theorem filter_params_normal_form (state : FilterText) (patch : Patch) :
  sublist (List.map fst (useFilterParams_set state patch))
          [str "q"; str "danhMuc"; str "min"; str "max"]
  /\ Forall (fun kv => snd kv <> []) (useFilterParams_set state patch)
  /\ (URLSearchParams.get (useFilterParams_set state patch) (str "q") = None
      <-> FilterText.q (spread state patch) = [])
  /\ (URLSearchParams.get (useFilterParams_set state patch) (str "danhMuc") = None
      <-> FilterText.danhMuc (spread state patch) = [])
  /\ (URLSearchParams.get (useFilterParams_set state patch) (str "min") = None
      <-> FilterText.min (spread state patch) = [])
  /\ (URLSearchParams.get (useFilterParams_set state patch) (str "max") = None
      <-> FilterText.max (spread state patch) = [])
  /\ useFilterParams_set (useFilterParams_state (useFilterParams_set state patch))
                         (Patch.mk None None None None)
     = useFilterParams_set state patch.
Proof.
  unfold useFilterParams_set.
  assert (E : forall f, spread f (Patch.mk None None None None) = f) by (by intros []).
  generalize (spread state patch).
  intros [[|a q] [|b d] [|c mn] [|e mx]]; rewrite E;
    (split; [cbn; repeat first [apply sublist_nil | apply sublist_skip | apply sublist_cons]|]);
    (split; [cbn; repeat constructor; discriminate|]);
    cbn [FilterText.q FilterText.danhMuc FilterText.min FilterText.max];
    repeat split; try discriminate; try (vm_compute; reflexivity);
    try (vm_compute; discriminate).
Qed.

Lemma label_inj (c1 c2 : DanhMuc) : label c1 = label c2 -> c1 = c2.
Proof. destruct c1, c2; intros E; try reflexivity; vm_compute in E; discriminate. Qed.

Lemma find_label (c : DanhMuc) :
  List.find (fun c0 => JSString.eqb (label c0) (label c)) CATEGORIES = Some c.
Proof. by destruct c. Qed.

Lemma find_label_none (text : jsstring) :
  (forall c, text <> label c) ->
  List.find (fun c0 => JSString.eqb (label c0) text) CATEGORIES = None.
Proof.
  intros H. unfold CATEGORIES. cbn [find].
  repeat match goal with
         | |- context [JSString.eqb (label ?c) text] =>
           replace (JSString.eqb (label c) text) with false
             by (symmetry; apply bool_decide_eq_false; intros E; by apply (H c))
         end.
  reflexivity.
Qed.

(** X14.  The category of the URL is compared as a string.  The empty text is no
    criterion; the label of a category keeps the products of that
    category, as the typed stage does; any other text, which the cast to
    the category type lets through, keeps no product at all. *)
Theorem unknown_category_shows_nothing (text : jsstring) (l : list Product) :
  byDanhMucText [] l = l
  /\ (forall c q mn mx,
        byDanhMucText (label c) l = byDanhMuc (FilterState.mk q (Some c) mn mx) l
        /\ asFilterState (FilterText.mk q (label c) mn mx)
           = Some (FilterState.mk q (Some c) mn mx))
  /\ (text <> [] -> (forall c, text <> label c) ->
        byDanhMucText text l = []
        /\ forall q mn mx, asFilterState (FilterText.mk q text mn mx) = None).
Proof.
  split; [reflexivity|]. split.
  - intros c q mn mx. split.
    + unfold byDanhMucText, byDanhMuc. cbn [FilterState.danhMuc].
      replace (truthy (label c)) with true by (by destruct c).
      apply List.filter_ext. intros p. unfold JSString.eqb.
      apply bool_decide_ext. split; [apply label_inj | by intros ->].
    + by destruct c.
  - intros Hne Hno. split.
    + unfold byDanhMucText. destruct text as [|a text]; [done|]. cbn [truthy].
      induction l as [|p l IH]; [reflexivity|]. cbn [List.filter].
      replace (JSString.eqb (label (Product.danhMuc p)) (a :: text)) with false; [exact IH|].
      symmetry. apply bool_decide_eq_false. intros E. by apply (Hno (Product.danhMuc p)).
    + intros q mn mx. unfold asFilterState. cbn [FilterText.danhMuc].
      destruct text as [|a text]; [done|]. by rewrite find_label_none.
Qed.

Lemma unknown_category_shows_nothing_witness :
  byDanhMucText (str "sach") initialProducts = [].
Proof.
  refine (proj1 (proj2 (proj2 (unknown_category_shows_nothing (str "sach") initialProducts))
                  _ _)).
  - discriminate.
  - intros c E. destruct c; vm_compute in E; discriminate.
Defined.

(** ** The filtered list *)

(** X15.  The filtered list is the catalog with the products that fail a
    criterion left out and nothing else changed.  A product passes when
    its lower-cased name holds the lower-cased query as a run of code
    units (the query as typed, checked only when it is not blank), when
    its category is the one chosen, and when its price is within the
    bounds that are set and numeric.  Filtering twice is filtering once,
    and the filter of a URL without a query keeps the whole catalog. *)
Theorem filtered_keeps_what_passes (toLowerCase : jsstring -> jsstring)
    (l : list Product) (f : FilterState) :
  filtered toLowerCase l f = List.filter (passes toLowerCase f) l
  /\ sublist (filtered toLowerCase l f) l
  /\ (forall p, p ∈ filtered toLowerCase l f <-> p ∈ l /\ passes toLowerCase f p = true)
  /\ (forall p, passes toLowerCase f p = true
        <-> (trim (FilterState.q f) <> [] ->
             exists a b, toLowerCase (Product.ten p)
                         = a ++ toLowerCase (FilterState.q f) ++ b)
            /\ (forall c, FilterState.danhMuc f = Some c -> Product.danhMuc p = c)
            /\ (FilterState.min f <> [] -> isNaN (Number (FilterState.min f)) = false ->
                geb (Product.gia p) (Number (FilterState.min f)) = true)
            /\ (FilterState.max f <> [] -> isNaN (Number (FilterState.max f)) = false ->
                leb (Product.gia p) (Number (FilterState.max f)) = true))
  /\ filtered toLowerCase (filtered toLowerCase l f) f = filtered toLowerCase l f
  /\ filtered toLowerCase l emptyFilter = l.
Proof.
  split; [apply filtered_passes|].
  split; [rewrite filtered_passes; apply filter_sublist|].
  split; [|split; [|split; [|reflexivity]]].
  - intros p. by rewrite filtered_passes, list_elem_of_In, filter_In, <- list_elem_of_In.
  - intros p. apply passes_spec.
  - rewrite !filtered_passes, filter_and. apply List.filter_ext.
    intros p. by destruct (passes _ _ _).
Qed.

Lemma filtered_keeps_what_passes_witness :
  passes lowerASCII sampleFilter
    (Product.mk 8 (str "Sách Kinh Tế Học") Sach (ofZ 159000) (ofZ 22)
                (str "Nhập môn kinh tế (bản mới).")) = true.
Proof.
  apply (proj1 (proj2 (proj2 (proj2
    (filtered_keeps_what_passes lowerASCII initialProducts sampleFilter))))).
  split; [|split; [|split]].
  - intros _. exists [], (str "ách kinh tế học"). vm_compute. reflexivity.
  - intros c E. vm_compute in E. by injection E as <-.
  - intros _ _. vm_compute. reflexivity.
  - intros _ _. vm_compute. reflexivity.
Defined.

(** X16.  The filtered list follows the store.  A remove takes the products of
    that identifier out of the filtered list and leaves the others where
    they were; an add puts the new product in front when it passes the
    filter and changes nothing when it does not; an update decides for
    the products of another identifier nothing. *)
Theorem filtered_follows_store (toLowerCase : jsstring -> jsstring)
    (ls : Storage) (s : ProductState) (f : FilterState) :
  (forall i, filtered toLowerCase (products (snd (reducer ls s (A_delete i)))) f
             = List.filter (fun p => negb (Product.id p =? i))
                           (filtered toLowerCase (products s) f))
  /\ (forall d, filtered toLowerCase (products (snd (reducer ls s (A_add d)))) f
                = if passes toLowerCase f (withId (nextId s) d)
                  then withId (nextId s) d :: filtered toLowerCase (products s) f
                  else filtered toLowerCase (products s) f)
  /\ (forall p q, Product.id q <> Product.id p ->
        (q ∈ filtered toLowerCase (products (snd (reducer ls s (A_update p)))) f
         <-> q ∈ filtered toLowerCase (products s) f)).
Proof.
  split; [|split].
  - intros i. cbn [reducer snd products]. rewrite !filtered_passes. apply filter_comm.
  - intros d. cbn [reducer snd products]. rewrite !filtered_passes. reflexivity.
  - intros p q Hq. cbn [reducer snd products]. rewrite !filtered_passes.
    rewrite !list_elem_of_In, !filter_In, in_map_iff.
    split.
    + intros [(q0 & E & Hin) Hpass]. split; [|exact Hpass].
      destruct (Z.eqb_spec (Product.id q0) (Product.id p)); [congruence|]. by subst.
    + intros [Hin Hpass]. split; [|exact Hpass]. exists q. split; [|exact Hin].
      by destruct (Z.eqb_spec (Product.id q) (Product.id p)).
Qed.

Lemma filtered_follows_store_witness :
  sampleProduct 4
  ∈ filtered lowerASCII
      (products (snd (reducer (emptyStorage 0) (mkState [sampleProduct 4; sampleProduct 5] 6)
                              (A_update (sampleProduct 5))))) emptyFilter.
Proof.
  apply (proj2 (proj2 (filtered_follows_store lowerASCII (emptyStorage 0)
                         (mkState [sampleProduct 4; sampleProduct 5] 6) emptyFilter))
           (sampleProduct 5) (sampleProduct 4)).
  - simpl. lia.
  - apply list_elem_of_In. simpl. left. reflexivity.
Defined.

(** ** The pages of the list *)

(** X17.  The pages tile the list: read one after the other, pages 1 to
    totalPages give the list back, so every product is on exactly one
    page, in catalog order.  Every page before the last holds six
    products, the last page of a list that is not empty between one and
    six, and a page after the last none.  The product at place [k] of a
    page is the product at place [6 * (page - 1) + k] of the list. *)
Theorem pages_tile_the_list (l : list Product) :
  concat (List.map (pageItems l) (pages (Z.of_nat (length l)))) = l
  /\ (forall page, 1 <= page < totalPages (Z.of_nat (length l)) ->
        length (pageItems l page) = 6%nat)
  /\ (l <> [] ->
        (1 <= length (pageItems l (totalPages (Z.of_nat (length l)))) <= 6)%nat)
  /\ (forall page, totalPages (Z.of_nat (length l)) < page -> pageItems l page = [])
  /\ (forall page k, 1 <= page -> (k < 6)%nat ->
        pageItems l page !! k = l !! (6 * Z.to_nat (page - 1) + k)%nat).
Proof.
  pose proof (totalPages_covers (Z.of_nat (length l))) as Hc.
  assert (H1 : 1 <= totalPages (Z.of_nat (length l))) by (unfold totalPages; lia).
  split; [apply concat_pageItems|]. split; [|split; [|split]].
  - intros page Hp. pose proof (length_pageItems l page ltac:(lia)) as Hl.
    assert (Hpos : 0 < Z.of_nat (length l)).
    { destruct (Z.eq_dec (Z.of_nat (length l)) 0) as [E|E]; [|lia].
      rewrite E in Hp. change (totalPages 0) with 1 in Hp. lia. }
    pose proof (totalPages_tight (Z.of_nat (length l)) Hpos). lia.
  - intros Hne.
    pose proof (length_pageItems l (totalPages (Z.of_nat (length l))) H1) as Hl.
    assert (Hpos : 0 < Z.of_nat (length l)) by (destruct l; [done | simpl; lia]).
    pose proof (totalPages_tight (Z.of_nat (length l)) Hpos). lia.
  - intros page Hp. pose proof (length_pageItems l page ltac:(lia)) as Hl.
    destruct (pageItems l page); [reflexivity | simpl in Hl; lia].
  - intros page k. apply lookup_pageItems.
Qed.

Lemma pages_tile_the_list_witness :
  (1 <= length (pageItems initialProducts (totalPages (Z.of_nat (length initialProducts))))
   <= 6)%nat
  /\ length (pageItems initialProducts 1) = 6%nat.
Proof.
  destruct (pages_tile_the_list initialProducts) as (_ & Hfull & Hlast & _). split.
  - apply Hlast. discriminate.
  - apply Hfull. vm_compute. split; [discriminate | reflexivity].
Defined.

Lemma highlighted_none (page : Z) (n : nat) :
  forall a, page < a \/ a + Z.of_nat n <= page ->
  List.filter snd (List.map (fun p => (p, p =? page)) (consecutive a n)) = [].
Proof.
  induction n as [|n IH]; intros a Ha; [reflexivity|].
  rewrite consecutive_S. cbn [List.map List.filter snd].
  destruct (Z.eqb_spec a page); [lia|]. apply IH. lia.
Qed.

Lemma highlighted_one (page : Z) (n : nat) :
  forall a, a <= page < a + Z.of_nat n ->
  List.filter snd (List.map (fun p => (p, p =? page)) (consecutive a n)) = [(page, true)].
Proof.
  induction n as [|n IH]; intros a Ha; [lia|].
  rewrite consecutive_S. cbn [List.map List.filter snd].
  destruct (Z.eqb_spec a page) as [->|Hne].
  - f_equal. apply highlighted_none. lia.
  - apply IH. lia.
Qed.

(** X18.  On a page within range, an arrow button is disabled exactly when a
    click on it would not move: Previous on page 1 and Next on the last
    page.  The numbered buttons are 1 to totalPages in order, and the one
    highlighted is the button of the current page and no other. *)
Theorem arrows_disabled_when_idle (total page : Z) :
  0 <= total -> 1 <= page <= totalPages total ->
  (previousDisabled (Pagination total page) = true <-> onPrevious page = page)
  /\ (nextDisabled (Pagination total page) = true <-> onNext total page = page)
  /\ List.map fst (numbered (Pagination total page))
     = consecutive 1 (Z.to_nat (totalPages total))
  /\ List.filter snd (numbered (Pagination total page)) = [(page, true)].
Proof.
  intros Ht Hp. unfold Pagination. cbn [previousDisabled nextDisabled numbered].
  rewrite pages_consecutive. split; [|split; [|split]].
  - rewrite Z.eqb_eq. unfold onPrevious. lia.
  - rewrite Z.eqb_eq. unfold onNext. lia.
  - rewrite List.map_map. cbn [fst]. apply List.map_id.
  - apply highlighted_one. lia.
Qed.

Lemma arrows_disabled_when_idle_witness :
  List.filter snd (numbered (Pagination 13 2)) = [(2, true)]
  /\ (nextDisabled (Pagination 13 3) = true <-> onNext 13 3 = 3).
Proof.
  split.
  - apply (arrows_disabled_when_idle 13 2); [lia | vm_compute; split; discriminate].
  - apply (arrows_disabled_when_idle 13 3); [lia | vm_compute; split; discriminate].
Defined.

Lemma take_singleton {A : Type} (d : list A) (x : A) : take 6 d = [x] -> d = [x].
Proof.
  destruct d as [|a [|b d]]; simpl; [discriminate | done | discriminate].
Qed.

Lemma filter_last_out (a : list Product) (x : Product) :
  NoDup (ids (a ++ [x])) ->
  List.filter (fun p => negb (Product.id p =? Product.id x)) (a ++ [x]) = a.
Proof.
  intros Hd. rewrite List.filter_app. cbn [List.filter]. rewrite Z.eqb_refl. cbn [negb].
  rewrite app_nil_r. apply filter_all. unfold ids in Hd. rewrite fmap_app in Hd.
  apply NoDup_app in Hd as (_ & Hd & _). apply Forall_forall. intros p Hp.
  apply negb_true_iff, Z.eqb_neq. intros E. apply (Hd (Product.id p)).
  - by apply list_elem_of_fmap_2.
  - rewrite E. simpl. left.
Qed.

Lemma totalPages_full (k : Z) : 1 <= k -> totalPages (k * 6) = k.
Proof.
  intros Hk. unfold totalPages, ceil_div, PAGE_SIZE.
  replace (- (k * 6)) with ((- k) * 6) by lia. rewrite Z.div_mul by lia. lia.
Qed.

(** X19.  The page number survives a remove.  When the only product shown on a
    page after the first is removed, the list page stays on that page,
    which is now one past the last: it shows a grid without a card, though
    the filtered list is not empty, no numbered button is highlighted and
    neither arrow is disabled; Previous and Next both lead to the last
    page. *)
Theorem stale_page_after_delete (toLowerCase : jsstring -> jsstring) (ls : Storage)
    (s : ProductState) (f : FilterState) (page : Z) (x : Product) :
  NoDup (ids (products s)) ->
  1 < page ->
  pageItems (filtered toLowerCase (products s) f) page = [x] ->
  ProductListPage toLowerCase
    (products (snd (ProductListPage_onDelete true ls s (Product.id x)))) f page
  = Grid [] (Pagination ((page - 1) * 6) page)
  /\ totalPages ((page - 1) * 6) = page - 1
  /\ previousDisabled (Pagination ((page - 1) * 6) page) = false
  /\ nextDisabled (Pagination ((page - 1) * 6) page) = false
  /\ List.filter snd (numbered (Pagination ((page - 1) * 6) page)) = []
  /\ onPrevious page = page - 1
  /\ onNext ((page - 1) * 6) page = page - 1.
Proof.
  intros Hd Hp Hx.
  assert (Htp : totalPages ((page - 1) * 6) = page - 1) by (apply totalPages_full; lia).
  set (l := filtered toLowerCase (products s) f) in *.
  set (n := Z.to_nat (page - 1)).
  rewrite pageItems_take_drop in Hx by lia. fold n in Hx.
  apply take_singleton in Hx.
  assert (El : l = take (6 * n) l ++ [x]) by (by rewrite <- Hx, take_drop).
  assert (Hlen : length l = (6 * n + 1)%nat).
  { apply (f_equal length) in Hx. rewrite length_drop in Hx. simpl in Hx. lia. }
  assert (Hdl : NoDup (ids l)).
  { subst l. rewrite filtered_passes.
    eapply sublist_NoDup; [exact Hd | apply ids_filter_sublist]. }
  assert (El' : filtered toLowerCase
                  (products (snd (ProductListPage_onDelete true ls s (Product.id x)))) f
                = take (6 * n) l).
  { cbn [ProductListPage_onDelete ProductContext.remove reducer snd products].
    rewrite filtered_passes, filter_comm, <- filtered_passes. fold l.
    rewrite El at 1. apply filter_last_out. by rewrite <- El. }
  split; [|split; [exact Htp|split; [|split; [|split; [|split]]]]].
  - unfold ProductListPage. rewrite El'. cbv zeta.
    rewrite length_take, Hlen.
    rewrite Nat.min_l by lia.
    replace (Z.of_nat (6 * n)) with ((page - 1) * 6) by lia.
    destruct (Z.eqb_spec ((page - 1) * 6) 0); [lia|].
    f_equal. rewrite pageItems_take_drop by lia. fold n.
    rewrite drop_ge; [reflexivity | rewrite length_take; lia].
  - cbn. apply Z.eqb_neq. lia.
  - cbn. apply Z.eqb_neq. lia.
  - unfold Pagination. cbn [numbered]. rewrite pages_consecutive, Htp.
    apply highlighted_none. lia.
  - unfold onPrevious. lia.
  - unfold onNext. lia.
Qed.

Lemma stale_page_after_delete_witness :
  ProductListPage lowerASCII
    (products (snd (ProductListPage_onDelete true (emptyStorage 0)
                      (mkState (List.map sampleProduct (consecutive 1 7)) 8) 7)))
    emptyFilter 2
  = Grid [] (Pagination ((2 - 1) * 6) 2).
Proof.
  refine (proj1 (stale_page_after_delete lowerASCII (emptyStorage 0)
    (mkState (List.map sampleProduct (consecutive 1 7)) 8) emptyFilter 2 (sampleProduct 7)
    _ _ _)).
  - apply (bool_decide_unpack _). vm_compute. exact I.
  - lia.
  - reflexivity.
Defined.

(** ** Dispatches one after the other *)

Lemma filter_idem {A : Type} (f : A -> bool) (l : list A) :
  List.filter f (List.filter f l) = List.filter f l.
Proof.
  rewrite filter_and. apply List.filter_ext. intros x. by destruct (f x).
Qed.

Lemma update_twice (p : Product) (l : list Product) :
  List.map (fun q => if Product.id q =? Product.id p then p else q)
    (List.map (fun q => if Product.id q =? Product.id p then p else q) l)
  = List.map (fun q => if Product.id q =? Product.id p then p else q) l.
Proof.
  rewrite List.map_map. apply List.map_ext. intros q.
  destruct (Z.eqb_spec (Product.id q) (Product.id p)) as [E|E].
  - by rewrite Z.eqb_refl.
  - by destruct (Z.eqb_spec (Product.id q) (Product.id p)).
Qed.

Lemma delete_updated (p : Product) (l : list Product) :
  List.filter (fun q => negb (Product.id q =? Product.id p))
    (List.map (fun q => if Product.id q =? Product.id p then p else q) l)
  = List.filter (fun q => negb (Product.id q =? Product.id p)) l.
Proof.
  induction l as [|q l IH]; [reflexivity|]. cbn [List.map List.filter].
  destruct (Z.eqb_spec (Product.id q) (Product.id p)) as [E|E].
  - rewrite Z.eqb_refl. exact IH.
  - destruct (Z.eqb_spec (Product.id q) (Product.id p)); [done|]. cbn [negb].
    by rewrite IH.
Qed.

Lemma deleted_absent (i : Z) (l : list Product) :
  i ∉ ids (List.filter (fun q => negb (Product.id q =? i)) l).
Proof. apply findId_None, findId_delete_same. Qed.

(** X20.  How dispatches compose, whatever the store does with the writes.  A
    remove repeated changes nothing more, and two removes give the same
    state in either order.  An update repeated changes nothing more.  An
    update of a product that was removed does not bring it back, and a
    remove after an update of the same identifier is the remove alone. *)
Theorem store_operations_compose (ls1 ls2 ls3 : Storage) (s : ProductState) :
  (forall i, snd (reducer ls2 (snd (reducer ls1 s (A_delete i))) (A_delete i))
             = snd (reducer ls1 s (A_delete i)))
  /\ (forall i j, snd (reducer ls2 (snd (reducer ls1 s (A_delete i))) (A_delete j))
                  = snd (reducer ls3 (snd (reducer ls1 s (A_delete j))) (A_delete i)))
  /\ (forall p, snd (reducer ls2 (snd (reducer ls1 s (A_update p))) (A_update p))
                = snd (reducer ls1 s (A_update p)))
  /\ (forall p, snd (reducer ls2 (snd (reducer ls1 s (A_delete (Product.id p))))
                             (A_update p))
                = snd (reducer ls1 s (A_delete (Product.id p))))
  /\ (forall p, snd (reducer ls2 (snd (reducer ls1 s (A_update p)))
                             (A_delete (Product.id p)))
                = snd (reducer ls1 s (A_delete (Product.id p)))).
Proof.
  cbn [reducer snd products nextId]. repeat split; intros.
  - by rewrite filter_idem.
  - by rewrite filter_comm.
  - by rewrite update_twice.
  - by rewrite update_absent by apply deleted_absent.
  - by rewrite delete_updated.
Qed.

(** ** The store in localStorage *)

Lemma persist_frame (ls : Storage) (l : list Product) (k : jsstring) :
  k <> LS_KEY -> getItem (persist ls l) k = getItem ls k.
Proof.
  intros Hk. unfold persist, setItem. destruct (_ <=? _)%N; [|reflexivity].
  unfold getItem. cbn [items]. by rewrite lookup_insert_ne.
Qed.

Lemma persist_quota (ls : Storage) (l : list Product) : quota (persist ls l) = quota ls.
Proof. unfold persist, setItem. by destruct (_ <=? _)%N. Qed.

Lemma persist_cases (ls : Storage) (l : list Product) :
  getItem (persist ls l) LS_KEY = Some (stringify (JArray (List.map toJSON l)))
  \/ persist ls l = ls.
Proof.
  unfold persist, setItem. destruct (_ <=? _)%N; [left|by right].
  unfold getItem. cbn [items]. apply lookup_insert_eq.
Qed.

(** X21.  The app writes under its own key only.  Whatever is dispatched, every
    other key of the store keeps its value and the quota is as before; a
    hydrate and the mount write nothing; any other action leaves under the
    key the text of the new list, or, when the store refuses the write, the
    store as it was. *)
Theorem store_touches_only_its_key (ls : Storage) (s : ProductState) (a : Action) :
  (forall k, k <> LS_KEY -> getItem (fst (reducer ls s a)) k = getItem ls k)
  /\ quota (fst (reducer ls s a)) = quota ls
  /\ (isHydrate a = true -> fst (reducer ls s a) = ls)
  /\ (forall r, mount ls = Some r -> fst r = ls)
  /\ (isHydrate a = false ->
        getItem (fst (reducer ls s a)) LS_KEY
        = Some (stringify (JArray (List.map toJSON (products (snd (reducer ls s a))))))
        \/ fst (reducer ls s a) = ls).
Proof.
  split; [|split; [|split; [|split]]].
  - intros k Hk. destruct a; cbn [reducer fst]; try apply persist_frame; done.
  - destruct a; cbn [reducer fst]; try apply persist_quota; done.
  - by destruct a.
  - intros r. unfold mount. destruct (hydratePayload _); [|discriminate].
    by intros [= <-].
  - intros Ha. rewrite (reducer_persists ls s a Ha). apply persist_cases.
Qed.

Lemma store_touches_only_its_key_witness :
  getItem (fst (reducer (mkStorage {[ str "theme" := str "dark" ]} 5242880)
                        (mkState initialProducts 12) (A_delete 3))) (str "theme")
  = getItem (mkStorage {[ str "theme" := str "dark" ]} 5242880) (str "theme").
Proof.
  apply (store_touches_only_its_key (mkStorage {[ str "theme" := str "dark" ]} 5242880)
           (mkState initialProducts 12) (A_delete 3)).
  discriminate.
Defined.

(** ** The messages of [validate], field by field *)

Lemma lookup_validate_ten (v : FormValues) :
  validate v !! str "ten"
  = if negb (truthy (trim (FormValues.ten v))) then Some (str "Tên sản phẩm là bắt buộc")
    else if (length (trim (FormValues.ten v)) <? 3)%nat
         then Some (str "Tên tối thiểu 3 ký tự") else None.
Proof.
  unfold validate. cbv zeta.
  rewrite lookup_stage by (intros E; vm_compute in E; discriminate).
  rewrite lookup_stage2 by (intros E; vm_compute in E; discriminate).
  rewrite lookup_stage2 by (intros E; vm_compute in E; discriminate).
  rewrite lookup_stage_opt by (intros E; vm_compute in E; discriminate).
  destruct (negb _); [apply lookup_insert_eq|].
  destruct (_ <? _)%nat; [apply lookup_insert_eq | apply lookup_empty].
Qed.

Lemma lookup_validate_danhMuc (v : FormValues) :
  validate v !! str "danhMuc"
  = match FormValues.danhMuc v with
    | None => Some (str "Vui lòng chọn danh mục")
    | Some _ => None
    end.
Proof.
  unfold validate. cbv zeta.
  rewrite lookup_stage by (intros E; vm_compute in E; discriminate).
  rewrite lookup_stage2 by (intros E; vm_compute in E; discriminate).
  rewrite lookup_stage2 by (intros E; vm_compute in E; discriminate).
  destruct (FormValues.danhMuc v); [|apply lookup_insert_eq].
  rewrite lookup_stage2 by (intros E; vm_compute in E; discriminate).
  apply lookup_empty.
Qed.

Lemma lookup_validate_gia (v : FormValues) :
  validate v !! str "gia"
  = if negb (truthy (FormValues.gia v)) then Some (str "Giá là bắt buộc")
    else if isNaN (Number (FormValues.gia v)) || leb (Number (FormValues.gia v)) (Finite 0 0)
         then Some (str "Giá phải là số dương") else None.
Proof.
  unfold validate. cbv zeta.
  rewrite lookup_stage by (intros E; vm_compute in E; discriminate).
  rewrite lookup_stage2 by (intros E; vm_compute in E; discriminate).
  destruct (negb (truthy (FormValues.gia v))); [apply lookup_insert_eq|].
  destruct (_ || _); [apply lookup_insert_eq|].
  rewrite lookup_stage_opt by (intros E; vm_compute in E; discriminate).
  rewrite lookup_stage2 by (intros E; vm_compute in E; discriminate).
  apply lookup_empty.
Qed.

Lemma lookup_validate_soLuong (v : FormValues) :
  validate v !! str "soLuong"
  = if negb (truthy (FormValues.soLuong v)) then Some (str "Số lượng là bắt buộc")
    else if negb (isInteger (Number (FormValues.soLuong v)))
            || leb (Number (FormValues.soLuong v)) (Finite 0 0)
         then Some (str "Số lượng phải là số nguyên dương") else None.
Proof.
  unfold validate. cbv zeta.
  rewrite lookup_stage by (intros E; vm_compute in E; discriminate).
  destruct (negb (truthy (FormValues.soLuong v))); [apply lookup_insert_eq|].
  destruct (_ || _); [apply lookup_insert_eq|].
  rewrite lookup_stage2 by (intros E; vm_compute in E; discriminate).
  rewrite lookup_stage_opt by (intros E; vm_compute in E; discriminate).
  rewrite lookup_stage2 by (intros E; vm_compute in E; discriminate).
  apply lookup_empty.
Qed.

Lemma lookup_validate_moTa (v : FormValues) :
  validate v !! str "moTa"
  = if negb (truthy (trim (FormValues.moTa v))) then Some (str "Mô tả là bắt buộc")
    else None.
Proof.
  unfold validate. cbv zeta.
  destruct (negb (truthy (trim (FormValues.moTa v)))); [apply lookup_insert_eq|].
  rewrite lookup_stage2 by (intros E; vm_compute in E; discriminate).
  rewrite lookup_stage2 by (intros E; vm_compute in E; discriminate).
  rewrite lookup_stage_opt by (intros E; vm_compute in E; discriminate).
  rewrite lookup_stage2 by (intros E; vm_compute in E; discriminate).
  apply lookup_empty.
Qed.

Lemma Number_blank (text : jsstring) : trim text = [] -> Number text = Finite 0 0.
Proof. intros E. unfold Number. by rewrite E. Qed.

(** X22.  [validate] judges each field on its own text and reports at most one
    message for it, under the name of the field; the message for a missing
    value comes before the message for a bad one.  A name or a description
    of white space only counts as missing.  A price or a quantity of white
    space only does not: it is present, [Number] reads it as 0, and the
    message is the one for a value that is not positive. *)
Theorem validate_reports_each_field (v : FormValues) :
  validate v !! str "ten"
  = (if negb (truthy (trim (FormValues.ten v))) then Some (str "Tên sản phẩm là bắt buộc")
     else if (length (trim (FormValues.ten v)) <? 3)%nat
          then Some (str "Tên tối thiểu 3 ký tự") else None)
  /\ validate v !! str "danhMuc"
     = match FormValues.danhMuc v with
       | None => Some (str "Vui lòng chọn danh mục")
       | Some _ => None
       end
  /\ validate v !! str "gia"
     = (if negb (truthy (FormValues.gia v)) then Some (str "Giá là bắt buộc")
        else if isNaN (Number (FormValues.gia v))
                || leb (Number (FormValues.gia v)) (Finite 0 0)
             then Some (str "Giá phải là số dương") else None)
  /\ validate v !! str "soLuong"
     = (if negb (truthy (FormValues.soLuong v)) then Some (str "Số lượng là bắt buộc")
        else if negb (isInteger (Number (FormValues.soLuong v)))
                || leb (Number (FormValues.soLuong v)) (Finite 0 0)
             then Some (str "Số lượng phải là số nguyên dương") else None)
  /\ validate v !! str "moTa"
     = (if negb (truthy (trim (FormValues.moTa v))) then Some (str "Mô tả là bắt buộc")
        else None)
  /\ (forall k message, validate v !! k = Some message -> k ∈ fields)
  /\ (FormValues.gia v <> [] -> trim (FormValues.gia v) = [] ->
        validate v !! str "gia" = Some (str "Giá phải là số dương"))
  /\ (FormValues.soLuong v <> [] -> trim (FormValues.soLuong v) = [] ->
        validate v !! str "soLuong" = Some (str "Số lượng phải là số nguyên dương")).
Proof.
  split; [apply lookup_validate_ten|]. split; [apply lookup_validate_danhMuc|].
  split; [apply lookup_validate_gia|]. split; [apply lookup_validate_soLuong|].
  split; [apply lookup_validate_moTa|]. split; [|split].
  - intros k message H. destruct (validate_shown v k message H) as [Hk _].
    by apply allTouched_keys in Hk.
  - intros Hne Hblank. rewrite lookup_validate_gia, (Number_blank _ Hblank).
    destruct (FormValues.gia v); [congruence | reflexivity].
  - intros Hne Hblank. rewrite lookup_validate_soLuong, (Number_blank _ Hblank).
    destruct (FormValues.soLuong v); [congruence | reflexivity].
Qed.


Lemma validate_reports_each_field_witness :
  validate (FormValues.mk (str "Trà") (Some DoAn) (str " ") (str "5") (str "x")) !! str "gia"
  = Some (str "Giá phải là số dương").
Proof.
  destruct (validate_reports_each_field
              (FormValues.mk (str "Trà") (Some DoAn) (str " ") (str "5") (str "x")))
    as (_ & _ & _ & _ & _ & _ & H & _).
  apply H; [discriminate | reflexivity].
Defined.

(** ** The counter at 2^53 *)

Lemma assigned_stuck (ds : list Draft) :
  forall ls l,
  assigned (ls, mkState l two53) (List.map A_add ds) = replicate (length ds) two53.
Proof.
  induction ds as [|d ds IH]; intros ls l; [reflexivity|].
  cbn [List.map assigned reducer fst snd products nextId withId Product.id length
       replicate].
  rewrite numberAdd_stuck. f_equal. apply IH.
Qed.

(** X23.  At 2^53 the counter stays where it is: an add from the counter
    2^53 leaves the counter at 2^53, so every product added from there on
    gets the identifier 2^53, and a lookup by that identifier finds the
    latest of them.  From a counter between -2^53 and 2^53 an add never
    lowers the counter and never takes it above 2^53. *)
Theorem counter_sticks_at_2_53 (ls : Storage) (l : list Product) (ds : list Draft) :
  (forall d, nextId (snd (reducer ls (mkState l two53) (A_add d))) = two53)
  /\ assigned (ls, mkState l two53) (List.map A_add ds) = replicate (length ds) two53
  /\ (forall d, findId (products (snd (reducer ls (mkState l two53) (A_add d)))) two53
                = Some (withId two53 d))
  /\ (forall s d, - two53 <= nextId s <= two53 ->
        nextId s <= nextId (snd (reducer ls s (A_add d))) <= two53).
Proof.
  split; [reflexivity|]. split; [apply assigned_stuck|]. split; [reflexivity|].
  intros s d Hn. cbn [reducer snd nextId].
  destruct (Z.eq_dec (nextId s) two53) as [->|Hne]; [by rewrite numberAdd_stuck|].
  rewrite numberAdd_exact by (unfold counts_exactly; lia). lia.
Qed.

Lemma counter_sticks_at_2_53_witness :
  12 <= nextId (snd (reducer (emptyStorage 0) (mkState initialProducts 12)
                             (A_add sampleDraft))) <= two53.
Proof.
  destruct (counter_sticks_at_2_53 (emptyStorage 0) [] []) as (_ & _ & _ & H).
  apply (H (mkState initialProducts 12)). vm_compute. split; discriminate.
Defined.
